(** * The preset generator of KAITO (package [generator]), embedded in Rocq

    The development follows [generator.go]: the helpers of the Go standard
    library the generator calls come first (64-bit [int] arithmetic,
    [strings], [strconv], [regexp], [float64]), then the generator itself,
    function by function and under the names the source gives them, then
    the properties of the preset it builds.  The callers of the generator
    follow in the same way: the command [preset-generator]
    ([cmd/preset-generator/main.go]), the lookup of the vLLM models
    ([vllm_model.go]) and the model register it works on (package
    [plugin]). *)

From Stdlib Require Import ZArith Lia Bool List Ascii String.
From Stdlib Require Import Decimal DecimalString DecimalN DecimalZ.
From Stdlib Require Import SpecFloat.
From Stdlib Require Import Sorted Permutation.
From stdpp Require Import base option list strings gmap sorting.

Open Scope string_scope.
Open Scope Z_scope.

(** ** Go's [int] and [int64]: 64-bit two's complement *)

Definition MinInt64 : Z := - 2 ^ 63.
Definition MaxInt64 : Z := 2 ^ 63 - 1.

(** The value a 64-bit signed register holds after an operation whose
    mathematical result is [z]. *)
Definition wrap64 (z : Z) : Z := (z + 2 ^ 63) mod 2 ^ 64 - 2 ^ 63.

Definition in_int64 (z : Z) : Prop := MinInt64 <= z <= MaxInt64.

Definition int_add (a b : Z) : Z := wrap64 (a + b).
Definition int_mul (a b : Z) : Z := wrap64 (a * b).
(** [a / b] on [int]: truncated division (the callers guard [b > 0]). *)
Definition int_quo (a b : Z) : Z := wrap64 (Z.quot a b).

(** ** [float64]

    A [float64] is a [spec_float] of the binary64 format; the arithmetic
    is the IEEE 754 arithmetic of [SpecFloat]. *)

Module F64.

Definition prec : Z := 53.
Definition emax : Z := 1024.

(** [float64(n)] for an integer [n]: round to nearest, ties to even. *)
Definition of_int (n : Z) : spec_float := binary_normalize prec emax n 0 false.

Definition add : spec_float -> spec_float -> spec_float := SFadd prec emax.
Definition div : spec_float -> spec_float -> spec_float := SFdiv prec emax.

(** The integer part of [m * 2^e], magnitude rounded down. *)
Definition floor_mag (m : positive) (e : Z) : Z := Z.shiftl (Z.pos m) e.
(** The least integer not below [m * 2^e]. *)
Definition ceil_mag (m : positive) (e : Z) : Z := - Z.shiftl (Z.neg m) e.

(** [int(v)]: the fraction is discarded (truncation towards zero).  When
    the value does not fit the Go specification leaves the result to the
    implementation; the model takes what amd64 produces, the "integer
    indefinite" value [MinInt64]. *)
Definition to_int (v : spec_float) : Z :=
  match v with
  | S754_zero _ => 0
  | S754_finite s m e =>
      let t := if s then - floor_mag m e else floor_mag m e in
      if (MinInt64 <=? t) && (t <=? MaxInt64) then t else MinInt64
  | _ => MinInt64
  end.

(** [math.Ceil]: [Ceil(±0) = ±0], [Ceil(±Inf) = ±Inf], [Ceil(NaN) = NaN];
    a value in (-1, 0) gives [-0]. *)
Definition Ceil (x : spec_float) : spec_float :=
  match x with
  | S754_finite s m e =>
      let c := if s then - floor_mag m e else ceil_mag m e in
      if c =? 0 then S754_zero s else of_int c
  | _ => x
  end.

(** The integer nearest to [m * 2^e], ties to even. *)
Definition round_half_even (m : positive) (e : Z) : Z :=
  if 0 <=? e then Z.shiftl (Z.pos m) e
  else
    let q := Z.shiftr (Z.pos m) (- e) in
    let r := Z.pos m - Z.shiftl q (- e) in
    let half := Z.shiftl 1 (- e - 1) in
    match r ?= half with
    | Lt => q
    | Gt => q + 1
    | Eq => if Z.even q then q else q + 1
    end.

End F64.

(** ** [strconv] and [fmt] *)

(** [%d]. *)
Definition string_of_Z (z : Z) : string := NilZero.string_of_int (Z.to_int z).

(** The value of a non-empty string of decimal digits. *)
Definition parse_digits (s : string) : option Z :=
  match s with
  | "" => None
  | _ => (fun d => Z.of_N (N.of_uint d)) <$> NilEmpty.uint_of_string s
  end.

(** An optional sign followed by decimal digits: the sign and the
    magnitude. *)
Definition parse_signed (s : string) : option (bool * Z) :=
  match s with
  | String "-" s' => (fun n => (true, n)) <$> parse_digits s'
  | String "+" s' => (fun n => (false, n)) <$> parse_digits s'
  | _ => (fun n => (false, n)) <$> parse_digits s
  end.

(** [strconv.Atoi]: an optional sign and decimal digits, nothing else;
    [None] stands for a non-nil error (syntax, or a value out of range
    for [int]). *)
Definition Atoi (s : string) : option Z :=
  match parse_signed s with
  | Some (neg, n) =>
      let v := if neg then - n else n in
      if (MinInt64 <=? v) && (v <=? MaxInt64) then Some v else None
  | None => None
  end.

(** [fmt.Sprintf("%.0f", x)]. *)
Definition format_f0 (x : spec_float) : string :=
  match x with
  | S754_nan => "NaN"
  | S754_infinity false => "+Inf"
  | S754_infinity true => "-Inf"
  | S754_zero s => (if s then "-" else "") +:+ "0"
  | S754_finite s m e =>
      (if s then "-" else "") +:+ string_of_Z (F64.round_half_even m e)
  end.

(** [strconv.ParseFloat(s, 64)] on the texts [%.0f] prints: a signed
    decimal integer (correctly rounded), [NaN], [+Inf], [-Inf].  [None]
    stands for a syntax error.  Texts with a fraction, an exponent or a
    hexadecimal mantissa are not covered: the generator only parses back
    what it printed with [%.0f]. *)
Definition ParseFloat (s : string) : option spec_float :=
  if decide (s = "NaN") then Some S754_nan
  else if decide (s = "+Inf") then Some (S754_infinity false)
  else if decide (s = "-Inf") then Some (S754_infinity true)
  else match parse_signed s with
       | Some (neg, n) =>
           Some (binary_normalize F64.prec F64.emax (if neg then - n else n) 0 neg)
       | None => None
       end.

(** ** [strings] *)

(** [strings.HasPrefix(s, prefix)]. *)
Definition HasPrefix (s prefix : string) : bool := String.prefix prefix s.

(** [strings.HasSuffix(s, suffix)]:
    [len(s) >= len(suffix) && s[len(s)-len(suffix):] == suffix]. *)
Definition HasSuffix (s suffix : string) : bool :=
  (String.length suffix <=? String.length s)%nat
  && String.eqb
       (substring (String.length s - String.length suffix) (String.length suffix) s)
       suffix.

(** [strings.TrimSuffix(s, suffix)]. *)
Definition TrimSuffix (s suffix : string) : string :=
  if HasSuffix s suffix
  then substring 0 (String.length s - String.length suffix) s
  else s.

(** ** The configuration document

    [json.Unmarshal] into a [map[string]interface{}] stores numbers as
    [float64]; [getInt] also accepts an [int], which a caller building the
    map in Go can store. *)
#[warnings="-register-all"]
Inductive value : Type :=
  | VNull
  | VBool (b : bool)
  | VFloat (v : spec_float)
  | VInt (v : Z)
  | VString (v : string)
  | VArray (l : list value)
  | VObject (m : list (string * value)).

(** The type switch of [getInt] on one value: the integer it returns, or
    [None] when the loop goes on to the next key. *)
Definition coerceInt (val : value) : option Z :=
  match val with
  | VFloat v => Some (F64.to_int v)
  | VInt v => Some v
  | VString v => Atoi v
  | _ => None
  end.

(** What a key yields: the coerced value of the entry, if there is one
    and it coerces. *)
Definition yields (config : gmap string value) (key : string) : option Z :=
  config !! key ≫= coerceInt.

Fixpoint getInt (config : gmap string value) (keys : list string) (defaultVal : Z) : Z :=
  match keys with
  | [] => defaultVal
  | key :: keys' =>
      match config !! key with
      | Some val =>
          match coerceInt val with
          | Some i => i
          | None => getInt config keys' defaultVal
          end
      | None => getInt config keys' defaultVal
      end
  end.

(** ** The attention analyzer: [calculateKVCacheTokenSize] *)

(** The local variables of [calculateKVCacheTokenSize] at its [return]. *)
Record kvLocals : Type := {
  hiddenSize : Z;
  hiddenLayers : Z;
  attentionHeads : Z;
  kvHeads : Z;
  headDim : Z;
  kvLoraRank : Z;
  qkRopeHeadDim : Z;
  attnType : string;
  elementsPerToken : Z;
  tokenSize : Z
}.

(** [config["multi_query"].(bool)] with [ok && mq]. *)
Definition multiQuery (config : gmap string value) : bool :=
  match config !! "multi_query" with
  | Some (VBool mq) => mq
  | _ => false
  end.

(** The body of [calculateKVCacheTokenSize], every local kept. *)
Definition kvCacheLocals (config : gmap string value) : kvLocals :=
  let hiddenSize := getInt config ["hidden_size"; "n_embd"; "d_model"] 0 in
  let hiddenLayers := getInt config ["num_hidden_layers"; "n_layer"; "n_layers"] 0 in
  let attentionHeads := getInt config ["num_attention_heads"; "n_head"; "n_heads"] 0 in
  let kvHeads := getInt config ["num_key_value_heads"; "n_head_kv"; "n_kv_heads"] 0 in
  let headDim := getInt config ["head_dim"] 0 in
  let headDim :=
    if (headDim =? 0) && (0 <? attentionHeads)
    then int_quo hiddenSize attentionHeads else headDim in
  (* DeepSeek MLA *)
  let kvLoraRank := getInt config ["kv_lora_rank"] (-1) in
  let qkRopeHeadDim := getInt config ["qk_rope_head_dim"] 0 in
  (* Fallback KV heads *)
  let kvHeads :=
    if (kvHeads =? 0) && (0 <? attentionHeads)
    then (if multiQuery config then 1 else attentionHeads)
    else kvHeads in
  let '(attnType, elementsPerToken) :=
    if negb (kvLoraRank =? -1) then
      ("MLA", int_add kvLoraRank qkRopeHeadDim)
    else if (0 <? attentionHeads) && (0 <? kvHeads) && (0 <? headDim) then
      (if attentionHeads =? kvHeads then "MHA"
       else if kvHeads =? 1 then "MQA"
       else "GQA",
       int_mul (int_mul 2 kvHeads) headDim)
    else ("Unknown", 0) in
  let totalElements := int_mul elementsPerToken hiddenLayers in
  let tokenSize := int_mul totalElements 2 (* fp16 *) in
  {| hiddenSize := hiddenSize; hiddenLayers := hiddenLayers;
     attentionHeads := attentionHeads; kvHeads := kvHeads; headDim := headDim;
     kvLoraRank := kvLoraRank; qkRopeHeadDim := qkRopeHeadDim;
     attnType := attnType; elementsPerToken := elementsPerToken;
     tokenSize := tokenSize |}.

(** [calculateKVCacheTokenSize] returns [tokenSize, attnType]. *)
Definition calculateKVCacheTokenSize (config : gmap string value) : Z * string :=
  let l := kvCacheLocals config in (tokenSize l, attnType l).

(** ** [regexp]

    The three patterns of the generator use literals, [.] and [*] only.
    A path is a byte string; [.] is every byte but the line feed, which on
    UTF-8 text between ASCII literals is the same as every character but
    the line feed. *)

Module Regexp.

Inductive re : Type :=
  | Void
  | Eps
  | Lit (c : ascii)
  | Dot
  | AnyByte
  | Cat (r1 r2 : re)
  | Alt (r1 r2 : re)
  | Star (r : re).

Definition newline : ascii := "010"%char.

Fixpoint nullable (r : re) : bool :=
  match r with
  | Void | Lit _ | Dot | AnyByte => false
  | Eps | Star _ => true
  | Cat r1 r2 => nullable r1 && nullable r2
  | Alt r1 r2 => nullable r1 || nullable r2
  end.

(** The residual of [r] after reading [c]. *)
Fixpoint deriv (c : ascii) (r : re) : re :=
  match r with
  | Void | Eps => Void
  | Lit c' => if Ascii.eqb c c' then Eps else Void
  | Dot => if Ascii.eqb c newline then Void else Eps
  | AnyByte => Eps
  | Cat r1 r2 =>
      if nullable r1 then Alt (Cat (deriv c r1) r2) (deriv c r2)
      else Cat (deriv c r1) r2
  | Alt r1 r2 => Alt (deriv c r1) (deriv c r2)
  | Star r1 => Cat (deriv c r1) (Star r1)
  end.

(** The whole of [s] matches [r]. *)
Fixpoint matches (r : re) (s : string) : bool :=
  match s with
  | "" => nullable r
  | String c s' => matches (deriv c r) s'
  end.

Fixpoint literal (s : string) : re :=
  match s with
  | "" => Eps
  | String c s' => Cat (Lit c) (literal s')
  end.

(** The method [MatchString] of a compiled pattern: [s] contains a match
    of [r]. *)
Definition MatchString (r : re) (s : string) : bool :=
  matches (Cat (Star AnyByte) (Cat r (Star AnyByte))) s.

End Regexp.

Import Regexp.

(** [regexp.MustCompile(`.*\.safetensors`)]. *)
Definition safetensorRegex : re := Cat (Star Dot) (literal ".safetensors").
(** [regexp.MustCompile(`.*\.bin`)]. *)
Definition binRegex : re := Cat (Star Dot) (literal ".bin").
(** [regexp.MustCompile(`consolidated.*\.safetensors`)]. *)
Definition mistralRegex : re :=
  Cat (literal "consolidated") (Cat (Star Dot) (literal ".safetensors")).

(** ** Constants and tables *)

Definition SystemFileDiskSizeGiB : Z := 50.
Definition DefaultModelTokenLimit : Z := 2048.
Definition HuggingFaceWebsite : string := "https://huggingface.co".

(** The entries of [reasoningParserMap], in the order of the source. *)
Definition reasoningParserTable : list (string * string) :=
  [ ("deepseek-r1", "deepseek_r1");
    ("deepseek-v3", "deepseek_v3");
    ("ernie-4.5", "ernie45");
    ("glm-4.5", "glm45");
    ("hunyuan-a13b", "hunyuan_a13b");
    ("granite-3.2", "granite");
    ("minimax-m2", "minimax_m2_append_think");
    ("qwen3", "qwen3");
    ("qwq-32b", "deepseek_r1") ].

(** The entries of [toolCallParserMap], in the order of the source. *)
Definition toolCallParserTable : list (string * string) :=
  [ ("hermes-2", "hermes");
    ("hermes-3", "hermes");
    ("mistral", "mistral");
    ("meta-llama-3", "llama3_json");
    ("meta-llama-4", "llama4_pythonic");
    ("granite-3", "granite");
    ("granite-4", "hermes");
    ("internlm", "internlm");
    ("ai21-jamba", "jamba");
    ("qwq-32b", "hermes");
    ("qwen2.5", "hermes");
    ("minimax", "minimax");
    ("deepseek-r1", "deepseek_v3");
    ("deepseek-v3", "deepseek_v3");
    ("deepseek-v3.1", "deepseek_v31");
    ("kimi_k2", "kimi_k2");
    ("hunyuan-a13b", "hunyuan_a13b");
    ("longcat", "longcat");
    ("glm-4", "glm45");
    ("qwen3", "hermes");
    ("qwen3-coder", "qwen3_xml");
    ("olmo-3", "olmo3") ].

Definition reasoningParserMap : gmap string string := list_to_map reasoningParserTable.
Definition toolCallParserMap : gmap string string := list_to_map toolCallParserTable.

(** [m[k]] on a [map[string]string]: the zero value when [k] is absent. *)
Definition mapIndex (m : gmap string string) (k : string) : string :=
  default "" (m !! k).

(** ** The file tree and the format classifier *)

Record FileInfo : Type := {
  Path : string;
  Size : Z;
  Type_ : string
}.

(** The filtering loop of [FetchModelMetadata]: one step appends the file
    to [mistralFiles] and to [selectedFiles] as the patterns say. *)
Definition filterStep (acc : list FileInfo * list FileInfo) (f : FileInfo)
  : list FileInfo * list FileInfo :=
  let '(selectedFiles, mistralFiles) := acc in
  let mistralFiles :=
    if MatchString mistralRegex (Path f) then (mistralFiles ++ [f])%list else mistralFiles in
  let selectedFiles :=
    if MatchString safetensorRegex (Path f) || MatchString binRegex (Path f)
    then (selectedFiles ++ [f])%list else selectedFiles in
  (selectedFiles, mistralFiles).

Definition filterFiles (files : list FileInfo) : list FileInfo * list FileInfo :=
  fold_left filterStep files ([], []).

(** The loop that looks for a path ending in [.safetensors]. *)
Fixpoint hasSafetensors (selectedFiles : list FileInfo) : bool :=
  match selectedFiles with
  | [] => false
  | f :: rest => if HasSuffix (Path f) ".safetensors" then true else hasSafetensors rest
  end.

(** The loop that collects [onlySafetensors]. *)
Definition onlySafetensors (selectedFiles : list FileInfo) : list FileInfo :=
  fold_left
    (fun acc f => if HasSuffix (Path f) ".safetensors" then (acc ++ [f])%list else acc)
    selectedFiles [].

(** What the format detection of [FetchModelMetadata] decides. *)
Record Detected : Type := {
  dLoadFormat : string;
  dConfigFormat : string;
  dTokenizerMode : string;
  dConfigFile : string;
  dSelectedFiles : list FileInfo
}.

(** The detection, given the formats the generator holds so far; [None]
    is the [return] of the last branch ("no .safetensors or .bin files
    found"). *)
Definition detectFormat (loadFormat configFormat tokenizerMode : string)
    (files : list FileInfo) : option Detected :=
  let '(selectedFiles, mistralFiles) := filterFiles files in
  if (0 <? length mistralFiles)%nat then
    Some {| dLoadFormat := "mistral"; dConfigFormat := "mistral";
            dTokenizerMode := "mistral"; dConfigFile := "params.json";
            dSelectedFiles := mistralFiles |}
  else if (0 <? length selectedFiles)%nat then
    Some {| dLoadFormat := loadFormat; dConfigFormat := configFormat;
            dTokenizerMode := tokenizerMode; dConfigFile := "config.json";
            dSelectedFiles :=
              (* Prefer safetensors if mixed with bin *)
              if hasSafetensors selectedFiles
              then onlySafetensors selectedFiles else selectedFiles |}
  else None.

(** [totalBytes]: the [int64] sum of the sizes. *)
Definition totalBytes (selectedFiles : list FileInfo) : Z :=
  fold_left (fun total f => wrap64 (total + Size f)) selectedFiles 0.

(** The [ModelFileSize] the generator prints for a total:
    [modelSizeGB := float64(totalBytes) / (1024 * 1024 * 1024)] and
    [fmt.Sprintf("%.0fGi", math.Ceil(modelSizeGB))]. *)
Definition modelFileSizeOf (totalBytes : Z) : string :=
  let modelSizeGB := F64.div (F64.of_int totalBytes) (F64.of_int (1024 * 1024 * 1024)) in
  format_f0 (F64.Ceil modelSizeGB) +:+ "Gi".

(** [calculateStorageSize], as a function of [ModelFileSize]. *)
Definition storageSizeOf (modelFileSize : string) : string :=
  let szStr := TrimSuffix modelFileSize "Gi" in
  let sz := default (S754_zero false) (ParseFloat szStr) in
  let req := F64.to_int (F64.add sz (F64.of_int SystemFileDiskSizeGiB)) in
  string_of_Z req +:+ "Gi".

(** ** The preset record ([model.PresetParam]) and the generator *)

Record Metadata : Type := {
  Name : string;
  Architectures : list string;
  ModelType : string;
  Version : string;
  DownloadAtRuntime : bool;
  DownloadAuthRequired : bool;
  DiskStorageRequirement : string;
  ModelFileSize : string;
  BytesPerToken : Z;
  ModelTokenLimit : Z;
  ReasoningParser : string;
  ToolCallParser : string
}.

(** [ModelRunParams] is [None] while the Go map is [nil]. *)
Record VLLMParam : Type := {
  ModelName : string;
  ModelRunParams : option (gmap string string)
}.

Record PresetParam : Type := {
  Metadata_ : Metadata;
  AttnType : string;
  VLLM : VLLMParam
}.

Record Generator : Type := {
  ModelRepo : string;
  Token : string;
  Param : PresetParam;
  (* Analyzed params *)
  LoadFormat : string;
  ConfigFormat : string;
  TokenizerMode : string;
  ModelConfig : gmap string value
}.

(** Assignments to single fields. *)
Definition setMetadata (f : Metadata -> Metadata) (g : Generator) : Generator :=
  {| ModelRepo := ModelRepo g; Token := Token g;
     Param := {| Metadata_ := f (Metadata_ (Param g));
                 AttnType := AttnType (Param g); VLLM := VLLM (Param g) |};
     LoadFormat := LoadFormat g; ConfigFormat := ConfigFormat g;
     TokenizerMode := TokenizerMode g; ModelConfig := ModelConfig g |}.

Definition setParam (f : PresetParam -> PresetParam) (g : Generator) : Generator :=
  {| ModelRepo := ModelRepo g; Token := Token g; Param := f (Param g);
     LoadFormat := LoadFormat g; ConfigFormat := ConfigFormat g;
     TokenizerMode := TokenizerMode g; ModelConfig := ModelConfig g |}.

Definition withDownloadAuthRequired (b : bool) (m : Metadata) : Metadata :=
  {| Name := Name m; Architectures := Architectures m; ModelType := ModelType m;
     Version := Version m; DownloadAtRuntime := DownloadAtRuntime m;
     DownloadAuthRequired := b;
     DiskStorageRequirement := DiskStorageRequirement m;
     ModelFileSize := ModelFileSize m; BytesPerToken := BytesPerToken m;
     ModelTokenLimit := ModelTokenLimit m; ReasoningParser := ReasoningParser m;
     ToolCallParser := ToolCallParser m |}.

Definition withModelFileSize (v : string) (m : Metadata) : Metadata :=
  {| Name := Name m; Architectures := Architectures m; ModelType := ModelType m;
     Version := Version m; DownloadAtRuntime := DownloadAtRuntime m;
     DownloadAuthRequired := DownloadAuthRequired m;
     DiskStorageRequirement := DiskStorageRequirement m;
     ModelFileSize := v; BytesPerToken := BytesPerToken m;
     ModelTokenLimit := ModelTokenLimit m; ReasoningParser := ReasoningParser m;
     ToolCallParser := ToolCallParser m |}.

Definition withDiskStorageRequirement (v : string) (m : Metadata) : Metadata :=
  {| Name := Name m; Architectures := Architectures m; ModelType := ModelType m;
     Version := Version m; DownloadAtRuntime := DownloadAtRuntime m;
     DownloadAuthRequired := DownloadAuthRequired m;
     DiskStorageRequirement := v;
     ModelFileSize := ModelFileSize m; BytesPerToken := BytesPerToken m;
     ModelTokenLimit := ModelTokenLimit m; ReasoningParser := ReasoningParser m;
     ToolCallParser := ToolCallParser m |}.

Definition withBytesPerToken (v : Z) (m : Metadata) : Metadata :=
  {| Name := Name m; Architectures := Architectures m; ModelType := ModelType m;
     Version := Version m; DownloadAtRuntime := DownloadAtRuntime m;
     DownloadAuthRequired := DownloadAuthRequired m;
     DiskStorageRequirement := DiskStorageRequirement m;
     ModelFileSize := ModelFileSize m; BytesPerToken := v;
     ModelTokenLimit := ModelTokenLimit m; ReasoningParser := ReasoningParser m;
     ToolCallParser := ToolCallParser m |}.

(** The four fields [ParseModelMetadata] assigns. *)
Definition withParsed (limit : Z) (archs : list string) (reasoning toolCall : string)
    (m : Metadata) : Metadata :=
  {| Name := Name m; Architectures := archs; ModelType := ModelType m;
     Version := Version m; DownloadAtRuntime := DownloadAtRuntime m;
     DownloadAuthRequired := DownloadAuthRequired m;
     DiskStorageRequirement := DiskStorageRequirement m;
     ModelFileSize := ModelFileSize m; BytesPerToken := BytesPerToken m;
     ModelTokenLimit := limit; ReasoningParser := reasoning;
     ToolCallParser := toolCall |}.

(** ** The world outside the generator

    Errors are the texts [Error()] returns. *)
Inductive result (A : Type) : Type :=
  | Ok (a : A)
  | Err (err : string).
Arguments Ok {A} a.
Arguments Err {A} err.

(** What one [GET] comes to. *)
Inductive HttpOutcome : Type :=
  | DoError (err : string)
      (** [client.Do] returned an error *)
  | Response (StatusCode : Z) (Body : result string)
      (** a response, and what [io.ReadAll(resp.Body)] returns *).

Record World : Type := {
  (** [os.Getenv("HF_TOKEN")] *)
  HF_TOKEN : string;
  (** the error of [http.NewRequest("GET", url, nil)], if any *)
  newRequestError : string -> option string;
  (** the hub: the URL and the [Authorization] header, empty when unset *)
  roundTrip : string -> string -> HttpOutcome;
  (** [json.Unmarshal] into a [[]FileInfo] *)
  unmarshalFiles : string -> result (list FileInfo);
  (** [json.Unmarshal] into a [map[string]interface{}] *)
  unmarshalConfig : string -> result (gmap string value);
  (** the orders in which [range] walks the two parser maps *)
  reasoningOrder : list string;
  toolCallOrder : list string;
  (** [strings.Map(unicode.ToLower, s)]: the case tables of package
      [unicode], which [strings.ToLower] goes through for a string that
      is not all ASCII *)
  unicodeToLower : string -> string
}.

(** The generator together with the URLs requested from the network so
    far. *)
Record GenState : Type := {
  gen : Generator;
  requests : list string
}.

(** ** [NewGenerator] *)

(** [strings.Split(s, "/")]. *)
Fixpoint SplitSlash (s : string) : list string :=
  match s with
  | "" => [""]
  | String c s' =>
      if Ascii.eqb c "/" then "" :: SplitSlash s'
      else match SplitSlash s' with
           | h :: t => String c h :: t
           | [] => [String c ""]
           end
  end.

(** [c += 'a' - 'A'] for the bytes ['A'] to ['Z']. *)
Definition lowerByte (c : ascii) : ascii :=
  let n := N_of_ascii c in
  if ((65 <=? n) && (n <=? 90))%N then ascii_of_N (n + 32) else c.

(** The first loop of [strings.ToLower]: no byte from [utf8.RuneSelf]
    (0x80) on. *)
Fixpoint isASCII (s : string) : bool :=
  match s with
  | "" => true
  | String c s' => (N_of_ascii c <? 128)%N && isASCII s'
  end.

(** The loop of its ASCII branch, which lowers the bytes ['A'] to ['Z']
    and copies the others (the string comes back as it is when it has no
    such byte). *)
Fixpoint lowerASCII (s : string) : string :=
  match s with
  | "" => ""
  | String c s' => String (lowerByte c) (lowerASCII s')
  end.

(** [strings.ToLower]: the byte loop for a string that is all ASCII,
    [strings.Map(unicode.ToLower, s)] for every other string. *)
Definition ToLower (w : World) (s : string) : string :=
  if isASCII s then lowerASCII s else unicodeToLower w s.

Definition NewGenerator (w : World) (modelRepo token : string) : Generator :=
  let nameParts := SplitSlash modelRepo in
  let modelNameSafe := ToLower w (List.last nameParts "") in
  {| ModelRepo := modelRepo;
     Token := token;
     LoadFormat := "auto";
     ConfigFormat := "auto";
     TokenizerMode := "auto";
     ModelConfig := ∅;
     Param :=
       {| Metadata_ :=
            {| Name := modelNameSafe;
               Architectures := [];
               ModelType := "tfs";
               Version := HuggingFaceWebsite +:+ "/" +:+ modelRepo;
               DownloadAtRuntime := true;
               DownloadAuthRequired := false;
               DiskStorageRequirement := "50Gi";
               ModelFileSize := "0Gi";
               BytesPerToken := 0;
               ModelTokenLimit := 0;
               ReasoningParser := "";
               ToolCallParser := "" |};
          AttnType := "";
          VLLM := {| ModelName := ""; ModelRunParams := None |} |} |}.

(** ** The metadata fetcher *)

Definition getAuthHeader (w : World) (g : Generator) : string :=
  if negb (String.eqb (Token g) "") then "Bearer " +:+ Token g
  else if negb (String.eqb (HF_TOKEN w) "") then "Bearer " +:+ HF_TOKEN w
  else "".

Definition isAuthStatus (StatusCode : Z) : bool :=
  (StatusCode =? 401) || (StatusCode =? 403).

Definition fetchURL (w : World) (url : string) (st : GenState) : result string * GenState :=
  match newRequestError w url with
  | Some err => (Err err, st)
  | None =>
      let auth := getAuthHeader w (gen st) in
      (* client.Do(req) *)
      let st := {| gen := gen st; requests := (requests st ++ [url])%list |} in
      match roundTrip w url auth with
      | DoError err => (Err err, st)
      | Response StatusCode Body =>
          let st :=
            if isAuthStatus StatusCode
            then {| gen := setMetadata (withDownloadAuthRequired true) (gen st);
                    requests := requests st |}
            else st in
          if isAuthStatus StatusCode && String.eqb auth "" then
            (Err ("authentication required for accessing " +:+ url), st)
          else if negb (StatusCode =? 200) then
            (Err ("failed to fetch " +:+ url +:+ ": status " +:+ string_of_Z StatusCode), st)
          else (Body, st)
      end
  end.

Definition setFormats (d : Detected) (g : Generator) : Generator :=
  {| ModelRepo := ModelRepo g; Token := Token g; Param := Param g;
     LoadFormat := dLoadFormat d; ConfigFormat := dConfigFormat d;
     TokenizerMode := dTokenizerMode d; ModelConfig := ModelConfig g |}.

Definition setModelConfig (config : gmap string value) (g : Generator) : Generator :=
  {| ModelRepo := ModelRepo g; Token := Token g; Param := Param g;
     LoadFormat := LoadFormat g; ConfigFormat := ConfigFormat g;
     TokenizerMode := TokenizerMode g; ModelConfig := config |}.

Definition setModelRunParams (m : gmap string string) (p : PresetParam) : PresetParam :=
  {| Metadata_ := Metadata_ p; AttnType := AttnType p;
     VLLM := {| ModelName := ModelName (VLLM p); ModelRunParams := Some m |} |}.

(** The two URLs of [FetchModelMetadata]. *)
Definition listingURL (modelRepo : string) : string :=
  HuggingFaceWebsite +:+ "/api/models/" +:+ modelRepo +:+ "/tree/main?recursive=true".

Definition configURL (modelRepo configFile : string) : string :=
  HuggingFaceWebsite +:+ "/" +:+ modelRepo +:+ "/resolve/main/" +:+ configFile.

(** [FetchModelMetadata]: [None] is the [nil] error. *)
Definition FetchModelMetadata (w : World) (st : GenState) : option string * GenState :=
  (* List files using HF API *)
  let url := listingURL (ModelRepo (gen st)) in
  match fetchURL w url st with
  | (Err err, st) => (Some ("error listing files: " +:+ err), st)
  | (Ok body, st) =>
  match unmarshalFiles w body with
  | Err err => (Some ("error parsing file list: " +:+ err), st)
  | Ok files =>
  let g := gen st in
  (* Logic to detect model format *)
  match detectFormat (LoadFormat g) (ConfigFormat g) (TokenizerMode g) files with
  | None => (Some "no .safetensors or .bin files found", st)
  | Some d =>
  let g := setFormats d g in
  let g := setMetadata
             (withModelFileSize (modelFileSizeOf (totalBytes (dSelectedFiles d)))) g in
  let g := setParam (setModelRunParams ∅) g in
  let st := {| gen := g; requests := requests st |} in
  let configURL := configURL (ModelRepo g) (dConfigFile d) in
  match fetchURL w configURL st with
  | (Err err, st) => (Some ("error fetching config: " +:+ err), st)
  | (Ok configBody, st) =>
  match unmarshalConfig w configBody with
  | Err err => (Some ("error parsing config: " +:+ err), st)
  | Ok config =>
      (None, {| gen := setModelConfig config (gen st); requests := requests st |})
  end end end end end.

(** ** The metadata parser and the parser selector: [ParseModelMetadata] *)

(** The loop over [config["architectures"]]: the strings of the array. *)
Fixpoint archStrings (arch : list value) : list string :=
  match arch with
  | [] => []
  | VString archStr :: rest => archStr :: archStrings rest
  | _ :: rest => archStrings rest
  end.

Definition parseArchitectures (config : gmap string value) (name : string) : list string :=
  let archs :=
    match config !! "architectures" with
    | Some (VArray arch) => archStrings arch
    | _ => []
    end in
  (* Override architectures for specific model families only when none were parsed *)
  if (length archs =? 0)%nat then
    if HasPrefix name "mistral-large-3" then ["MistralLarge3ForCausalLM"]
    else if HasPrefix name "ministral-3" then ["Mistral3ForConditionalGeneration"]
    else archs
  else archs.

(** The loop over [reasoningParserMap], which stops at the first prefix
    the name starts with; [order] is the order of the [range]. *)
Fixpoint selectReasoningParser (m : gmap string string) (order : list string)
    (name : string) (current : string) : string :=
  match order with
  | [] => current
  | prefix :: rest =>
      if HasPrefix name prefix then mapIndex m prefix
      else selectReasoningParser m rest name current
  end.

(** [sort.Strings]: the strings in increasing byte-wise order. *)
Definition sortStrings (l : list string) : list string := merge_sort String.le l.

(** The loop over the sorted prefixes, which overwrites the parser at
    every prefix the name starts with. *)
Definition toolCallLoop (m : gmap string string) (prefixes : list string)
    (name : string) (current : string) : string :=
  fold_left
    (fun current prefix => if HasPrefix name prefix then mapIndex m prefix else current)
    prefixes current.

(** [order] is the order in which [range] yields the keys of the map. *)
Definition selectToolCallParser (m : gmap string string) (order : list string)
    (name : string) (current : string) : string :=
  let prefixes := sortStrings order in
  toolCallLoop m prefixes name current.

Definition ModelTokenLimitKeys : list string :=
  [ "max_position_embeddings"; "n_ctx"; "seq_length"; "max_seq_len";
    "max_sequence_length" ].

Definition ParseModelMetadata (w : World) (g : Generator) : Generator :=
  let maxPos := getInt (ModelConfig g) ModelTokenLimitKeys DefaultModelTokenLimit in
  let meta := Metadata_ (Param g) in
  let archs := parseArchitectures (ModelConfig g) (Name meta) in
  (* set reasoning parser based on model name prefix *)
  let reasoning :=
    selectReasoningParser reasoningParserMap (reasoningOrder w) (Name meta)
      (ReasoningParser meta) in
  (* set ToolCallParser based on model name prefix *)
  let toolCall :=
    selectToolCallParser toolCallParserMap (toolCallOrder w) (Name meta)
      (ToolCallParser meta) in
  setMetadata (withParsed maxPos archs reasoning toolCall) g.

(** ** The storage calculator and [FinalizeParams] *)

Definition calculateStorageSize (g : Generator) : string :=
  storageSizeOf (ModelFileSize (Metadata_ (Param g))).

Definition FinalizeParams (g : Generator) : Generator :=
  let g := setMetadata (withDiskStorageRequirement (calculateStorageSize g)) g in
  (* VLLM Params *)
  let runParams := default ∅ (ModelRunParams (VLLM (Param g))) in
  let runParams := <["load_format" := LoadFormat g]> runParams in
  let runParams := <["config_format" := ConfigFormat g]> runParams in
  let runParams := <["tokenizer_mode" := TokenizerMode g]> runParams in
  let '(bpt, attnType) := calculateKVCacheTokenSize (ModelConfig g) in
  let g := setMetadata (withBytesPerToken bpt) g in
  setParam
    (fun p => {| Metadata_ := Metadata_ p;
                 AttnType := attnType;
                 VLLM := {| ModelName := Name (Metadata_ p);
                            ModelRunParams := Some runParams |} |}) g.

(** ** [Generate] and [GeneratePreset] *)

Definition Generate (w : World) (st : GenState) : result PresetParam * GenState :=
  match FetchModelMetadata w st with
  | (Some err, st) => (Err err, st)
  | (None, st) =>
      let g := ParseModelMetadata w (gen st) in
      let g := FinalizeParams g in
      (Ok (Param g), {| gen := g; requests := requests st |})
  end.

(** [GeneratePreset] is the global function to generate preset param.  It
    returns the preset or the error, and the URLs it requested. *)
Definition GeneratePreset (w : World) (modelRepo token : string)
  : result PresetParam * list string :=
  if String.eqb modelRepo "" then (Err "model repo is required", [])
  else
    let gen := NewGenerator w modelRepo token in
    let '(r, st) := Generate w {| gen := gen; requests := [] |} in
    (r, requests st).

(** ** Notions the properties are stated with *)

(** The head-counting scenario of the specification, and its latent
    attention scenario. *)
Definition gqaConfig : gmap string value :=
  <["hidden_size" := VFloat (F64.of_int 4096)]>
  (<["num_attention_heads" := VFloat (F64.of_int 32)]>
  (<["num_key_value_heads" := VFloat (F64.of_int 8)]>
  (<["num_hidden_layers" := VFloat (F64.of_int 32)]> ∅))).

Definition mlaConfig : gmap string value :=
  <["kv_lora_rank" := VFloat (F64.of_int 512)]>
  (<["qk_rope_head_dim" := VFloat (F64.of_int 64)]>
  (<["num_hidden_layers" := VFloat (F64.of_int 61)]>
  (<["num_attention_heads" := VFloat (F64.of_int 128)]> ∅))).

(** The flag [DownloadAuthRequired] of the preset in the making. *)
Definition authFlag (st : GenState) : bool :=
  DownloadAuthRequired (Metadata_ (Param (gen st))).

(** The case tables of the example worlds.  Every name the examples
    lower is all ASCII, where [strings.ToLower] does not consult the
    tables, so that they stand here as the byte loop. *)
Definition exampleTables : string -> string := lowerASCII.

(** A hub that answers every request with the given status and an empty
    body; no token in the environment. *)
Definition statusWorld (StatusCode : Z) : World :=
  {| HF_TOKEN := "";
     newRequestError := fun _ => None;
     roundTrip := fun _ _ => Response StatusCode (Ok "");
     unmarshalFiles := fun _ => Ok [];
     unmarshalConfig := fun _ => Ok ∅;
     reasoningOrder := reasoningParserTable.*1;
     toolCallOrder := toolCallParserTable.*1;
     unicodeToLower := exampleTables |}.

(** The state [GeneratePreset] starts from. *)
Definition freshState (w : World) (modelRepo token : string) : GenState :=
  {| gen := NewGenerator w modelRepo token; requests := [] |}.

(** C6 as stated: the flag is raised only by a fetch that attached no
    credential. *)
Definition flag_only_without_credential : Prop :=
  forall (w : World) (url : string) (st : GenState),
    authFlag st = false ->
    authFlag (fetchURL w url st).2 = true ->
    getAuthHeader w (gen st) = "".

(** [p] is the last, in the byte-wise order, of the prefixes of
    [prefixes] the name starts with. *)
Definition last_match (name : string) (prefixes : list string) (p : string) : Prop :=
  p ∈ prefixes /\ HasPrefix name p = true /\
  forall q, q ∈ prefixes -> HasPrefix name q = true -> String.le q p.

(** The strings a pattern denotes. *)
Inductive Lang : re -> string -> Prop :=
  | LEps : Lang Eps ""
  | LLit c : Lang (Lit c) (String c "")
  | LDot c : c <> newline -> Lang Dot (String c "")
  | LAnyByte c : Lang AnyByte (String c "")
  | LCat r1 r2 s1 s2 : Lang r1 s1 -> Lang r2 s2 -> Lang (Cat r1 r2) (s1 +:+ s2)
  | LAltL r1 r2 s : Lang r1 s -> Lang (Alt r1 r2) s
  | LAltR r1 r2 s : Lang r2 s -> Lang (Alt r1 r2) s
  | LStarNil r : Lang (Star r) ""
  | LStarCons r s1 s2 : Lang r s1 -> Lang (Star r) s2 -> Lang (Star r) (s1 +:+ s2).

(** No line feed in the string. *)
Fixpoint oneLine (s : string) : bool :=
  match s with
  | "" => true
  | String c s' => negb (Ascii.eqb c newline) && oneLine s'
  end.

(** The three tests of the classifier on a file. *)
Definition isVendor (f : FileInfo) : bool := MatchString mistralRegex (Path f).
Definition isWeight (f : FileInfo) : bool :=
  MatchString safetensorRegex (Path f) || MatchString binRegex (Path f).

(** A tree with a vendor-consolidated file beside the two standard
    formats. *)
Definition mixedVendorTree : list FileInfo :=
  [ {| Path := "model-00001-of-00002.safetensors"; Size := 5 * 2 ^ 30; Type_ := "file" |};
    {| Path := "consolidated.safetensors"; Size := 9 * 2 ^ 30; Type_ := "file" |};
    {| Path := "pytorch_model.bin"; Size := 9 * 2 ^ 30; Type_ := "file" |} ].


(** A tree that ships the same weights as [.safetensors] and as [.bin]
    shards. *)
Definition mixedTree : list FileInfo :=
  [ {| Path := "model-00001-of-00002.safetensors"; Size := 5 * 2 ^ 30; Type_ := "file" |};
    {| Path := "model-00002-of-00002.safetensors"; Size := 4 * 2 ^ 30; Type_ := "file" |};
    {| Path := "model.safetensors.index.json"; Size := 24576; Type_ := "file" |};
    {| Path := "pytorch_model-00001-of-00002.bin"; Size := 5 * 2 ^ 30; Type_ := "file" |};
    {| Path := "pytorch_model-00002-of-00002.bin"; Size := 4 * 2 ^ 30; Type_ := "file" |} ].




(** The mantissa and the exponent of the [float64] that holds a non-zero
    integer of at most 53 bits. *)
Definition mant (n : Z) : positive := Z.to_pos (Z.abs n * 2 ^ (52 - Z.log2 (Z.abs n))).
Definition expo (n : Z) : Z := Z.log2 (Z.abs n) - 52.

(** A non-zero integer the [float64] holds exactly. *)
Definition exactInt (n : Z) : Prop := n <> 0 /\ Z.abs n < 2 ^ 53.

(** The second half of [binary_round_aux]: the rounded mantissa is
    brought back to 53 bits if the rounding carried. *)
Definition round_finish (s : bool) (m e : Z) : spec_float :=
  let '(mrs, e') := shr_fexp F64.prec F64.emax m e loc_Exact in
  match shr_m mrs with
  | Z0 => S754_zero s
  | Z.pos m' => if e' <=? F64.emax - F64.prec then S754_finite s m' e' else S754_infinity s
  | _ => S754_nan
  end.

(** The least integer not below [a / b]. *)
Definition ceilDiv (a b : Z) : Z := - ((- a) / b).

(** The total the [float64] rounds down: [2^53 + 1]. *)
Definition roundedTotal : Z := 2 ^ 53 + 1.

(** C2 as stated: the two sizes for every non-negative [int64] total. *)
Definition sizes_for_every_total : Prop :=
  forall B : Z, 0 <= B <= MaxInt64 ->
    modelFileSizeOf B = string_of_Z (ceilDiv B (2 ^ 30)) +:+ "Gi" /\
    storageSizeOf (modelFileSizeOf B) = string_of_Z (ceilDiv B (2 ^ 30) + 50) +:+ "Gi".

(** The bytes ['0'] to ['9']. *)
Definition isDigit (c : ascii) : bool :=
  let n := N_of_ascii c in ((48 <=? n) && (n <=? 57))%N.

Fixpoint allDigits (s : string) : bool :=
  match s with
  | "" => true
  | String c s' => isDigit c && allDigits s'
  end.

(** One decimal digit or more. *)
Definition isNatural (s : string) : bool := negb (String.eqb s "") && allDigits s.

(** A natural number, or one behind a minus sign. *)
Definition isInteger (s : string) : bool :=
  match s with
  | String "-" s' => isNatural s'
  | _ => isNatural s
  end.

(** The shape ["<integer>Gi"]. *)
Definition isIntegerGi (s : string) : bool :=
  HasSuffix s "Gi" && isInteger (TrimSuffix s "Gi").

(** The same without a sign. *)
Definition isNaturalGi (s : string) : bool :=
  HasSuffix s "Gi" && isNatural (TrimSuffix s "Gi").

(** A hub that serves the given files and configuration document to
    every request. *)
Definition servingWorld (files : list FileInfo) (config : gmap string value) : World :=
  {| HF_TOKEN := "";
     newRequestError := fun _ => None;
     roundTrip := fun _ _ => Response 200 (Ok "");
     unmarshalFiles := fun _ => Ok files;
     unmarshalConfig := fun _ => Ok config;
     reasoningOrder := reasoningParserTable.*1;
     toolCallOrder := toolCallParserTable.*1;
     unicodeToLower := exampleTables |}.

(** A document with a negative latent rank. *)
Definition negativeRankConfig : gmap string value :=
  <["kv_lora_rank" := VFloat (F64.of_int (-2))]>
  (<["num_hidden_layers" := VFloat (F64.of_int 4)]> ∅).

(** C9 as stated, for [BytesPerToken]. *)
Definition bytes_per_token_never_negative : Prop :=
  forall (w : World) (modelRepo token : string) (p : PresetParam) (reqs : list string),
    GeneratePreset w modelRepo token = (Ok p, reqs) ->
    0 <= BytesPerToken (Metadata_ p).

(** ** Notions for the runs as a whole *)

(** No ["/"] in the string. *)
Fixpoint noSlash (s : string) : bool :=
  match s with
  | "" => true
  | String c s' => negb (Ascii.eqb c "/") && noSlash s'
  end.

(** No byte ['A'] to ['Z'] in the string. *)
Fixpoint noUpper (s : string) : bool :=
  match s with
  | "" => true
  | String c s' =>
      negb ((65 <=? N_of_ascii c) && (N_of_ascii c <=? 90))%N && noUpper s'
  end.

(** The generator a successful [FetchModelMetadata] leaves, for the
    detection [d] and the configuration document [config]. *)
Definition fetched (w : World) (modelRepo token : string) (d : Detected)
    (config : gmap string value) : Generator :=
  setModelConfig config
    (setParam (setModelRunParams ∅)
       (setMetadata
          (withModelFileSize (modelFileSizeOf (totalBytes (dSelectedFiles d))))
          (setFormats d (NewGenerator w modelRepo token)))).

(** The hub answers the two requests of a run with status 200 and the
    documents [files] and [config]. *)
Definition served (w : World) (modelRepo token : string)
    (files : list FileInfo) (d : Detected) (config : gmap string value) : Prop :=
  let auth := getAuthHeader w (NewGenerator w modelRepo token) in
  exists body configBody,
    newRequestError w (listingURL modelRepo) = None /\
    roundTrip w (listingURL modelRepo) auth = Response 200 (Ok body) /\
    unmarshalFiles w body = Ok files /\
    detectFormat "auto" "auto" "auto" files = Some d /\
    newRequestError w (configURL modelRepo (dConfigFile d)) = None /\
    roundTrip w (configURL modelRepo (dConfigFile d)) auth = Response 200 (Ok configBody) /\
    unmarshalConfig w configBody = Ok config.

(** The same world with another [HF_TOKEN] in the environment. *)
Definition withEnvToken (token : string) (w : World) : World :=
  {| HF_TOKEN := token;
     newRequestError := newRequestError w;
     roundTrip := roundTrip w;
     unmarshalFiles := unmarshalFiles w;
     unmarshalConfig := unmarshalConfig w;
     reasoningOrder := reasoningOrder w;
     toolCallOrder := toolCallOrder w;
     unicodeToLower := unicodeToLower w |}.

(** The format the classifier settles on for a listing. *)
Definition formatOf (files : list FileInfo) : string :=
  if existsb isVendor files then "mistral" else "auto".

(** Two generators that differ at most in their [Token]. *)
Definition sameButToken (g1 g2 : Generator) : Prop :=
  ModelRepo g1 = ModelRepo g2 /\ Param g1 = Param g2 /\
  LoadFormat g1 = LoadFormat g2 /\ ConfigFormat g1 = ConfigFormat g2 /\
  TokenizerMode g1 = TokenizerMode g2 /\ ModelConfig g1 = ModelConfig g2.

(** Two worlds that differ at most in [HF_TOKEN]. *)
Definition sameHub (w1 w2 : World) : Prop :=
  newRequestError w1 = newRequestError w2 /\ roundTrip w1 = roundTrip w2 /\
  unmarshalFiles w1 = unmarshalFiles w2 /\ unmarshalConfig w1 = unmarshalConfig w2 /\
  reasoningOrder w1 = reasoningOrder w2 /\ toolCallOrder w1 = toolCallOrder w2.

(** The path holds neither [.safetensors] nor [.bin]. *)
Definition noWeightPath (path : string) : Prop :=
  forall a c, path <> a +:+ ".safetensors" +:+ c /\ path <> a +:+ ".bin" +:+ c.

(** A listing without weight files. *)
Definition docsOnlyTree : list FileInfo :=
  [ {| Path := "README.md"; Size := 4096; Type_ := "file" |};
    {| Path := "config.json"; Size := 512; Type_ := "file" |};
    {| Path := "model.gguf"; Size := 4 * 2 ^ 30; Type_ := "file" |} ].

(** The three entries [FinalizeParams] writes, all with the same format. *)
Definition runParamsOf (format : string) : gmap string string :=
  <["tokenizer_mode" := format]>
    (<["config_format" := format]> (<["load_format" := format]> ∅)).

(** The sum of the sizes, as an integer. *)
Definition sumSizes (files : list FileInfo) : Z :=
  fold_right (fun f acc => Size f + acc) 0 files.

(** A configuration document in the style of Falcon: one key/value head
    shared by all attention heads, announced by [multi_query]. *)
Definition falconConfig : gmap string value :=
  <["hidden_size" := VFloat (F64.of_int 4544)]>
  (<["num_attention_heads" := VFloat (F64.of_int 71)]>
  (<["num_hidden_layers" := VFloat (F64.of_int 32)]>
  (<["multi_query" := VBool true]> ∅))).

(** The text of a JSON string, nothing for another value. *)
Definition asString (v : value) : option string :=
  match v with
  | VString s => Some s
  | _ => None
  end.

(** The strings of the array [architectures] of a document; none when
    the entry is absent or is no array. *)
Definition declaredArchitectures (config : gmap string value) : list string :=
  match config !! "architectures" with
  | Some (VArray arch) => omap asString arch
  | _ => []
  end.

(** A document whose [architectures] holds a string among other values. *)
Definition mixedArchConfig : gmap string value :=
  <["architectures" := VArray [VNull; VString "LlamaForCausalLM";
                               VFloat (F64.of_int 3)]]> gqaConfig.

(** ** The command [preset-generator] ([cmd/preset-generator/main.go]) *)

(** What an entry of a [yaml.MapSlice] holds in [main]. *)
#[warnings="-register-all"]
Inductive yamlValue : Type :=
  | YString (s : string)
  | YBool (b : bool)
  | YInt (i : Z)
  | YFloat (x : spec_float)
  | YStrings (l : list string)
  | YMapSlice (items : list (string * yamlValue)).

(** A [yaml.MapSlice]: the entries in the order they are written. *)
Definition MapSlice : Type := list (string * yamlValue).

(** What the process leaves behind: the exit status, what it wrote to the
    two streams, and the URLs it requested. *)
Record Process : Type := {
  exitCode : Z;
  stdout : string;
  stderr : string;
  requested : list string
}.

(** The line feed [fmt.Println] and the [\n] of the formats end with. *)
Definition lineFeed : string := String newline "".

(** The document [main] builds from the preset: [szVal], [vllmParams],
    [vllmSection] and [out].  The generator never assigns
    [VLLM.DisallowLoRA], which keeps Go's zero value. *)
Definition out (param : PresetParam) : MapSlice :=
  (* Use yaml.MapSlice to force exact ordering to match Python output *)
  let szStr := TrimSuffix (ModelFileSize (Metadata_ param)) "Gi" in
  let szVal := default (S754_zero false) (ParseFloat szStr) in
  let runParams := default ∅ (ModelRunParams (VLLM param)) in
  (* Construct MapSlice for VLLM params *)
  let vllmParams :=
    [ ("load_format", YString (mapIndex runParams "load_format"));
      ("config_format", YString (mapIndex runParams "config_format"));
      ("tokenizer_mode", YString (mapIndex runParams "tokenizer_mode")) ] in
  (* Construct MapSlice for VLLM section *)
  let vllmSection :=
    [ ("model_name", YString (ModelName (VLLM param)));
      ("model_run_params", YMapSlice vllmParams);
      ("disallow_lora", YBool false) ] in
  (* Construct the top-level MapSlice *)
  [ ("attn_type", YString (AttnType param));
    ("name", YString (Name (Metadata_ param)));
    ("architectures", YStrings (Architectures (Metadata_ param)));
    ("type", YString (ModelType (Metadata_ param)));
    ("version", YString (Version (Metadata_ param)));
    ("download_at_runtime", YBool (DownloadAtRuntime (Metadata_ param)));
    ("download_auth_required", YBool (DownloadAuthRequired (Metadata_ param)));
    ("disk_storage_requirement", YString (DiskStorageRequirement (Metadata_ param)));
    ("model_file_size_gb", YFloat szVal);
    ("bytes_per_token", YInt (BytesPerToken (Metadata_ param)));
    ("model_token_limit", YInt (ModelTokenLimit (Metadata_ param)));
    ("reasoning_parser", YString (ReasoningParser (Metadata_ param)));
    ("tool_call_parser", YString (ToolCallParser (Metadata_ param)));
    ("vllm", YMapSlice vllmSection) ].

(** [main], after [flag.Parse]: [token] is the value of the flag
    [-token], [args] are the arguments left ([flag.Args()]); [Marshal] is
    [yaml.Marshal]. *)
Definition main (w : World) (Marshal : MapSlice -> result string)
    (token : string) (args : list string) : Process :=
  match args with
  | [] =>
      {| exitCode := 1;
         stdout := "Usage: preset-generator <model_repo>" +:+ lineFeed;
         stderr := ""; requested := [] |}
  | modelRepo :: _ =>
      match GeneratePreset w modelRepo token with
      | (Err err, reqs) =>
          {| exitCode := 1; stdout := "";
             stderr := "Error: " +:+ err +:+ lineFeed; requested := reqs |}
      | (Ok param, reqs) =>
          match Marshal (out param) with
          | Err err =>
              {| exitCode := 1; stdout := "";
                 stderr := "Error marshaling YAML: " +:+ err +:+ lineFeed;
                 requested := reqs |}
          | Ok output =>
              {| exitCode := 0; stdout := output +:+ lineFeed;
                 stderr := ""; requested := reqs |}
          end
      end
  end.

(** The value of the first entry with the given key. *)
Fixpoint entry (key : string) (items : MapSlice) : option yamlValue :=
  match items with
  | [] => None
  | (k, v) :: rest => if String.eqb k key then Some v else entry key rest
  end.

(** A marshaller that prints the top-level keys, one per line. *)
Definition keysMarshal (doc : MapSlice) : result string :=
  Ok (fold_right (fun kv acc => fst kv +:+ ":" +:+ lineFeed +:+ acc) "" doc).

(** ** [strings], as the callers of the generator use it *)

(** [strings.Contains(s, substr)]. *)
Fixpoint Contains (s substr : string) : bool :=
  HasPrefix s substr ||
  match s with
  | "" => false
  | String _ s' => Contains s' substr
  end.

(** The text before the first ["/"] and the text after it. *)
Fixpoint cutSlash (s : string) : option (string * string) :=
  match s with
  | "" => None
  | String c s' =>
      if Ascii.eqb c "/" then Some ("", s')
      else match cutSlash s' with
           | Some (before, after) => Some (String c before, after)
           | None => None
           end
  end.

(** [strings.SplitN(s, "/", 2)]: at most two substrings, the second one
    the unsplit remainder. *)
Definition SplitN2 (s : string) : list string :=
  match cutSlash s with
  | Some (before, after) => [before; after]
  | None => [s]
  end.

(** [strings.Join(elems, sep)]. *)
Fixpoint Join (elems : list string) (sep : string) : string :=
  match elems with
  | [] => ""
  | [e] => e
  | e :: rest => e +:+ sep +:+ Join rest sep
  end.

(** A call returns, or panics with a message. *)
Inductive outcome (A : Type) : Type :=
  | Returns (a : A)
  | Panics (msg : string).
Arguments Returns {A} a.
Arguments Panics {A} msg.

(** ** The model register (package [plugin])

    Every method runs under the lock of the register, so a call is one
    step on the state of the register. *)

Module plugin.

Section ModelRegister.
(** [model.Model]: the register does not look into an instance.  An
    interface value is [None] when it is [nil]. *)
Variable Model : Type.

(** The Go map holds pointers to the registrations; a registration is
    read here as the value it has when it is registered, which is what
    the callers in [vllm_model.go] rely on (they build a registration,
    register it and drop it). *)
Record Registration : Type := {
  Name : string;
  Instance : option Model
}.

(** [models] is [None] while the Go map is [nil]. *)
Record ModelRegister : Type := {
  models : option (gmap string Registration)
}.

(** Reading the map, [nil] or not. *)
Definition entries (reg : ModelRegister) : gmap string Registration :=
  default ∅ (models reg).

(** Register allows model to be added *)
Definition Register (reg : ModelRegister) (r : Registration) : outcome ModelRegister :=
  if String.eqb (Name r) "" then Panics "model name is not specified"
  else
    let m := match models reg with
             | None => ∅
             | Some m => m
             end in
    Returns {| models := Some (<[Name r := r]> m) |}.

Definition MustGet (reg : ModelRegister) (name : string) : option Model :=
  match entries reg !! name with
  | None => None
  | Some r => Instance r
  end.

(** The keys, in the order the [range] over the map yields them (Go
    fixes none). *)
Definition ListModelNames (reg : ModelRegister) : list string :=
  (map_to_list (entries reg)).*1.

Definition Has (reg : ModelRegister) (name : string) : bool :=
  match entries reg !! name with
  | None => false
  | Some _ => true
  end.

(** IsValidPreset returns true if:
    1. the given preset name is registered in the KaitoModelRegister.
    2. the given preset name is a valid huggingface model card ID *)
Definition IsValidPreset (KaitoModelRegister : ModelRegister) (preset : string) : bool :=
  if Has KaitoModelRegister preset then true
  else
    (* if preset is like "a/b", consider it as a valid HF model ID *)
    if Contains preset "/" then
      let parts := SplitN2 preset in
      if (length parts =? 2)%nat
         && negb (String.eqb (nth 0 parts "") "")
         && negb (String.eqb (nth 1 parts "") "")
      then true else false
    else false.

End ModelRegister.

Arguments Name {Model} _.
Arguments Instance {Model} _.
Arguments Build_Registration {Model} _ _.
Arguments models {Model} _.
Arguments Build_ModelRegister {Model} _.
Arguments entries {Model} _.
Arguments Register {Model} _ _.
Arguments MustGet {Model} _ _.
Arguments ListModelNames {Model} _.
Arguments Has {Model} _ _.
Arguments IsValidPreset {Model} _ _.

End plugin.

(** ** The vLLM models (package [models], [vllm_model.go]) *)

(** The implementations of [model.Model]: the one of this file, and the
    ones other packages register. *)
Inductive Model : Type :=
  | vLLMCompatibleModel (model : Metadata)
  | otherModel (id : string).

(** The entries of [builtinVLLMModels], in the order of the source. *)
Definition builtinVLLMTable : list (string * string) :=
  [ ("deepseek-ai/deepseek-r1-distill-llama-8b", "deepseek-r1-distill-llama-8b");
    ("deepseek-ai/deepseek-r1-distill-qwen-14b", "deepseek-r1-distill-qwen-14b");
    ("deepseek-ai/deepseek-r1-0528", "deepseek-r1-0528");
    ("deepseek-ai/deepseek-v3-0324", "deepseek-v3-0324");
    ("tiiuae/falcon-7b", "falcon-7b");
    ("tiiuae/falcon-7b-instruct", "falcon-7b-instruct");
    ("tiiuae/falcon-40b", "falcon-40b");
    ("tiiuae/falcon-40b-instruct", "falcon-40b-instruct");
    ("google/gemma-3-4b-it", "gemma-3-4b-instruct");
    ("google/gemma-3-27b-it", "gemma-3-27b-instruct");
    ("openai/gpt-oss-20b", "gpt-oss-20b");
    ("openai/gpt-oss-120b", "gpt-oss-120b");
    ("meta-llama/llama-3.1-8b-instruct", "llama-3.1-8b-instruct");
    ("meta-llama/llama-3.3-70b-instruct", "llama-3.3-70b-instruct");
    ("mistralai/mistral-7b-v0.3", "mistral-7b");
    ("mistralai/mistral-7b-instruct-v0.3", "mistral-7b-instruct");
    ("mistralai/ministral-3-3b-instruct-2512", "ministral-3-3b-instruct");
    ("mistralai/ministral-3-8b-instruct-2512", "ministral-3-8b-instruct");
    ("mistralai/ministral-3-14b-instruct-2512", "ministral-3-14b-instruct");
    ("mistralai/mistral-large-3-675b-instruct-2512", "mistral-large-3-675b-instruct");
    ("microsoft/phi-3-mini-4k-instruct", "phi-3-mini-4k-instruct");
    ("microsoft/phi-3-mini-128k-instruct", "phi-3-mini-128k-instruct");
    ("microsoft/phi-3-medium-4k-instruct", "phi-3-medium-4k-instruct");
    ("microsoft/phi-3-medium-128k-instruct", "phi-3-medium-128k-instruct");
    ("microsoft/phi-3.5-mini-instruct", "phi-3.5-mini-instruct");
    ("microsoft/phi-4", "phi-4");
    ("microsoft/phi-4-mini-instruct", "phi-4-mini-instruct");
    ("qwen/qwen2.5-coder-7b-instruct", "qwen2.5-coder-7b-instruct");
    ("qwen/qwen2.5-coder-32b-instruct", "qwen2.5-coder-32b-instruct") ].

Definition builtinVLLMModels : gmap string string := list_to_map builtinVLLMTable.

(** [client.Client], as far as this file uses it: [Get] on the secret of
    the given name and namespace gives its [Data], or an error. *)
Record KubeClient : Type := {
  GetSecret : string -> string -> result (gmap string string)
}.

(** [registerModel] registers a HuggingFace model with the given ID and
    parameters into the model registry and returns the registered model.
    If [param] is nil, it returns nil and does not register a model. *)
Definition registerModel (KaitoModelRegister : plugin.ModelRegister Model)
    (hfModelCardID : string) (param : option PresetParam)
  : outcome (option Model * plugin.ModelRegister Model) :=
  match param with
  | None => Returns (None, KaitoModelRegister)
  | Some param =>
      let model := vLLMCompatibleModel (Metadata_ param) in
      let r := {| plugin.Name := hfModelCardID; plugin.Instance := Some model |} in
      match plugin.Register KaitoModelRegister r with
      | Panics msg => Panics msg
      | Returns reg => Returns (Some model, reg)
      end
  end.

(** [GetHFTokenFromSecret] retrieves the HuggingFace token from a
    Kubernetes secret: the token and the error ([None] for [nil]). *)
Definition GetHFTokenFromSecret (kubeClient : option KubeClient)
    (secretName secretNamespace : string) : string * option string :=
  if String.eqb secretName "" then ("", None)
  else
    match kubeClient with
    | None => ("", Some "kubeClient is nil")
    | Some kubeClient =>
        let secretNamespace :=
          if String.eqb secretNamespace "" then "default" else secretNamespace in
        match GetSecret kubeClient secretName secretNamespace with
        | Err err =>
            ("", Some ("failed to get secret: " +:+ secretName +:+ " in namespace: "
                       +:+ secretNamespace +:+ ", error: " +:+ err))
        | Ok data =>
            match data !! "HF_TOKEN" with
            | None =>
                ("", Some ("HF_TOKEN not found in secret: " +:+ secretName
                           +:+ " in namespace: " +:+ secretNamespace))
            | Some tokenBytes => (tokenBytes, None)
            end
        end
    end.

(** What a call of [GetModelByName] comes to: the model and the error it
    returns, the register afterwards, and the URLs requested from the
    hub. *)
Record Lookup : Type := {
  found : result (option Model);
  register : plugin.ModelRegister Model;
  hubRequests : list string
}.

Section Models.
(** [vLLMModelArchMap], which [gen_model_arch_list.sh] generates from the
    list of the architectures vLLM supports. *)
Variable vLLMModelArchMap : gmap string bool.

(** The loop over the architectures of the preset: one of them is a key
    of [vLLMModelArchMap]. *)
Fixpoint anySupported (archs : list string) : bool :=
  match archs with
  | [] => false
  | arch :: rest =>
      match vLLMModelArchMap !! arch with
      | Some _ => true
      | None => anySupported rest
      end
  end.

(** [GetModelByName] returns a vLLM-compatible model for the given
    [modelName].  The log lines are left out. *)
Definition GetModelByName (w : World) (KaitoModelRegister : plugin.ModelRegister Model)
    (modelName secretName secretNamespace : string) (kubeClient : option KubeClient)
  : outcome Lookup :=
  let modelName := ToLower w modelName in
  match plugin.MustGet KaitoModelRegister modelName with
  | Some model =>
      Returns {| found := Ok (Some model); register := KaitoModelRegister;
                 hubRequests := [] |}
  | None =>
      (* if name contains "/", get model data from HuggingFace *)
      if Contains modelName "/" then
        match builtinVLLMModels !! modelName with
        | Some builtinModelName =>
            Returns {| found := Ok (plugin.MustGet KaitoModelRegister builtinModelName);
                       register := KaitoModelRegister; hubRequests := [] |}
        | None =>
            (* only log the error here since token may not be required for
               public models *)
            let '(token, _) := GetHFTokenFromSecret kubeClient secretName secretNamespace in
            match GeneratePreset w modelName token with
            | (Err err, reqs) =>
                Returns {| found := Err err; register := KaitoModelRegister;
                           hubRequests := reqs |}
            | (Ok param, reqs) =>
                let register_and_return :=
                  match registerModel KaitoModelRegister modelName (Some param) with
                  | Panics msg => Panics msg
                  | Returns (model, reg) =>
                      Returns {| found := Ok model; register := reg;
                                 hubRequests := reqs |}
                  end in
                (* check whether the model is in the supported model
                   architecture list *)
                if (length (Architectures (Metadata_ param)) =? 0)%nat
                then register_and_return
                else if anySupported (Architectures (Metadata_ param))
                then register_and_return
                else
                  Returns
                    {| found :=
                         Err ("unsupported model architecture for " +:+ modelName
                              +:+ ": "
                              +:+ Join (Architectures (Metadata_ param)) ", ");
                       register := KaitoModelRegister; hubRequests := reqs |}
            end
        end
      else
        Returns {| found := Err ("model is not registered: " +:+ modelName);
                   register := KaitoModelRegister; hubRequests := [] |}
  end.

End Models.

(** The register before anything is registered. *)
Definition noModels : plugin.ModelRegister Model := {| plugin.models := None |}.

(** A cluster whose secret [hf-secret] of the namespace [default] holds a
    token. *)
Definition secretClient : KubeClient :=
  {| GetSecret := fun name namespace =>
       if String.eqb name "hf-secret" && String.eqb namespace "default"
       then Ok (<["HF_TOKEN" := "hf_secret"]> ∅)
       else Err "secrets not found" |}.

(** A register that holds the built-in preset [phi-4]. *)
Definition phi4Models : plugin.ModelRegister Model :=
  {| plugin.models :=
       Some (<["phi-4" := {| plugin.Name := "phi-4";
                             plugin.Instance := Some (otherModel "phi-4") |}]> ∅) |}.

(** A configuration document that names its architecture. *)
Definition llamaConfig : gmap string value :=
  <["architectures" := VArray [VString "LlamaForCausalLM"]]> gqaConfig.

(** * Properties *)

(** ** 64-bit arithmetic *)

Lemma wrap64_in_range (z : Z) : in_int64 (wrap64 z).
Proof.
  unfold in_int64, wrap64, MinInt64, MaxInt64.
  pose proof (Z.mod_pos_bound (z + 2 ^ 63) (2 ^ 64) eq_refl). lia.
Qed.

Lemma wrap64_exact (z : Z) : in_int64 z -> wrap64 z = z.
Proof.
  unfold in_int64, wrap64, MinInt64, MaxInt64. intros H.
  rewrite Z.mod_small; lia.
Qed.

Lemma int_add_exact (a b : Z) : in_int64 (a + b) -> int_add a b = a + b.
Proof. apply wrap64_exact. Qed.

Lemma int_mul_exact (a b : Z) : in_int64 (a * b) -> int_mul a b = a * b.
Proof. apply wrap64_exact. Qed.

(** ** [getInt] *)

Lemma getInt_cons (config : gmap string value) key keys d :
  getInt config (key :: keys) d =
  match yields config key with
  | Some i => i
  | None => getInt config keys d
  end.
Proof. unfold yields. simpl. destruct (config !! key); reflexivity. Qed.

Lemma getInt_first_yield (config : gmap string value) pre key post d i :
  Forall (fun k => yields config k = None) pre ->
  yields config key = Some i ->
  getInt config (pre ++ key :: post)%list d = i.
Proof.
  intros Hpre Hkey. induction Hpre as [|k pre Hk _ IH].
  - simpl app. rewrite getInt_cons, Hkey. reflexivity.
  - change ((k :: pre) ++ key :: post)%list with (k :: (pre ++ key :: post))%list.
    rewrite getInt_cons, Hk. exact IH.
Qed.

Lemma getInt_no_yield (config : gmap string value) keys d :
  Forall (fun k => yields config k = None) keys ->
  getInt config keys d = d.
Proof.
  induction 1 as [|k keys Hk _ IH]; [reflexivity|].
  rewrite getInt_cons, Hk. exact IH.
Qed.

Lemma getInt_single (config : gmap string value) key d :
  getInt config [key] d = default d (yields config key).
Proof. rewrite getInt_cons. destruct (yields config key); reflexivity. Qed.


(** ** The attention analyzer *)

Ltac kv_unfold config :=
  unfold kvCacheLocals; cbv zeta;
  set (ah := getInt config ["num_attention_heads"; "n_head"; "n_heads"] 0);
  set (kv0 := getInt config ["num_key_value_heads"; "n_head_kv"; "n_kv_heads"] 0);
  set (hd0 := getInt config ["head_dim"] 0);
  set (hs := getInt config ["hidden_size"; "n_embd"; "d_model"] 0);
  set (layers := getInt config ["num_hidden_layers"; "n_layer"; "n_layers"] 0);
  set (rank := getInt config ["kv_lora_rank"] (-1));
  set (rope := getInt config ["qk_rope_head_dim"] 0);
  set (hd := if (hd0 =? 0) && (0 <? ah) then int_quo hs ah else hd0);
  set (kv := if (kv0 =? 0) && (0 <? ah)
             then (if multiQuery config then 1 else ah) else kv0).

Lemma kvCacheLocals_reads (config : gmap string value) :
  let l := kvCacheLocals config in
  hiddenSize l = getInt config ["hidden_size"; "n_embd"; "d_model"] 0 /\
  hiddenLayers l = getInt config ["num_hidden_layers"; "n_layer"; "n_layers"] 0 /\
  attentionHeads l = getInt config ["num_attention_heads"; "n_head"; "n_heads"] 0 /\
  kvLoraRank l = getInt config ["kv_lora_rank"] (-1) /\
  qkRopeHeadDim l = getInt config ["qk_rope_head_dim"] 0.
Proof.
  kv_unfold config.
  destruct (negb (rank =? -1)); [|destruct ((0 <? ah) && (0 <? kv) && (0 <? hd))];
    repeat split; reflexivity.
Qed.

(** The head dimension and the key/value head count after their
    fall-backs (steps 1 and 2 of the decision procedure). *)
Lemma kvCacheLocals_fallbacks (config : gmap string value) :
  let l := kvCacheLocals config in
  let explicitDim := getInt config ["head_dim"] 0 in
  let explicitKV := getInt config ["num_key_value_heads"; "n_head_kv"; "n_kv_heads"] 0 in
  headDim l =
    (if (explicitDim =? 0) && (0 <? attentionHeads l)
     then int_quo (hiddenSize l) (attentionHeads l) else explicitDim) /\
  kvHeads l =
    (if (explicitKV =? 0) && (0 <? attentionHeads l)
     then (if multiQuery config then 1 else attentionHeads l) else explicitKV).
Proof.
  kv_unfold config.
  destruct (negb (rank =? -1)); [|destruct ((0 <? ah) && (0 <? kv) && (0 <? hd))];
    split; reflexivity.
Qed.

(** The three ways out of the analyzer. *)
Lemma kvCacheLocals_cases (config : gmap string value) :
  let l := kvCacheLocals config in
  tokenSize l = int_mul (int_mul (elementsPerToken l) (hiddenLayers l)) 2 /\
  ((kvLoraRank l <> -1 /\ attnType l = "MLA" /\
    elementsPerToken l = int_add (kvLoraRank l) (qkRopeHeadDim l))
   \/
   (kvLoraRank l = -1 /\
    (0 < attentionHeads l /\ 0 < kvHeads l /\ 0 < headDim l) /\
    attnType l = (if attentionHeads l =? kvHeads l then "MHA"
                  else if kvHeads l =? 1 then "MQA" else "GQA") /\
    elementsPerToken l = int_mul (int_mul 2 (kvHeads l)) (headDim l))
   \/
   (kvLoraRank l = -1 /\
    ~ (0 < attentionHeads l /\ 0 < kvHeads l /\ 0 < headDim l) /\
    attnType l = "Unknown" /\ elementsPerToken l = 0)).
Proof.
  kv_unfold config.
  destruct (rank =? -1) eqn:Hrank; simpl negb; cbv iota.
  - apply Z.eqb_eq in Hrank.
    destruct ((0 <? ah) && (0 <? kv) && (0 <? hd)) eqn:Hpos; cbn [tokenSize
      elementsPerToken hiddenLayers kvLoraRank qkRopeHeadDim attnType
      attentionHeads kvHeads headDim].
    + split; [reflexivity|]. right. left.
      apply andb_true_iff in Hpos as [Hpos Hhd].
      apply andb_true_iff in Hpos as [Hah Hkv].
      apply Z.ltb_lt in Hah, Hkv, Hhd.
      split; [exact Hrank|]. split; [auto|]. split; reflexivity.
    + split; [reflexivity|]. right. right.
      split; [exact Hrank|]. split; [|split; reflexivity].
      intros (Hah & Hkv & Hhd).
      apply Z.ltb_lt in Hah, Hkv, Hhd. rewrite Hah, Hkv, Hhd in Hpos. discriminate.
  - apply Z.eqb_neq in Hrank.
    cbn [tokenSize elementsPerToken hiddenLayers kvLoraRank qkRopeHeadDim attnType].
    split; [reflexivity|]. left. split; [exact Hrank|]. split; reflexivity.
Qed.

(** With the values read between 0 and [2^20] nothing overflows: the
    sums and products are the ones of the integers, and the cache size is
    not negative. *)
Lemma kvCacheLocals_exact (config : gmap string value) :
  let l := kvCacheLocals config in
  0 <= hiddenLayers l <= 2 ^ 20 ->
  (kvLoraRank l <> -1 ->
     0 <= kvLoraRank l <= 2 ^ 20 /\ 0 <= qkRopeHeadDim l <= 2 ^ 20) ->
  kvHeads l <= 2 ^ 20 -> headDim l <= 2 ^ 20 ->
  tokenSize l = elementsPerToken l * hiddenLayers l * 2 /\
  0 <= tokenSize l /\
  (kvLoraRank l <> -1 -> elementsPerToken l = kvLoraRank l + qkRopeHeadDim l) /\
  (kvLoraRank l = -1 ->
   0 < attentionHeads l -> 0 < kvHeads l -> 0 < headDim l ->
   elementsPerToken l = 2 * kvHeads l * headDim l).
Proof.
  cbv zeta. intros Hlayers Hmla Hkv Hhd.
  destruct (kvCacheLocals_cases config) as [Hsize Hcases].
  assert (He : 0 <= elementsPerToken (kvCacheLocals config) <= 2 ^ 41 /\
               (kvLoraRank (kvCacheLocals config) <> -1 ->
                elementsPerToken (kvCacheLocals config) =
                kvLoraRank (kvCacheLocals config) + qkRopeHeadDim (kvCacheLocals config)) /\
               (kvLoraRank (kvCacheLocals config) = -1 ->
                0 < attentionHeads (kvCacheLocals config) ->
                0 < kvHeads (kvCacheLocals config) ->
                0 < headDim (kvCacheLocals config) ->
                elementsPerToken (kvCacheLocals config) =
                2 * kvHeads (kvCacheLocals config) * headDim (kvCacheLocals config))).
  { destruct Hcases as [(Hr & _ & ->)|[(Hr & (_ & Hk & Hh) & _ & ->)|(Hr & Hno & _ & ->)]].
    - destruct (Hmla Hr) as [H1 H2].
      rewrite int_add_exact by (unfold in_int64, MinInt64, MaxInt64; lia).
      split; [lia|]. split; [reflexivity|]. intros; contradiction.
    - rewrite (int_mul_exact 2) by (unfold in_int64, MinInt64, MaxInt64; lia).
      rewrite int_mul_exact by (unfold in_int64, MinInt64, MaxInt64; nia).
      split; [nia|]. split; [intros; contradiction|]. reflexivity.
    - split; [lia|]. split; [intros; contradiction|].
      intros _ H1 H2 H3. exfalso. apply Hno. auto. }
  destruct He as (He & Hmlae & Hheade).
  rewrite Hsize.
  rewrite (int_mul_exact (elementsPerToken _)) by (unfold in_int64, MinInt64, MaxInt64; nia).
  rewrite int_mul_exact by (unfold in_int64, MinInt64, MaxInt64; nia).
  split; [reflexivity|]. split; [nia|]. split; assumption.
Qed.

(** C1.  The analyzer follows the decision order of the specification,
    on the values it reads from the configuration document with
    [getInt]: the hidden size, the layer count, the attention heads, the
    key/value heads and the head dimension (these two after their
    fall-backs), the latent rank (with the sentinel -1) and the rope
    dimension (0 when its field is absent).  When the latent rank is not
    the sentinel the type is MLA and the elements per token are
    [kvLoraRank + qkRopeHeadDim], whatever the head counts are;
    otherwise, with positive [attentionHeads], [kvHeads] and [headDim],
    the elements per token are [2 * kvHeads * headDim] and the type is
    MHA when [attentionHeads = kvHeads], else MQA when [kvHeads = 1],
    else GQA; otherwise the type is Unknown with 0 elements; and in every
    case the bytes per token are [elementsPerToken * hiddenLayers * 2].
    The sums and products are the ones of Go's [int]; they are the ones
    of the integers when the values read lie between 0 and [2^20]. *)
Theorem kv_cache_decision_order (config : gmap string value) :
  let hiddenSize := getInt config ["hidden_size"; "n_embd"; "d_model"] 0 in
  let hiddenLayers := getInt config ["num_hidden_layers"; "n_layer"; "n_layers"] 0 in
  let attentionHeads := getInt config ["num_attention_heads"; "n_head"; "n_heads"] 0 in
  let explicitKV := getInt config ["num_key_value_heads"; "n_head_kv"; "n_kv_heads"] 0 in
  let explicitDim := getInt config ["head_dim"] 0 in
  let kvLoraRank := getInt config ["kv_lora_rank"] (-1) in
  let qkRopeHeadDim := getInt config ["qk_rope_head_dim"] 0 in
  let headDim :=
    if (explicitDim =? 0) && (0 <? attentionHeads)
    then int_quo hiddenSize attentionHeads else explicitDim in
  let kvHeads :=
    if (explicitKV =? 0) && (0 <? attentionHeads)
    then (if multiQuery config then 1 else attentionHeads) else explicitKV in
  let bytesPerToken elementsPerToken := int_mul (int_mul elementsPerToken hiddenLayers) 2 in
  (config !! "qk_rope_head_dim" = None -> qkRopeHeadDim = 0) /\
  (multiQuery config = true <-> config !! "multi_query" = Some (VBool true)) /\
  (kvLoraRank <> -1 ->
     calculateKVCacheTokenSize config =
       (bytesPerToken (int_add kvLoraRank qkRopeHeadDim), "MLA")) /\
  (kvLoraRank = -1 -> 0 < attentionHeads -> 0 < kvHeads -> 0 < headDim ->
     calculateKVCacheTokenSize config =
       (bytesPerToken (int_mul (int_mul 2 kvHeads) headDim),
        if decide (attentionHeads = kvHeads) then "MHA"
        else if decide (kvHeads = 1) then "MQA"
        else "GQA")) /\
  (kvLoraRank = -1 -> ~ (0 < attentionHeads /\ 0 < kvHeads /\ 0 < headDim) ->
     calculateKVCacheTokenSize config = (bytesPerToken 0, "Unknown") /\
     bytesPerToken 0 = 0) /\
  (0 <= hiddenLayers <= 2 ^ 20 ->
   (kvLoraRank <> -1 -> 0 <= kvLoraRank <= 2 ^ 20 /\ 0 <= qkRopeHeadDim <= 2 ^ 20) ->
   kvHeads <= 2 ^ 20 -> headDim <= 2 ^ 20 ->
     (kvLoraRank <> -1 ->
        bytesPerToken (int_add kvLoraRank qkRopeHeadDim) =
        (kvLoraRank + qkRopeHeadDim) * hiddenLayers * 2) /\
     (kvLoraRank = -1 -> 0 < kvHeads -> 0 < headDim ->
        bytesPerToken (int_mul (int_mul 2 kvHeads) headDim) =
        2 * kvHeads * headDim * hiddenLayers * 2)).
Proof.
  cbv zeta. unfold calculateKVCacheTokenSize. kv_unfold config.
  split.
  { intros Habs. subst rope. rewrite getInt_single. unfold yields.
    rewrite Habs. reflexivity. }
  split.
  { unfold multiQuery. destruct (config !! "multi_query") as [[| [] | | | | |]|];
      split; congruence. }
  split.
  { intros Hrank. apply Z.eqb_neq in Hrank. rewrite Hrank. reflexivity. }
  split.
  { intros Hrank Hah Hkv Hhd. rewrite Hrank.
    apply Z.ltb_lt in Hah, Hkv, Hhd. rewrite Hah, Hkv, Hhd.
    cbn [negb andb Z.eqb Pos.eqb tokenSize attnType]. f_equal.
    destruct (Z.eqb_spec ah kv) as [Heq|Hne].
    - rewrite decide_True by exact Heq. reflexivity.
    - rewrite decide_False by exact Hne.
      destruct (Z.eqb_spec kv 1) as [H1|H1].
      + rewrite decide_True by exact H1. reflexivity.
      + rewrite decide_False by exact H1. reflexivity. }
  split.
  { intros Hrank Hno. rewrite Hrank.
    assert (Hpos : (0 <? ah) && (0 <? kv) && (0 <? hd) = false).
    { destruct ((0 <? ah) && (0 <? kv) && (0 <? hd)) eqn:E; [|reflexivity].
      exfalso. apply Hno.
      apply andb_true_iff in E as [E Hhd]. apply andb_true_iff in E as [Hah Hkv].
      apply Z.ltb_lt in Hah, Hkv, Hhd. auto. }
    rewrite Hpos. cbn [negb Z.eqb Pos.eqb tokenSize attnType].
    split; reflexivity. }
  intros Hl Hmla Hkv Hhd. split.
  - intros Hrank. destruct (Hmla Hrank) as [H1 H2].
    rewrite int_add_exact by (unfold in_int64, MinInt64, MaxInt64; lia).
    rewrite (int_mul_exact (rank + rope)) by (unfold in_int64, MinInt64, MaxInt64; nia).
    rewrite int_mul_exact by (unfold in_int64, MinInt64, MaxInt64; nia).
    reflexivity.
  - intros _ Hkvpos Hhdpos.
    clearbody kv hd layers. clear - Hl Hkv Hhd Hkvpos Hhdpos.
    assert (He : 0 < kv * hd <= 2 ^ 40) by nia.
    rewrite (int_mul_exact 2) by (unfold in_int64, MinInt64, MaxInt64; lia).
    rewrite (int_mul_exact (2 * kv)) by (unfold in_int64, MinInt64, MaxInt64; nia).
    replace (2 * kv * hd) with (2 * (kv * hd)) by lia.
    set (e := kv * hd) in *.
    rewrite (int_mul_exact (2 * e)) by (unfold in_int64, MinInt64, MaxInt64; nia).
    rewrite int_mul_exact by (unfold in_int64, MinInt64, MaxInt64; nia).
    reflexivity.
Qed.

Lemma kv_cache_decision_order_witness :
  calculateKVCacheTokenSize mlaConfig = (70272, "MLA") /\
  calculateKVCacheTokenSize gqaConfig = (131072, "GQA").
Proof.
  split.
  - destruct (kv_cache_decision_order mlaConfig) as (_ & _ & Hmla & _).
    rewrite Hmla; [reflexivity|vm_compute; discriminate].
  - destruct (kv_cache_decision_order gqaConfig) as (_ & _ & _ & Hhead & _).
    rewrite Hhead; [reflexivity|reflexivity ..].
Defined.



(** ** Coercions of [getInt] *)

(** The mantissa with its sign. *)
Lemma floor_mag_nonneg_exp (m : positive) (e : Z) :
  0 <= e -> F64.floor_mag m e = Z.pos m * 2 ^ e.
Proof. intros He. unfold F64.floor_mag. apply Z.shiftl_mul_pow2. exact He. Qed.

Lemma floor_mag_neg_exp (m : positive) (e : Z) :
  e < 0 -> F64.floor_mag m e = Z.pos m / 2 ^ (- e).
Proof.
  intros He. unfold F64.floor_mag.
  rewrite <- (Z.opp_involutive e) at 1. rewrite Z.shiftl_opp_r.
  apply Z.shiftr_div_pow2. lia.
Qed.

(** [int(v)] truncates: the quotient of the mantissa by the power of two
    of a negative exponent is rounded towards zero. *)
Lemma to_int_truncates (s : bool) (m : positive) (e : Z) :
  let signed := if s then Z.neg m else Z.pos m in
  let t := Z.quot (signed * 2 ^ Z.max e 0) (2 ^ Z.max (- e) 0) in
  in_int64 t ->
  F64.to_int (S754_finite s m e) = t.
Proof.
  cbv zeta. intros Hr.
  assert (Ht : (if s then - F64.floor_mag m e else F64.floor_mag m e) =
               Z.quot ((if s then Z.neg m else Z.pos m) * 2 ^ Z.max e 0)
                      (2 ^ Z.max (- e) 0)).
  { destruct (Z.le_gt_cases 0 e) as [He|He].
    - rewrite floor_mag_nonneg_exp by exact He.
      rewrite Z.max_l, Z.max_r by lia. rewrite Z.pow_0_r, Z.quot_1_r.
      destruct s; [change (Z.neg m) with (- Z.pos m)|]; lia.
    - rewrite floor_mag_neg_exp by exact He.
      rewrite Z.max_r, Z.max_l by lia. rewrite Z.pow_0_r, Z.mul_1_r.
      assert (0 < 2 ^ (- e)) by (apply Z.pow_pos_nonneg; lia).
      destruct s.
      + change (Z.neg m) with (- Z.pos m).
        rewrite Z.quot_opp_l by lia. rewrite Z.quot_div_nonneg by lia. reflexivity.
      + rewrite Z.quot_div_nonneg by lia. reflexivity. }
  unfold F64.to_int. rewrite Ht.
  destruct Hr as [Hlo Hhi].
  apply Z.leb_le in Hlo, Hhi. rewrite Hlo, Hhi. reflexivity.
Qed.

Lemma string_of_uint_nonempty (d : uint) :
  d <> Nil -> NilEmpty.string_of_uint d <> "".
Proof. destruct d; simpl; congruence. Qed.

Lemma string_of_uint_no_sign (d : uint) (c : ascii) (s : string) :
  NilEmpty.string_of_uint d = String c s -> c <> "-"%char /\ c <> "+"%char.
Proof. destruct d; simpl; intros [= <- _]; split; discriminate. Qed.

Lemma parse_digits_string_of_uint (d : uint) :
  d <> Nil ->
  parse_digits (NilEmpty.string_of_uint d) = Some (Z.of_N (N.of_uint d)).
Proof.
  intros Hd. unfold parse_digits.
  destruct (NilEmpty.string_of_uint d) eqn:Hs.
  - exfalso. eapply string_of_uint_nonempty; eassumption.
  - rewrite <- Hs, NilEmpty.usu. reflexivity.
Qed.

Lemma parse_signed_unsigned (d : uint) :
  d <> Nil ->
  parse_signed (NilEmpty.string_of_uint d) = Some (false, Z.of_N (N.of_uint d)).
Proof.
  intros Hd. pose proof (parse_digits_string_of_uint d Hd) as Hp.
  unfold parse_signed.
  destruct (NilEmpty.string_of_uint d) as [|c s] eqn:Hs.
  - rewrite Hp. reflexivity.
  - destruct (string_of_uint_no_sign _ _ _ Hs) as [Hm Hpl].
    destruct (Ascii.eqb_spec c "-"); [contradiction|].
    destruct (Ascii.eqb_spec c "+"); [contradiction|].
    destruct c as [[] [] [] [] [] [] [] []]; try (rewrite Hp; reflexivity); congruence.
Qed.

(** Parsing what [%d] prints. *)
Lemma parse_signed_string_of_Z (n : Z) :
  parse_signed (string_of_Z n) = Some (n <? 0, Z.abs n).
Proof.
  unfold string_of_Z. destruct n as [|p|p]; [reflexivity| |].
  - simpl Z.to_int. unfold NilZero.string_of_int, NilZero.string_of_uint.
    pose proof (DecimalPos.Unsigned.to_uint_nonnil p) as Hnn.
    destruct (Pos.to_uint p) eqn:Hu; try contradiction;
      rewrite <- Hu; rewrite parse_signed_unsigned by (rewrite Hu; discriminate);
      unfold N.of_uint; rewrite DecimalPos.Unsigned.of_to; reflexivity.
  - simpl Z.to_int. unfold NilZero.string_of_int, NilZero.string_of_uint.
    pose proof (DecimalPos.Unsigned.to_uint_nonnil p) as Hnn.
    destruct (Pos.to_uint p) eqn:Hu; try contradiction;
      rewrite <- Hu; unfold parse_signed;
      rewrite parse_digits_string_of_uint by (rewrite Hu; discriminate);
      unfold N.of_uint; rewrite DecimalPos.Unsigned.of_to; reflexivity.
Qed.

Lemma Atoi_string_of_Z (n : Z) : in_int64 n -> Atoi (string_of_Z n) = Some n.
Proof.
  intros [Hlo Hhi]. unfold Atoi. rewrite parse_signed_string_of_Z.
  assert (Hv : (if n <? 0 then - Z.abs n else Z.abs n) = n).
  { destruct (Z.ltb_spec n 0); lia. }
  rewrite Hv. apply Z.leb_le in Hlo, Hhi. rewrite Hlo, Hhi. reflexivity.
Qed.

(** C7.  The integer accessor returns what the first candidate key that
    yields a value yields: the entry of the key coerced to an integer, a
    [float64] truncated, an [int] as it is, a numeric string parsed (an
    absent key and an entry that does not coerce yield nothing).  It
    returns the default when no candidate key yields a value.
    [ModelTokenLimit] is read through the chain [max_position_embeddings],
    [n_ctx], [seq_length], [max_seq_len], [max_sequence_length] with
    default 2048. *)
Theorem getInt_first_coerced_value
    (config : gmap string value) (keys : list string) (defaultVal : Z) :
  (forall pre key post i,
     keys = (pre ++ key :: post)%list ->
     Forall (fun k => yields config k = None) pre ->
     yields config key = Some i ->
     getInt config keys defaultVal = i) /\
  (Forall (fun k => yields config k = None) keys ->
     getInt config keys defaultVal = defaultVal) /\
  (forall key, config !! key = None -> yields config key = None) /\
  (forall key v, config !! key = Some (VFloat v) ->
     yields config key = Some (F64.to_int v)) /\
  (forall key v, config !! key = Some (VInt v) -> yields config key = Some v) /\
  (forall key v, config !! key = Some (VString v) -> yields config key = Atoi v) /\
  (forall key val, config !! key = Some val -> coerceInt val = None ->
     yields config key = None) /\
  (forall (s : bool) (m : positive) (e : Z),
     let signed := if s then Z.neg m else Z.pos m in
     let t := Z.quot (signed * 2 ^ Z.max e 0) (2 ^ Z.max (- e) 0) in
     in_int64 t -> F64.to_int (S754_finite s m e) = t) /\
  (forall n, in_int64 n -> Atoi (string_of_Z n) = Some n) /\
  (forall w g,
     ModelConfig g = config ->
     ModelTokenLimit (Metadata_ (Param (ParseModelMetadata w g))) =
     getInt config
       [ "max_position_embeddings"; "n_ctx"; "seq_length"; "max_seq_len";
         "max_sequence_length" ] 2048).
Proof.
  split; [|split; [|split; [|split; [|split; [|split; [|split; [|split; [|split]]]]]]]].
  - intros pre key post i -> Hpre Hkey. apply getInt_first_yield; assumption.
  - apply getInt_no_yield.
  - intros key H. unfold yields. rewrite H. reflexivity.
  - intros key v H. unfold yields. rewrite H. reflexivity.
  - intros key v H. unfold yields. rewrite H. reflexivity.
  - intros key v H. unfold yields. rewrite H. reflexivity.
  - intros key val H Hco. unfold yields. rewrite H. exact Hco.
  - apply to_int_truncates.
  - apply Atoi_string_of_Z.
  - intros w g <-. reflexivity.
Qed.

Lemma getInt_first_coerced_value_witness :
  let config : gmap string value :=
    <["max_position_embeddings" := VBool true]>
    (<["seq_length" := VString "4096"]>
    (<["max_seq_len" := VInt 1024]> ∅)) in
  getInt config ModelTokenLimitKeys 2048 = 4096 /\
  getInt config ["hidden_size"; "n_embd"] 7 = 7 /\
  F64.to_int (S754_finite true 7 (-1)) = -3 /\
  Atoi (string_of_Z (-42)) = Some (-42).
Proof.
  cbv zeta.
  match goal with |- getInt ?c _ _ = _ /\ _ =>
    destruct (getInt_first_coerced_value c ModelTokenLimitKeys 2048)
      as (Hfirst & _ & _ & _ & _ & _ & _ & Htrunc & Hatoi & _);
    destruct (getInt_first_coerced_value c ["hidden_size"; "n_embd"] 7)
      as (_ & Hdef & _)
  end.
  split; [|split; [|split]].
  - apply (Hfirst ["max_position_embeddings"; "n_ctx"] "seq_length"
                  ["max_seq_len"; "max_sequence_length"]).
    + reflexivity.
    + repeat constructor.
    + reflexivity.
  - apply Hdef. repeat constructor.
  - apply (Htrunc true 7%positive (-1)). vm_compute. split; discriminate.
  - apply Hatoi. vm_compute. split; discriminate.
Defined.

(** ** [GeneratePreset] *)

(** Every request that goes out is recorded, in order. *)
Lemma fetchURL_requests (w : World) (url : string) (st : GenState) :
  requests (fetchURL w url st).2 =
  (requests st ++
   match newRequestError w url with Some _ => [] | None => [url] end)%list.
Proof.
  unfold fetchURL.
  destruct (newRequestError w url); [symmetry; apply app_nil_r|].
  destruct (roundTrip w url (getAuthHeader w (gen st))) as [err|sc body];
    [reflexivity|].
  cbn [gen requests].
  destruct (isAuthStatus sc); cbn [andb].
  - destruct (String.eqb (getAuthHeader w (gen st)) "");
      [|destruct (negb (sc =? 200))]; reflexivity.
  - destruct (negb (sc =? 200)); reflexivity.
Qed.

Lemma FetchModelMetadata_requests (w : World) (st : GenState) :
  exists more,
    requests (FetchModelMetadata w st).2 =
    ((requests st ++
      match newRequestError w (listingURL (ModelRepo (gen st))) with
      | Some _ => []
      | None => [listingURL (ModelRepo (gen st))]
      end) ++ more)%list.
Proof.
  unfold FetchModelMetadata.
  pose proof (fetchURL_requests w (listingURL (ModelRepo (gen st))) st) as Hfirst.
  destruct (fetchURL w (listingURL (ModelRepo (gen st))) st) as [[body|err] st1];
    cbn [snd] in Hfirst; [|exists []; rewrite app_nil_r; exact Hfirst].
  destruct (unmarshalFiles w body) as [files|err];
    [|exists []; rewrite app_nil_r; exact Hfirst].
  destruct (detectFormat _ _ _ files) as [d|];
    [|exists []; rewrite app_nil_r; exact Hfirst].
  match goal with |- context [fetchURL w ?u ?s] =>
    pose proof (fetchURL_requests w u s) as Hsecond;
    destruct (fetchURL w u s) as [[configBody|err] st2]
  end; cbn [snd requests] in Hsecond.
  - destruct (unmarshalConfig w configBody); cbn [snd requests];
      rewrite Hsecond, Hfirst; eexists; reflexivity.
  - cbn [snd]. rewrite Hsecond, Hfirst. eexists. reflexivity.
Qed.

(** C8.  With an empty model repository [GeneratePreset] returns an
    error and no preset, whatever the token, and requests nothing from
    the network; with any other repository whose listing URL is a valid
    request, the listing is the first thing it requests. *)
Theorem GeneratePreset_empty_repo (w : World) (token : string) :
  GeneratePreset w "" token = (Err "model repo is required", []) /\
  (forall modelRepo,
     modelRepo <> "" ->
     newRequestError w (listingURL modelRepo) = None ->
     exists more,
       (GeneratePreset w modelRepo token).2 = listingURL modelRepo :: more).
Proof.
  split; [reflexivity|].
  intros modelRepo Hne Hreq. unfold GeneratePreset.
  apply String.eqb_neq in Hne. rewrite Hne.
  destruct (FetchModelMetadata_requests w (freshState w modelRepo token)) as [more Hmore].
  unfold freshState in Hmore. cbn [gen requests ModelRepo NewGenerator] in Hmore.
  rewrite Hreq in Hmore. exists more.
  unfold Generate.
  destruct (FetchModelMetadata w _) as [[err|] st']; cbn [snd] in Hmore |- *;
    cbn [requests]; exact Hmore.
Qed.

Lemma GeneratePreset_empty_repo_witness :
  GeneratePreset (statusWorld 404) "" "hf_secret" = (Err "model repo is required", []) /\
  (GeneratePreset (statusWorld 404) "org/model" "hf_secret").2 =
    ["https://huggingface.co/api/models/org/model/tree/main?recursive=true"].
Proof.
  destruct (GeneratePreset_empty_repo (statusWorld 404) "hf_secret") as [Hempty Hfirst].
  split; [exact Hempty|].
  destruct (Hfirst "org/model") as [more Hmore]; [discriminate|reflexivity|].
  rewrite Hmore. vm_compute in Hmore. injection Hmore as <-. reflexivity.
Defined.

(** ** The metadata fetcher *)

(** The flag is raised by a 401 or 403 response and by nothing else. *)
Lemma fetchURL_flag (w : World) (url : string) (st : GenState) :
  authFlag (fetchURL w url st).2 =
  authFlag st ||
  match newRequestError w url, roundTrip w url (getAuthHeader w (gen st)) with
  | None, Response StatusCode _ => isAuthStatus StatusCode
  | _, _ => false
  end.
Proof.
  unfold fetchURL, authFlag.
  destruct (newRequestError w url); simpl; [rewrite orb_false_r; reflexivity|].
  destruct (roundTrip w url (getAuthHeader w (gen st))) as [err|sc body]; simpl;
    [rewrite orb_false_r; reflexivity|].
  destruct (isAuthStatus sc); simpl.
  - rewrite orb_true_r.
    destruct (String.eqb (getAuthHeader w (gen st)) "");
      [|destruct (negb (sc =? 200))]; reflexivity.
  - rewrite orb_false_r. destruct (negb (sc =? 200)); reflexivity.
Qed.

(** C6, amended.  A 401 or 403 response sets [DownloadAuthRequired]
    whether or not the request carried a credential, and no other outcome
    changes the generator.  On 401 or 403 without a credential the fetch
    fails with the authentication-required error; with a credential it
    fails with the status-coded error; on every other status but 200 it
    fails with the status-coded error, which names the URL, and leaves
    the flag as it was. *)
Theorem fetchURL_status_handling
    (w : World) (url : string) (st : GenState) (StatusCode : Z) (Body : result string) :
  newRequestError w url = None ->
  roundTrip w url (getAuthHeader w (gen st)) = Response StatusCode Body ->
  let auth := getAuthHeader w (gen st) in
  let r := (fetchURL w url st).1 in
  let st' := (fetchURL w url st).2 in
  let statusError :=
    Err ("failed to fetch " +:+ url +:+ ": status " +:+ string_of_Z StatusCode) in
  (authFlag st' = authFlag st || isAuthStatus StatusCode) /\
  (isAuthStatus StatusCode = true -> auth = "" ->
     r = Err ("authentication required for accessing " +:+ url)) /\
  (isAuthStatus StatusCode = true -> auth <> "" -> r = statusError) /\
  (isAuthStatus StatusCode = false -> StatusCode <> 200 ->
     r = statusError /\ gen st' = gen st) /\
  (StatusCode = 200 -> r = Body /\ gen st' = gen st).
Proof.
  intros Hreq Hresp. cbv zeta.
  split.
  { rewrite fetchURL_flag, Hreq, Hresp. reflexivity. }
  unfold fetchURL. rewrite Hreq. cbn [gen requests]. rewrite Hresp.
  destruct (isAuthStatus StatusCode) eqn:Hauth; cbn [andb].
  - split; [|split; [|split]].
    + intros _ ->. reflexivity.
    + intros _ Hne. apply String.eqb_neq in Hne. rewrite Hne.
      assert (H200 : (StatusCode =? 200) = false).
      { unfold isAuthStatus in Hauth. apply Z.eqb_neq. intros ->. discriminate. }
      rewrite H200. reflexivity.
    + discriminate.
    + intros ->. discriminate.
  - split; [discriminate|]. split; [discriminate|]. split.
    + intros _ Hne. apply Z.eqb_neq in Hne. rewrite Hne. split; reflexivity.
    + intros ->. split; reflexivity.
Qed.

Lemma fetchURL_status_handling_witness :
  let st := freshState (statusWorld 403) "org/model" "hf_secret" in
  let url := "https://huggingface.co/org/model/resolve/main/config.json" in
  authFlag (fetchURL (statusWorld 403) url st).2 = true /\
  (fetchURL (statusWorld 403) url st).1 =
    Err "failed to fetch https://huggingface.co/org/model/resolve/main/config.json: status 403".
Proof.
  cbv zeta.
  destruct (fetchURL_status_handling (statusWorld 403)
              "https://huggingface.co/org/model/resolve/main/config.json"
              (freshState (statusWorld 403) "org/model" "hf_secret") 403 (Ok "")
              eq_refl eq_refl)
    as (Hflag & _ & Htoken & _).
  split.
  - rewrite Hflag. reflexivity.
  - rewrite Htoken; [reflexivity | reflexivity | discriminate].
Defined.

(** C6 as stated fails: a request that carries the token "hf_secret"
    and is answered with 401 raises the flag. *)
Lemma flag_raised_with_credential : ~ flag_only_without_credential.
Proof.
  intros H.
  specialize (H (statusWorld 401)
                "https://huggingface.co/api/models/org/model/tree/main?recursive=true"
                (freshState (statusWorld 401) "org/model" "hf_secret") eq_refl eq_refl).
  discriminate H.
Qed.

(** ** The parser selector *)

Section ToolCallSelection.
Variable m : gmap string string.
Variable name : string.

Lemma toolCallLoop_cons prefix prefixes current :
  toolCallLoop m (prefix :: prefixes) name current =
  toolCallLoop m prefixes name
    (if HasPrefix name prefix then mapIndex m prefix else current).
Proof. reflexivity. Qed.

Lemma toolCallLoop_no_match prefixes current :
  (forall q, q ∈ prefixes -> ~ HasPrefix name q = true) ->
  toolCallLoop m prefixes name current = current.
Proof.
  revert current. induction prefixes as [|x l IH]; intros current Hno;
    [reflexivity|].
  rewrite toolCallLoop_cons.
  destruct (HasPrefix name x) eqn:Hx.
  - exfalso. apply (Hno x); [left|exact Hx].
  - apply IH. intros q Hq. apply Hno. right. exact Hq.
Qed.

Lemma toolCallLoop_sorted prefixes p current :
  StronglySorted String.le prefixes ->
  last_match name prefixes p ->
  toolCallLoop m prefixes name current = mapIndex m p.
Proof.
  intros Hsorted. revert current.
  induction Hsorted as [|x l Hl IH Hx]; intros current (Hin & Hp & Hmax).
  - inversion Hin.
  - rewrite toolCallLoop_cons.
    destruct (decide (p ∈ l)) as [Hpl|Hpl].
    + apply IH. split; [exact Hpl|]. split; [exact Hp|].
      intros q Hq. apply Hmax. right. exact Hq.
    + apply elem_of_cons in Hin as [->|Hin]; [|contradiction].
      rewrite Hp.
      apply toolCallLoop_no_match.
      intros q Hq Hmq.
      assert (q = x) as ->; [|contradiction].
      apply (anti_symm String.le).
      * apply Hmax; [right; exact Hq | exact Hmq].
      * rewrite Forall_forall in Hx. apply Hx. exact Hq.
Qed.

(** Among finitely many prefixes, one of which matches, there is a
    last one. *)
Lemma last_match_exists prefixes :
  (exists q, q ∈ prefixes /\ HasPrefix name q = true) ->
  exists p, last_match name prefixes p.
Proof.
  induction prefixes as [|x l IH]; intros (q & Hq & Hmq); [inversion Hq|].
  destruct (decide (Exists (fun r => HasPrefix name r = true) l)) as [Hl|Hl];
    rewrite Exists_exists in Hl.
  - destruct (IH Hl) as (p & Hpin & Hp & Hmax).
    destruct (decide (HasPrefix name x = true /\ ~ String.le x p)) as [[Hx Hgt]|Hx].
    + exists x. split; [left|]. split; [exact Hx|].
      intros r Hr Hmr. apply elem_of_cons in Hr as [->|Hr]; [reflexivity|].
      etrans; [apply Hmax; assumption|].
      destruct (total String.le p x); [assumption|contradiction].
    + exists p. split; [right; exact Hpin|]. split; [exact Hp|].
      intros r Hr Hmr. apply elem_of_cons in Hr as [->|Hr].
      * destruct (decide (String.le x p)); [assumption|].
        exfalso. apply Hx. split; assumption.
      * apply Hmax; assumption.
  - exists x. apply elem_of_cons in Hq as [->|Hq].
    + split; [left|]. split; [exact Hmq|].
      intros r Hr Hmr. apply elem_of_cons in Hr as [->|Hr]; [reflexivity|].
      exfalso. apply Hl. exists r. split; assumption.
    + exfalso. apply Hl. exists q. split; assumption.
Qed.

Lemma last_match_sortStrings order p :
  last_match name order p -> last_match name (sortStrings order) p.
Proof.
  unfold last_match, sortStrings.
  intros (Hin & Hp & Hmax). split; [|split; [exact Hp|]].
  - rewrite merge_sort_Permutation. exact Hin.
  - intros q Hq. apply Hmax. rewrite merge_sort_Permutation in Hq. exact Hq.
Qed.

Lemma selectToolCallParser_last_match order p current :
  last_match name order p ->
  selectToolCallParser m order name current = mapIndex m p.
Proof.
  intros Hp. unfold selectToolCallParser.
  apply toolCallLoop_sorted.
  - apply StronglySorted_merge_sort; apply _.
  - apply last_match_sortStrings. exact Hp.
Qed.

Lemma selectToolCallParser_no_match order current :
  (forall q, q ∈ order -> ~ HasPrefix name q = true) ->
  selectToolCallParser m order name current = current.
Proof.
  intros Hno. unfold selectToolCallParser. apply toolCallLoop_no_match.
  intros q Hq. apply Hno. unfold sortStrings in Hq.
  rewrite merge_sort_Permutation in Hq. exact Hq.
Qed.
End ToolCallSelection.

(** C5.  Whatever order the [range] over [toolCallParserMap] yields its
    keys in, the selection sorts them and keeps overwriting the result, so
    the value returned is the one of the last matching prefix in sorted
    order (and there is such a prefix as soon as two, or one, match); the
    parser is left as it was when no prefix matches.  The name
    "qwen3-coder-30b-a3b-instruct" resolves to the [qwen3-coder] entry,
    not to the [qwen3] entry. *)
Theorem toolCallParser_last_sorted_match (order : list string) (name current : string) :
  order ≡ₚ toolCallParserTable.*1 ->
  (forall p, last_match name order p ->
     selectToolCallParser toolCallParserMap order name current =
     mapIndex toolCallParserMap p) /\
  (forall p1 p2, p1 ∈ order -> p2 ∈ order -> p1 <> p2 ->
     HasPrefix name p1 = true -> HasPrefix name p2 = true ->
     exists p, last_match name order p /\
       selectToolCallParser toolCallParserMap order name current =
       mapIndex toolCallParserMap p) /\
  ((forall q, q ∈ order -> HasPrefix name q = false) ->
     selectToolCallParser toolCallParserMap order name current = current) /\
  (forall w g,
     toolCallOrder w = order -> Name (Metadata_ (Param g)) = name ->
     ToolCallParser (Metadata_ (Param g)) = current ->
     ToolCallParser (Metadata_ (Param (ParseModelMetadata w g))) =
     selectToolCallParser toolCallParserMap order name current) /\
  HasPrefix "qwen3-coder-30b-a3b-instruct" "qwen3" = true /\
  HasPrefix "qwen3-coder-30b-a3b-instruct" "qwen3-coder" = true /\
  selectToolCallParser toolCallParserMap order "qwen3-coder-30b-a3b-instruct" current
    = "qwen3_xml" /\
  mapIndex toolCallParserMap "qwen3-coder" = "qwen3_xml" /\
  mapIndex toolCallParserMap "qwen3" = "hermes".
Proof.
  intros Hperm.
  split; [|split; [|split; [|split; [|split; [|split; [|split; [|split]]]]]]];
    try reflexivity.
  - intros p Hp. apply selectToolCallParser_last_match. exact Hp.
  - intros p1 p2 Hp1 _ _ Hm1 _.
    destruct (last_match_exists name order) as (p & Hp).
    { exists p1. split; assumption. }
    exists p. split; [exact Hp|].
    apply selectToolCallParser_last_match. exact Hp.
  - intros Hno. apply selectToolCallParser_no_match.
    intros q Hq Hm. rewrite (Hno q Hq) in Hm. discriminate.
  - intros w g <- <- <-. reflexivity.
  - rewrite (selectToolCallParser_last_match _ _ order "qwen3-coder"); [reflexivity|].
    split; [|split].
    + rewrite Hperm. apply (bool_decide_unpack _). vm_compute. exact I.
    + reflexivity.
    + assert (HF : Forall (fun q => HasPrefix "qwen3-coder-30b-a3b-instruct" q = true ->
                                    String.le q "qwen3-coder")
                          (toolCallParserTable.*1))
        by (apply (bool_decide_unpack _); vm_compute; exact I).
      rewrite Forall_forall in HF. intros q Hq. apply HF. rewrite <- Hperm. exact Hq.
Qed.

Lemma toolCallParser_last_sorted_match_witness :
  selectToolCallParser toolCallParserMap (toolCallParserTable.*1) "deepseek-v3.1" ""
    = "deepseek_v31" /\
  selectToolCallParser toolCallParserMap (toolCallParserTable.*1)
    "qwen3-coder-30b-a3b-instruct" "" = "qwen3_xml".
Proof.
  destruct (toolCallParser_last_sorted_match (toolCallParserTable.*1)
              "deepseek-v3.1" "" (Permutation_refl _))
    as (Hlast & _ & _ & _ & _ & _ & Hqwen & _).
  split; [|exact Hqwen].
  rewrite (Hlast "deepseek-v3.1"); [reflexivity|].
  split; [|split].
  - apply (bool_decide_unpack _). vm_compute. exact I.
  - reflexivity.
  - assert (HF : Forall (fun q => HasPrefix "deepseek-v3.1" q = true ->
                                  String.le q "deepseek-v3.1")
                        (toolCallParserTable.*1))
      by (apply (bool_decide_unpack _); vm_compute; exact I).
    rewrite Forall_forall in HF. exact HF.
Defined.

(** ** Strings *)

Lemma append_cons (c : ascii) (s1 s2 : string) :
  String c s1 +:+ s2 = String c (s1 +:+ s2).
Proof. reflexivity. Qed.

Lemma append_nil_l (s : string) : "" +:+ s = s.
Proof. reflexivity. Qed.


Lemma append_assoc (s1 s2 s3 : string) : (s1 +:+ s2) +:+ s3 = s1 +:+ (s2 +:+ s3).
Proof.
  induction s1 as [|c s1 IH]; [reflexivity|]. rewrite !append_cons, IH. reflexivity.
Qed.

Lemma append_eq_nil (s1 s2 : string) : s1 +:+ s2 = "" -> s1 = "" /\ s2 = "".
Proof. destruct s1; [intros H; split; [reflexivity|exact H]|discriminate]. Qed.

Lemma length_append (s1 s2 : string) :
  String.length (s1 +:+ s2) = (String.length s1 + String.length s2)%nat.
Proof.
  induction s1 as [|c s1 IH]; [reflexivity|]. rewrite append_cons. simpl. rewrite IH.
  reflexivity.
Qed.

Lemma substring_full (s : string) : substring 0 (String.length s) s = s.
Proof. induction s as [|c s IH]; [reflexivity|]. simpl. rewrite IH. reflexivity. Qed.

Lemma substring_append_r (s1 s2 : string) :
  substring (String.length s1) (String.length s2) (s1 +:+ s2) = s2.
Proof.
  induction s1 as [|c s1 IH].
  - apply substring_full.
  - rewrite append_cons. simpl. exact IH.
Qed.

Lemma substring_append_l (s1 s2 : string) :
  substring 0 (String.length s1) (s1 +:+ s2) = s1.
Proof.
  induction s1 as [|c s1 IH].
  - destruct s2; reflexivity.
  - rewrite append_cons. simpl. rewrite IH. reflexivity.
Qed.

Lemma substring_split (n : nat) (s : string) :
  (n <= String.length s)%nat ->
  s = substring 0 n s +:+ substring n (String.length s - n) s.
Proof.
  revert s. induction n as [|n IH]; intros s Hn.
  - rewrite Nat.sub_0_r, substring_full. destruct s; reflexivity.
  - destruct s as [|c s]; [simpl in Hn; lia|].
    simpl in Hn. simpl. rewrite append_cons. f_equal. apply IH. lia.
Qed.

(** A string has a suffix when it ends with it. *)
Lemma HasSuffix_spec (s suffix : string) :
  HasSuffix s suffix = true <-> exists a, s = a +:+ suffix.
Proof.
  unfold HasSuffix. split.
  - intros H. apply andb_true_iff in H as [Hlen Heq].
    apply Nat.leb_le in Hlen. apply String.eqb_eq in Heq.
    exists (substring 0 (String.length s - String.length suffix) s).
    etrans; [apply (substring_split (String.length s - String.length suffix)); lia|].
    f_equal.
    replace (String.length s - (String.length s - String.length suffix))%nat
      with (String.length suffix) by lia.
    exact Heq.
  - intros [a ->]. rewrite length_append.
    apply andb_true_iff. split; [apply Nat.leb_le; lia|].
    replace (String.length a + String.length suffix - String.length suffix)%nat
      with (String.length a) by lia.
    rewrite substring_append_r. apply String.eqb_refl.
Qed.

Lemma TrimSuffix_append (a suffix : string) : TrimSuffix (a +:+ suffix) suffix = a.
Proof.
  unfold TrimSuffix.
  assert (H : HasSuffix (a +:+ suffix) suffix = true)
    by (apply HasSuffix_spec; eexists; reflexivity).
  rewrite H, length_append.
  replace (String.length a + String.length suffix - String.length suffix)%nat
    with (String.length a) by lia.
  apply substring_append_l.
Qed.

(** ** Patterns *)

Lemma nullable_Lang (r : re) : nullable r = true <-> Lang r "".
Proof.
  split.
  - induction r; simpl; intros H; try discriminate.
    + constructor.
    + apply andb_true_iff in H as [H1 H2].
      apply (LCat _ _ "" ""); auto.
    + apply orb_true_iff in H as [H|H]; [apply LAltL|apply LAltR]; auto.
    + constructor.
  - intros H. remember "" as s eqn:Hs.
    induction H; simpl; try discriminate; try reflexivity.
    + apply append_eq_nil in Hs as [-> ->]. rewrite IHLang1, IHLang2; reflexivity.
    + rewrite IHLang by exact Hs. reflexivity.
    + rewrite IHLang by exact Hs. apply orb_true_r.
Qed.

Lemma deriv_sound (r : re) (c : ascii) (s : string) :
  Lang (deriv c r) s -> Lang r (String c s).
Proof.
  revert s. induction r as [| |c'| | |r1 IH1 r2 IH2|r1 IH1 r2 IH2|r1 IH1];
    simpl; intros s H.
  - inversion H.
  - inversion H.
  - destruct (Ascii.eqb_spec c c') as [->|]; inversion H; subst. constructor.
  - destruct (Ascii.eqb_spec c newline) as [|Hne]; inversion H; subst.
    constructor. exact Hne.
  - inversion H; subst. constructor.
  - assert (Hcat : forall t, Lang (Cat (deriv c r1) r2) t -> Lang (Cat r1 r2) (String c t)).
    { intros t Ht. inversion Ht; subst. rewrite <- append_cons.
      constructor; [apply IH1|]; assumption. }
    destruct (nullable r1) eqn:Hn.
    + inversion H; subst; [apply Hcat; assumption|].
      rewrite <- (append_nil_l (String c s)).
      constructor; [apply nullable_Lang; exact Hn|apply IH2; assumption].
    + apply Hcat. exact H.
  - inversion H; subst; [apply LAltL; apply IH1|apply LAltR; apply IH2]; assumption.
  - inversion H; subst. rewrite <- append_cons.
    apply LStarCons; [apply IH1|]; assumption.
Qed.

Lemma deriv_complete (r : re) (c : ascii) (s : string) :
  Lang r (String c s) -> Lang (deriv c r) s.
Proof.
  intros H. remember (String c s) as t eqn:Ht. revert c s Ht.
  induction H as [|c0|c0 Hne|c0|r1 r2 s1 s2 H1 IH1 H2 IH2|r1 r2 t H IH|r1 r2 t H IH
                  |r|r s1 s2 H1 IH1 H2 IH2]; intros c s Ht; simpl.
  - discriminate.
  - injection Ht as -> <-. rewrite Ascii.eqb_refl. constructor.
  - injection Ht as -> <-. apply Ascii.eqb_neq in Hne. rewrite Hne. constructor.
  - injection Ht as _ <-. constructor.
  - destruct s1 as [|c1 s1].
    + rewrite append_nil_l in Ht.
      apply nullable_Lang in H1. rewrite H1. apply LAltR. apply IH2. exact Ht.
    + rewrite append_cons in Ht. injection Ht as -> <-.
      assert (Hc : Lang (Cat (deriv c r1) r2) (s1 +:+ s2))
        by (constructor; [apply IH1; reflexivity|exact H2]).
      destruct (nullable r1); [apply LAltL|]; exact Hc.
  - apply LAltL. apply IH. exact Ht.
  - apply LAltR. apply IH. exact Ht.
  - discriminate.
  - destruct s1 as [|c1 s1].
    + rewrite append_nil_l in Ht. apply (IH2 c s Ht).
    + rewrite append_cons in Ht. injection Ht as -> <-.
      constructor; [apply IH1; reflexivity|exact H2].
Qed.

(** The matcher decides the denotation. *)
Lemma matches_Lang (r : re) (s : string) : matches r s = true <-> Lang r s.
Proof.
  revert r. induction s as [|c s IH]; intros r; simpl.
  - apply nullable_Lang.
  - rewrite IH. split; [apply deriv_sound|apply deriv_complete].
Qed.

Lemma Lang_literal (l s : string) : Lang (literal l) s <-> s = l.
Proof.
  revert s. induction l as [|c l IH]; intros s; simpl.
  - split; [intros H; inversion H; reflexivity|intros ->; constructor].
  - split.
    + intros H. inversion H as [| | | |? ? s1 s2 H1 H2| | | |]; subst.
      inversion H1; subst. apply IH in H2 as ->. reflexivity.
    + intros ->. change (String c l) with (String c "" +:+ l).
      constructor; [constructor|apply IH; reflexivity].
Qed.

Lemma Lang_star_any (s : string) : Lang (Star AnyByte) s.
Proof.
  induction s as [|c s IH]; [constructor|].
  change (String c s) with (String c "" +:+ s).
  apply LStarCons; [constructor|exact IH].
Qed.

Lemma Lang_star_dot (s : string) : Lang (Star Dot) s <-> oneLine s = true.
Proof.
  split.
  - intros H. remember (Star Dot) as r eqn:Hr.
    induction H; try discriminate; [reflexivity|].
    injection Hr as ->. inversion H as [| |c0 Hne| | | | | |]; subst.
    rewrite append_cons, append_nil_l. simpl.
    apply Ascii.eqb_neq in Hne. rewrite Hne. simpl. apply IHLang2. reflexivity.
  - induction s as [|c s IH]; simpl; intros H; [constructor|].
    apply andb_true_iff in H as [Hc Hs].
    change (String c s) with (String c "" +:+ s).
    apply LStarCons; [|apply IH; exact Hs].
    constructor. apply Ascii.eqb_neq. destruct (Ascii.eqb c newline); [discriminate|reflexivity].
Qed.

(** [MatchString] looks for the pattern anywhere in the string. *)
Lemma MatchString_spec (r : re) (s : string) :
  MatchString r s = true <-> exists a b c, s = a +:+ b +:+ c /\ Lang r b.
Proof.
  unfold MatchString. rewrite matches_Lang. split.
  - intros H. inversion H as [| | | |? ? a bc Ha Hbc| | | |]; subst.
    inversion Hbc as [| | | |? ? b c Hb Hc| | | |]; subst.
    exists a, b, c. split; [reflexivity|exact Hb].
  - intros (a & b & c & -> & Hb).
    constructor; [apply Lang_star_any|].
    constructor; [exact Hb|apply Lang_star_any].
Qed.

(** [.*\.safetensors]: the path contains [.safetensors]. *)
Lemma safetensorRegex_spec (path : string) :
  MatchString safetensorRegex path = true <->
  exists a c, path = a +:+ ".safetensors" +:+ c.
Proof.
  rewrite MatchString_spec. unfold safetensorRegex. split.
  - intros (a & b & c & -> & Hb).
    inversion Hb as [| | | |? ? b1 b2 H1 H2| | | |]; subst.
    apply (Lang_literal ".safetensors") in H2 as ->.
    exists (a +:+ b1), c. rewrite !append_assoc. reflexivity.
  - intros (a & c & ->). exists a, ".safetensors", c. split; [reflexivity|].
    rewrite <- (append_nil_l ".safetensors").
    constructor; [constructor|apply (Lang_literal _); reflexivity].
Qed.

(** [.*\.bin]: the path contains [.bin]. *)
Lemma binRegex_spec (path : string) :
  MatchString binRegex path = true <-> exists a c, path = a +:+ ".bin" +:+ c.
Proof.
  rewrite MatchString_spec. unfold binRegex. split.
  - intros (a & b & c & -> & Hb).
    inversion Hb as [| | | |? ? b1 b2 H1 H2| | | |]; subst.
    apply (Lang_literal ".bin") in H2 as ->.
    exists (a +:+ b1), c. rewrite !append_assoc. reflexivity.
  - intros (a & c & ->). exists a, ".bin", c. split; [reflexivity|].
    rewrite <- (append_nil_l ".bin").
    constructor; [constructor|apply (Lang_literal _); reflexivity].
Qed.

(** [consolidated.*\.safetensors]: the path contains [consolidated] and,
    later on the same line, [.safetensors]. *)
Lemma mistralRegex_spec (path : string) :
  MatchString mistralRegex path = true <->
  exists a b c,
    path = a +:+ "consolidated" +:+ b +:+ ".safetensors" +:+ c /\ oneLine b = true.
Proof.
  rewrite MatchString_spec. unfold mistralRegex. split.
  - intros (a & m & c & -> & Hm).
    inversion Hm as [| | | |? ? m1 m2 H1 H2| | | |]; subst.
    apply (Lang_literal "consolidated") in H1 as ->.
    inversion H2 as [| | | |? ? b m3 Hb H3| | | |]; subst.
    apply (Lang_literal ".safetensors") in H3 as ->. apply Lang_star_dot in Hb.
    exists a, b, c. split; [|exact Hb]. rewrite !append_assoc. reflexivity.
  - intros (a & b & c & -> & Hb).
    exists a, ("consolidated" +:+ b +:+ ".safetensors"), c.
    split; [rewrite !append_assoc; reflexivity|].
    constructor; [apply Lang_literal; reflexivity|].
    constructor; [apply Lang_star_dot; exact Hb|apply Lang_literal; reflexivity].
Qed.


(** ** The format classifier *)


Lemma filterFiles_from (files selected vendor : list FileInfo) :
  fold_left filterStep files (selected, vendor)
  = ((selected ++ List.filter isWeight files)%list,
     (vendor ++ List.filter isVendor files)%list).
Proof.
  revert selected vendor. induction files as [|f files IH]; intros selected vendor.
  - simpl. rewrite !app_nil_r. reflexivity.
  - change (fold_left filterStep (f :: files) (selected, vendor))
      with (fold_left filterStep files (filterStep (selected, vendor) f)).
    assert (Hstep : filterStep (selected, vendor) f =
                    (if isWeight f then (selected ++ [f])%list else selected,
                     if isVendor f then (vendor ++ [f])%list else vendor))
      by reflexivity.
    rewrite Hstep, IH. simpl List.filter.
    destruct (isWeight f), (isVendor f); rewrite <- ?app_assoc; reflexivity.
Qed.

Lemma filterFiles_spec (files : list FileInfo) :
  filterFiles files = (List.filter isWeight files, List.filter isVendor files).
Proof. unfold filterFiles. rewrite filterFiles_from. reflexivity. Qed.



Lemma filter_nonempty {A : Type} (p : A -> bool) (l : list A) (x : A) :
  x ∈ l -> p x = true -> (0 <? length (List.filter p l))%nat = true.
Proof.
  intros Hin Hp. apply Nat.ltb_lt.
  assert (Hx : In x (List.filter p l)).
  { apply filter_In. split; [apply list_elem_of_In; exact Hin|exact Hp]. }
  destruct (List.filter p l); [inversion Hx|simpl; lia].
Qed.

Lemma filter_empty {A : Type} (p : A -> bool) (l : list A) :
  (forall x, x ∈ l -> p x = false) -> List.filter p l = [].
Proof.
  induction l as [|x l IH]; intros H; [reflexivity|]. simpl.
  rewrite (H x) by left. apply IH. intros y Hy. apply H. right. exact Hy.
Qed.



(** A fetch changes nothing of the generator but the flag. *)
Lemma fetchURL_gen (w : World) (url : string) (st : GenState) :
  gen (fetchURL w url st).2 = gen st \/
  gen (fetchURL w url st).2 = setMetadata (withDownloadAuthRequired true) (gen st).
Proof.
  unfold fetchURL.
  destruct (newRequestError w url); [left; reflexivity|].
  destruct (roundTrip w url (getAuthHeader w (gen st))) as [err|sc body];
    [left; reflexivity|].
  cbn [gen requests].
  destruct (isAuthStatus sc); cbn [andb].
  - right. destruct (String.eqb (getAuthHeader w (gen st)) "");
      [|destruct (negb (sc =? 200))]; reflexivity.
  - left. destruct (negb (sc =? 200)); reflexivity.
Qed.


(** *** The segments of a path *)

Lemma SplitSlash_noSlash (s : string) : noSlash s = true -> SplitSlash s = [s].
Proof.
  induction s as [|c s IH]; [reflexivity|]. simpl.
  destruct (Ascii.eqb c "/"); [discriminate|]. simpl. intros H.
  rewrite (IH H). reflexivity.
Qed.

Lemma SplitSlash_nonempty (s : string) : SplitSlash s <> [].
Proof.
  destruct s as [|c s]; [discriminate|]. simpl.
  destruct (Ascii.eqb c "/"); [discriminate|].
  destruct (SplitSlash s); discriminate.
Qed.

Lemma last_cons_nonempty {A : Type} (x : A) (l : list A) (d : A) :
  l <> [] -> List.last (x :: l) d = List.last l d.
Proof. destruct l; [contradiction|reflexivity]. Qed.

Lemma SplitSlash_single (s h : string) : SplitSlash s = [h] -> noSlash s = true.
Proof.
  revert h. induction s as [|c s IH]; intros h; [reflexivity|].
  cbn [SplitSlash noSlash].
  destruct (Ascii.eqb c "/").
  - intros [= _ Hnil]. exfalso. exact (SplitSlash_nonempty s Hnil).
  - destruct (SplitSlash s) as [|h0 t0] eqn:E;
      [exfalso; exact (SplitSlash_nonempty s E)|].
    intros [= _ ->]. simpl. apply (IH h0). reflexivity.
Qed.

Lemma last_SplitSlash_cons (c : ascii) (s : string) :
  List.last (SplitSlash (String c s)) "" =
  if Ascii.eqb c "/" then List.last (SplitSlash s) ""
  else if noSlash s then String c s
  else List.last (SplitSlash s) "".
Proof.
  cbn [SplitSlash]. destruct (Ascii.eqb c "/").
  - apply last_cons_nonempty, SplitSlash_nonempty.
  - destruct (noSlash s) eqn:Hs.
    + rewrite (SplitSlash_noSlash s Hs). reflexivity.
    + destruct (SplitSlash s) as [|h t] eqn:Hsplit.
      * exfalso. exact (SplitSlash_nonempty s Hsplit).
      * destruct t as [|h' t]; [|reflexivity].
        rewrite (SplitSlash_single s h Hsplit) in Hs. discriminate.
Qed.

Lemma noSlash_path (dir base : string) : noSlash (dir +:+ "/" +:+ base) = false.
Proof.
  induction dir as [|d dir IH]; [reflexivity|].
  simpl. rewrite IH. apply andb_false_r.
Qed.

Lemma last_SplitSlash_path (dir base : string) :
  noSlash base = true ->
  List.last (SplitSlash (dir +:+ "/" +:+ base)) "" = base.
Proof.
  intros Hb. induction dir as [|c dir IH].
  - change ("" +:+ "/" +:+ base) with (String "/" base).
    rewrite last_SplitSlash_cons. cbn [Ascii.eqb]. simpl.
    rewrite (SplitSlash_noSlash base Hb). reflexivity.
  - change (String c dir +:+ "/" +:+ base) with (String c (dir +:+ "/" +:+ base)).
    rewrite last_SplitSlash_cons, IH.
    destruct (Ascii.eqb c "/"); [reflexivity|].
    rewrite noSlash_path. reflexivity.
Qed.

Lemma noSlash_last_SplitSlash (s : string) :
  noSlash (List.last (SplitSlash s) "") = true.
Proof.
  induction s as [|c s IH]; [reflexivity|].
  rewrite last_SplitSlash_cons.
  destruct (Ascii.eqb c "/") eqn:Hc; [exact IH|].
  destruct (noSlash s) eqn:Hs; [|exact IH].
  simpl. rewrite Hc, Hs. reflexivity.
Qed.












(** ** [float64] arithmetic on integers it represents exactly *)

Lemma digits2_pos_size (p : positive) : digits2_pos p = Pos.size p.
Proof. induction p as [p IH|p IH|]; simpl; rewrite ?IH; reflexivity. Qed.

Lemma Zdigits2_log2 (m : Z) : 0 < m -> Zdigits2 m = Z.log2 m + 1.
Proof.
  destruct m as [|p|p]; try lia. intros _. simpl Zdigits2.
  rewrite digits2_pos_size. destruct p as [p|p|]; simpl; lia.
Qed.

Lemma shr_1_double (m : Z) :
  0 < m ->
  shr_1 {| shr_m := 2 * m; shr_r := false; shr_s := false |}
  = {| shr_m := m; shr_r := false; shr_s := false |}.
Proof. destruct m; try lia. reflexivity. Qed.

Lemma pow2_xO (n : positive) : 2 ^ Z.pos n~0 = 2 ^ Z.pos n * 2 ^ Z.pos n.
Proof.
  replace (Z.pos n~0) with (Z.pos n + Z.pos n) by lia.
  apply Z.pow_add_r; lia.
Qed.

Lemma pow2_xI (n : positive) : 2 ^ Z.pos n~1 = 2 * (2 ^ Z.pos n * 2 ^ Z.pos n).
Proof.
  replace (Z.pos n~1) with (1 + (Z.pos n + Z.pos n)) by lia.
  rewrite Z.pow_add_r by lia. rewrite Z.pow_add_r by lia. reflexivity.
Qed.

Lemma iter_shr_1_exact (n : positive) (m : Z) :
  0 < m ->
  SpecFloat.iter_pos shr_1 n {| shr_m := m * 2 ^ Z.pos n; shr_r := false; shr_s := false |}
  = {| shr_m := m; shr_r := false; shr_s := false |}.
Proof.
  revert m. induction n as [n IH|n IH|]; intros m Hm.
  - assert (0 < 2 ^ Z.pos n) by (apply Z.pow_pos_nonneg; lia).
    cbn [SpecFloat.iter_pos]. rewrite pow2_xI.
    replace (m * (2 * (2 ^ Z.pos n * 2 ^ Z.pos n)))
      with (2 * ((m * 2 ^ Z.pos n) * 2 ^ Z.pos n)) by ring.
    rewrite shr_1_double by nia. rewrite IH by nia. apply IH. exact Hm.
  - assert (0 < 2 ^ Z.pos n) by (apply Z.pow_pos_nonneg; lia).
    cbn [SpecFloat.iter_pos]. rewrite pow2_xO, Z.mul_assoc.
    rewrite IH by nia. apply IH. exact Hm.
  - cbn [SpecFloat.iter_pos]. rewrite Z.pow_1_r, Z.mul_comm. apply shr_1_double. exact Hm.
Qed.

(** A mantissa of 53 bits followed by [t] zero bits rounds to itself. *)
Lemma binary_round_aux_exact (s : bool) (M t e : Z) :
  0 < M -> Z.log2 M = 52 -> 0 <= t -> -1074 <= e + t <= 971 ->
  binary_round_aux F64.prec F64.emax s (M * 2 ^ t) e loc_Exact
  = S754_finite s (Z.to_pos M) (e + t).
Proof.
  intros HM Hlog Ht He.
  assert (Hpow : 0 < 2 ^ t) by (apply Z.pow_pos_nonneg; lia).
  unfold binary_round_aux, shr_fexp.
  rewrite Zdigits2_log2 by nia. rewrite Z.log2_mul_pow2 by lia. rewrite Hlog.
  replace (fexp F64.prec F64.emax (t + 52 + 1 + e) - e) with t
    by (unfold fexp, emin, F64.prec, F64.emax; lia).
  cbn [shr_record_of_loc].
  assert (Hshr : shr {| shr_m := M * 2 ^ t; shr_r := false; shr_s := false |} e t
                 = ({| shr_m := M; shr_r := false; shr_s := false |}, e + t)).
  { destruct t as [|pt|pt]; [| |lia].
    - rewrite Z.pow_0_r, Z.mul_1_r, Z.add_0_r. reflexivity.
    - cbn [shr]. rewrite iter_shr_1_exact by exact HM. reflexivity. }
  rewrite Hshr. cbn [shr_m loc_of_shr_record round_nearest_even].
  rewrite Zdigits2_log2 by exact HM. rewrite Hlog.
  replace (fexp F64.prec F64.emax (52 + 1 + (e + t)) - (e + t)) with 0
    by (unfold fexp, emin, F64.prec, F64.emax; lia).
  cbn [shr shr_m shr_record_of_loc].
  destruct M as [|pM|pM]; try lia.
  replace (e + t <=? F64.emax - F64.prec) with true
    by (symmetry; apply Z.leb_le; unfold F64.emax, F64.prec; lia).
  reflexivity.
Qed.

Lemma iter_xO_pow2 (p k : positive) : Z.pos (Pos.iter xO p k) = Z.pos p * 2 ^ Z.pos k.
Proof.
  revert p. induction k as [|k IH] using Pos.peano_ind; intros p.
  - simpl. lia.
  - rewrite Pos.iter_succ, Pos2Z.inj_succ, Z.pow_succ_r by lia.
    rewrite Pos2Z.inj_xO, IH. ring.
Qed.

Lemma exactInt_log2 (n : Z) : exactInt n -> 0 <= Z.log2 (Z.abs n) <= 52.
Proof.
  intros [Hn Hlt]. split; [apply Z.log2_nonneg|].
  assert (Z.log2 (Z.abs n) < 53); [|lia].
  apply Z.log2_lt_pow2; lia.
Qed.

Lemma mant_spec (n : Z) :
  exactInt n ->
  Z.pos (mant n) = Z.abs n * 2 ^ (52 - Z.log2 (Z.abs n)) /\
  Z.log2 (Z.pos (mant n)) = 52.
Proof.
  intros Hn. pose proof (exactInt_log2 n Hn) as Hl. destruct Hn as [Hn Hlt].
  assert (Hpow : 0 < 2 ^ (52 - Z.log2 (Z.abs n))) by (apply Z.pow_pos_nonneg; lia).
  assert (Hm : Z.pos (mant n) = Z.abs n * 2 ^ (52 - Z.log2 (Z.abs n))).
  { unfold mant. rewrite Z2Pos.id by nia. reflexivity. }
  split; [exact Hm|]. rewrite Hm, Z.log2_mul_pow2 by lia. lia.
Qed.

(** Rounding a multiple [n * 2^j] of an exactly representable integer,
    taken with the exponent [-j], gives the [float64] of [n]. *)
Lemma binary_normalize_scaled (n j : Z) (szero : bool) :
  exactInt n -> 0 <= j ->
  binary_normalize F64.prec F64.emax (n * 2 ^ j) (- j) szero
  = S754_finite (n <? 0) (mant n) (expo n).
Proof.
  intros Hn Hj.
  pose proof (exactInt_log2 n Hn) as Hl.
  destruct (mant_spec n Hn) as [Hm Hlog].
  destruct Hn as [Hn0 Hlt].
  assert (Hpj : 0 < 2 ^ j) by (apply Z.pow_pos_nonneg; lia).
  set (l := Z.log2 (Z.abs n)) in *.
  assert (Habs : exists p, Z.pos p = Z.abs n * 2 ^ j /\
                 binary_normalize F64.prec F64.emax (n * 2 ^ j) (- j) szero
                 = binary_round F64.prec F64.emax (n <? 0) p (- j)).
  { destruct (n * 2 ^ j) as [|p|p] eqn:Hp; [nia| |].
    - exists p. split; [nia|]. replace (n <? 0) with false; [reflexivity|].
      symmetry. apply Z.ltb_ge. nia.
    - exists p. split; [nia|]. replace (n <? 0) with true; [reflexivity|].
      symmetry. apply Z.ltb_lt. nia. }
  destruct Habs as (p & Hp & ->).
  unfold binary_round.
  assert (Hdig : Z.pos (digits2_pos p) = l + j + 1).
  { change (Z.pos (digits2_pos p)) with (Zdigits2 (Z.pos p)).
    rewrite Zdigits2_log2 by lia. rewrite Hp, Z.log2_mul_pow2 by lia. fold l. lia. }
  rewrite Hdig.
  replace (fexp F64.prec F64.emax (l + j + 1 + - j)) with (l - 52)
    by (unfold fexp, emin, F64.prec, F64.emax; lia).
  unfold shl_align.
  destruct (l - 52 - - j) as [|d|d] eqn:Hd.
  - replace (Z.pos p) with (Z.pos (mant n) * 2 ^ 0).
    + rewrite binary_round_aux_exact by
        (try exact Hlog; unfold expo; fold l; lia).
      rewrite Pos2Z.id. f_equal. unfold expo. fold l. lia.
    + rewrite Hm, Hp. replace j with (52 - l) by lia. ring.
  - replace (Z.pos p) with (Z.pos (mant n) * 2 ^ Z.pos d).
    + rewrite binary_round_aux_exact by
        (try exact Hlog; unfold expo; fold l; lia).
      rewrite Pos2Z.id. f_equal. unfold expo. fold l. lia.
    + rewrite Hm, Hp, <- Z.mul_assoc, <- Z.pow_add_r by lia.
      f_equal. f_equal. lia.
  - replace (Z.pos (Pos.iter xO p d)) with (Z.pos (mant n) * 2 ^ 0).
    + rewrite binary_round_aux_exact by
        (try exact Hlog; unfold expo; fold l; lia).
      rewrite Pos2Z.id. f_equal. unfold expo. fold l. lia.
    + rewrite iter_xO_pow2, Hm, Hp, Z.pow_0_r, Z.mul_1_r, <- Z.mul_assoc,
        <- Z.pow_add_r by lia.
      f_equal. f_equal. lia.
Qed.

Lemma of_int_exact (n : Z) :
  exactInt n -> F64.of_int n = S754_finite (n <? 0) (mant n) (expo n).
Proof.
  intros Hn. unfold F64.of_int.
  rewrite <- (binary_normalize_scaled n 0 false Hn) by lia.
  rewrite Z.pow_0_r, Z.mul_1_r. reflexivity.
Qed.

Lemma of_int_GiB : F64.of_int (1024 * 1024 * 1024) = S754_finite false 4503599627370496 (-22).
Proof. reflexivity. Qed.

(** Dividing a normal number by [2^30] lowers its exponent by 30. *)
Lemma div_GiB (s : bool) (M : positive) (E : Z) :
  Z.log2 (Z.pos M) = 52 -> -1000 <= E <= 1000 ->
  F64.div (S754_finite s M E) (F64.of_int (1024 * 1024 * 1024))
  = S754_finite s M (E - 30).
Proof.
  intros Hlog HE. rewrite of_int_GiB. unfold F64.div, SFdiv, SFdiv_core_binary.
  rewrite (Zdigits2_log2 (Z.pos M)) by lia. rewrite Hlog.
  change (Zdigits2 4503599627370496) with 53.
  replace (Z.min (fexp F64.prec F64.emax (52 + 1 + E - (53 + -22))) (E - -22))
    with (E - 31) by (unfold fexp, emin, F64.prec, F64.emax; lia).
  replace (E - -22 - (E - 31)) with 53 by lia.
  cbv iota. rewrite Z.shiftl_mul_pow2 by lia.
  assert (Hdiv : Z.div_eucl (Z.pos M * 2 ^ 53) 4503599627370496 = (Z.pos M * 2 ^ 1, 0)).
  { assert (Hde : forall a b, Z.div_eucl a b = (a / b, a mod b)).
    { intros a b. unfold Z.div, Z.modulo. destruct (Z.div_eucl a b). reflexivity. }
    rewrite Hde.
    replace (Z.pos M * 2 ^ 53) with (Z.pos M * 2 ^ 1 * 4503599627370496)
      by (change (2 ^ 53) with (2 ^ 1 * 4503599627370496); ring).
    rewrite Z.div_mul, Z.mod_mul by lia. reflexivity. }
  rewrite Hdiv. change (new_location 4503599627370496 0) with loc_Exact.
  rewrite (binary_round_aux_exact (xorb s false) (Z.pos M) 1 (E - 31)); [|lia|exact Hlog|lia|lia].
  rewrite Pos2Z.id, xorb_false_r. f_equal. lia.
Qed.

Lemma binary_round_aux_unfold (s : bool) (m e : Z) (l : location) :
  binary_round_aux F64.prec F64.emax s m e l =
  let r := shr_fexp F64.prec F64.emax m e l in
  round_finish s (round_nearest_even (shr_m (fst r)) (loc_of_shr_record (fst r))) (snd r).
Proof.
  unfold binary_round_aux, round_finish. cbv zeta.
  destruct (shr_fexp F64.prec F64.emax m e l) as [mrs e']. reflexivity.
Qed.

Lemma shr_m_shr_1 (mrs : shr_record) :
  0 <= shr_m mrs -> shr_m (shr_1 mrs) = shr_m mrs / 2.
Proof.
  destruct mrs as [m r s]. cbn [shr_m]. intros Hm.
  destruct m as [|[p|p|]|p]; try lia; cbn [shr_1 shr_m].
  - reflexivity.
  - apply Z.div_unique with 1; lia.
  - apply Z.div_unique with 0; lia.
  - reflexivity.
Qed.

Lemma shr_m_iter (n : positive) (mrs : shr_record) :
  0 <= shr_m mrs ->
  shr_m (SpecFloat.iter_pos shr_1 n mrs) = shr_m mrs / 2 ^ Z.pos n.
Proof.
  revert mrs. induction n as [n IH|n IH|]; intros mrs Hm.
  - assert (0 < 2 ^ Z.pos n) by (apply Z.pow_pos_nonneg; lia).
    cbn [SpecFloat.iter_pos].
    assert (H1 : 0 <= shr_m (shr_1 mrs))
      by (rewrite shr_m_shr_1 by exact Hm; apply Z.div_pos; lia).
    assert (H2 : 0 <= shr_m (SpecFloat.iter_pos shr_1 n (shr_1 mrs)))
      by (rewrite IH by exact H1; apply Z.div_pos; lia).
    rewrite IH by exact H2. rewrite IH by exact H1. rewrite shr_m_shr_1 by exact Hm.
    rewrite !Z.div_div by lia. rewrite pow2_xI. reflexivity.
  - assert (0 < 2 ^ Z.pos n) by (apply Z.pow_pos_nonneg; lia).
    cbn [SpecFloat.iter_pos].
    assert (H1 : 0 <= shr_m (SpecFloat.iter_pos shr_1 n mrs))
      by (rewrite IH by exact Hm; apply Z.div_pos; lia).
    rewrite IH by exact H1. rewrite IH by exact Hm.
    rewrite Z.div_div by lia. rewrite pow2_xO. reflexivity.
  - cbn [SpecFloat.iter_pos]. rewrite shr_m_shr_1 by exact Hm. reflexivity.
Qed.

Lemma round_nearest_even_carry (m : Z) (l : location) :
  round_nearest_even m l = m \/ round_nearest_even m l = m + 1.
Proof.
  destruct l as [|[]]; simpl; auto. destruct (Z.even m); auto.
Qed.

Lemma round_finish_shape (s : bool) (m e : Z) :
  2 ^ 52 <= m <= 2 ^ 53 -> -1074 <= e <= 970 ->
  exists M E, round_finish s m e = S754_finite s M E /\
              Z.log2 (Z.pos M) = 52 /\ e <= E <= e + 1.
Proof.
  intros Hm He.
  destruct (Z.eq_dec m (2 ^ 53)) as [->|Hne].
  - exists 4503599627370496%positive, (e + 1).
    split; [|split; [reflexivity|lia]].
    unfold round_finish, shr_fexp.
    change (Zdigits2 (2 ^ 53)) with 54.
    replace (fexp F64.prec F64.emax (54 + e) - e) with 1
      by (unfold fexp, emin, F64.prec, F64.emax; lia).
    cbn [shr shr_record_of_loc SpecFloat.iter_pos]. change (2 ^ 53) with (2 * 2 ^ 52).
    rewrite shr_1_double by lia. cbn [shr_m]. change (2 ^ 52) with 4503599627370496.
    replace (e + 1 <=? F64.emax - F64.prec) with true
      by (symmetry; apply Z.leb_le; unfold F64.emax, F64.prec; lia).
    reflexivity.
  - assert (Hlog : Z.log2 m = 52).
    { apply Z.log2_unique; [lia|]. change (2 ^ (52 + 1)) with (2 ^ 53). lia. }
    exists (Z.to_pos m), e.
    rewrite Z2Pos.id by lia. split; [|split; [exact Hlog|lia]].
    unfold round_finish, shr_fexp.
    rewrite Zdigits2_log2 by lia. rewrite Hlog.
    replace (fexp F64.prec F64.emax (52 + 1 + e) - e) with 0
      by (unfold fexp, emin, F64.prec, F64.emax; lia).
    cbn [shr shr_record_of_loc shr_m].
    destruct m as [|pm|pm]; try lia.
    replace (e <=? F64.emax - F64.prec) with true
      by (symmetry; apply Z.leb_le; unfold F64.emax, F64.prec; lia).
    reflexivity.
Qed.

(** Rounding a mantissa of 53 bits or more leaves a normal number: 53
    bits, and the exponent raised by the bits dropped. *)
Lemma binary_round_aux_shape (s : bool) (m e : Z) :
  0 < m -> 52 <= Z.log2 m -> -1074 <= e -> e + (Z.log2 m - 52) <= 970 ->
  exists M E, binary_round_aux F64.prec F64.emax s m e loc_Exact = S754_finite s M E /\
              Z.log2 (Z.pos M) = 52 /\
              e + (Z.log2 m - 52) <= E <= e + (Z.log2 m - 52) + 1.
Proof.
  intros Hm Hlog He Hhi.
  rewrite binary_round_aux_unfold. cbv zeta. unfold shr_fexp.
  rewrite Zdigits2_log2 by exact Hm.
  replace (fexp F64.prec F64.emax (Z.log2 m + 1 + e) - e) with (Z.log2 m - 52)
    by (unfold fexp, emin, F64.prec, F64.emax; lia).
  cbn [shr_record_of_loc].
  destruct (Z.log2 m - 52) as [|t|t] eqn:Ht; [| |lia].
  - cbn [shr fst snd shr_m loc_of_shr_record round_nearest_even].
    destruct (round_finish_shape s m e) as (M & E & Hr & HM & HE).
    + pose proof (Z.log2_spec m Hm) as Hs.
      replace (Z.log2 m) with 52 in Hs by lia.
      change (2 ^ Z.succ 52) with (2 ^ 53) in Hs. lia.
    + lia.
    + exists M, E. split; [exact Hr|]. split; [exact HM|lia].
  - cbn [shr fst snd].
    set (mrs := SpecFloat.iter_pos shr_1 t _).
    assert (Hq : shr_m mrs = m / 2 ^ Z.pos t).
    { unfold mrs. rewrite shr_m_iter by (cbn [shr_m]; lia). reflexivity. }
    assert (Hqb : 2 ^ 52 <= shr_m mrs < 2 ^ 53).
    { rewrite Hq. pose proof (Z.log2_spec m Hm) as Hs.
      replace (Z.log2 m) with (52 + Z.pos t) in Hs by lia.
      rewrite Z.pow_add_r in Hs by lia.
      replace (Z.succ (52 + Z.pos t)) with (53 + Z.pos t) in Hs by lia.
      rewrite Z.pow_add_r in Hs by lia.
      assert (0 < 2 ^ Z.pos t) by (apply Z.pow_pos_nonneg; lia).
      split.
      - apply Z.div_le_lower_bound; lia.
      - apply Z.div_lt_upper_bound; lia. }
    destruct (round_finish_shape s
                (round_nearest_even (shr_m mrs) (loc_of_shr_record mrs)) (e + Z.pos t))
      as (M & E & Hr & HM & HE).
    + destruct (round_nearest_even_carry (shr_m mrs) (loc_of_shr_record mrs)) as [-> | ->]; lia.
    + lia.
    + exists M, E. split; [exact Hr|]. split; [exact HM|lia].
Qed.

Lemma of_int_shape (n : Z) :
  n <> 0 -> Z.abs n < 2 ^ 64 ->
  exists M E, F64.of_int n = S754_finite (n <? 0) M E /\
              Z.log2 (Z.pos M) = 52 /\ -52 <= E <= 12.
Proof.
  intros Hn Hlt.
  destruct (Z.lt_ge_cases (Z.abs n) (2 ^ 53)) as [Hsmall|Hbig].
  - exists (mant n), (expo n).
    assert (He : exactInt n) by (split; assumption).
    split; [apply of_int_exact; exact He|].
    split; [apply mant_spec; exact He|].
    pose proof (exactInt_log2 n He). unfold expo. lia.
  - assert (Hlog : 53 <= Z.log2 (Z.abs n) < 64).
    { split; [apply Z.log2_le_pow2; lia|apply Z.log2_lt_pow2; lia]. }
    assert (Hr : exists p, Z.pos p = Z.abs n /\
                 F64.of_int n = binary_round F64.prec F64.emax (n <? 0) p 0).
    { unfold F64.of_int. destruct n as [|p|p]; [lia| |]; exists p; split; reflexivity. }
    destruct Hr as (p & Hp & ->).
    unfold binary_round.
    change (Z.pos (digits2_pos p)) with (Zdigits2 (Z.pos p)).
    rewrite Zdigits2_log2 by lia. rewrite Hp.
    replace (fexp F64.prec F64.emax (Z.log2 (Z.abs n) + 1 + 0)) with (Z.log2 (Z.abs n) - 52)
      by (unfold fexp, emin, F64.prec, F64.emax; lia).
    unfold shl_align.
    destruct (Z.log2 (Z.abs n) - 52 - 0) as [|d|d] eqn:Hd; try lia.
    rewrite Hp.
    destruct (binary_round_aux_shape (n <? 0) (Z.abs n) 0) as (M & E & Hr & HM & HE);
      try lia.
    exists M, E. split; [exact Hr|]. split; [exact HM|lia].
Qed.

Lemma shiftl_neg_exp (x e : Z) : e < 0 -> Z.shiftl x e = x / 2 ^ (- e).
Proof.
  intros He. rewrite <- (Z.opp_involutive e) at 1. rewrite Z.shiftl_opp_r.
  apply Z.shiftr_div_pow2. lia.
Qed.

(** The ceiling of the quotient of an exactly held total by [2^30]. *)
Lemma ceil_mag_quotient (B : Z) :
  0 < B < 2 ^ 53 ->
  F64.ceil_mag (mant B) (expo B - 30) = ceilDiv B (2 ^ 30).
Proof.
  intros HB. assert (He : exactInt B) by (split; [|rewrite Z.abs_eq]; lia).
  pose proof (exactInt_log2 B He) as Hl. destruct (mant_spec B He) as [Hm _].
  rewrite Z.abs_eq in Hm, Hl by lia.
  unfold F64.ceil_mag, ceilDiv, expo. rewrite Z.abs_eq by lia.
  rewrite shiftl_neg_exp by lia. f_equal.
  change (Z.neg (mant B)) with (- Z.pos (mant B)). rewrite Hm.
  replace (- (Z.log2 B - 52 - 30)) with (30 + (52 - Z.log2 B)) by lia.
  rewrite Z.pow_add_r by lia.
  rewrite <- Z.mul_opp_l.
  apply Z.div_mul_cancel_r; [lia|].
  apply Z.pow_nonzero; lia.
Qed.

Lemma ceilDiv_pos (B : Z) : 0 < B -> 0 < ceilDiv B (2 ^ 30).
Proof.
  intros HB. unfold ceilDiv.
  assert (- B / 2 ^ 30 < 0); [|lia].
  apply Z.div_lt_upper_bound; lia.
Qed.

Lemma ceilDiv_le (B : Z) : 0 < B -> ceilDiv B (2 ^ 30) <= B.
Proof.
  intros HB. unfold ceilDiv.
  assert (- B <= - B / 2 ^ 30); [|lia].
  apply Z.div_le_lower_bound; lia.
Qed.

Lemma round_half_even_mant (c : Z) :
  exactInt c -> F64.round_half_even (mant c) (expo c) = Z.abs c.
Proof.
  intros He. pose proof (exactInt_log2 c He) as Hl. destruct (mant_spec c He) as [Hm _].
  assert (Hc : 0 < Z.abs c) by (destruct He; lia).
  unfold F64.round_half_even, expo. rewrite Hm.
  set (k := 52 - Z.log2 (Z.abs c)) in *.
  destruct (Z.leb_spec 0 (Z.log2 (Z.abs c) - 52)) as [H0|H0].
  - replace (Z.log2 (Z.abs c) - 52) with 0 by lia. replace k with 0 by lia.
    rewrite Z.shiftl_0_r. rewrite Z.pow_0_r. lia.
  - replace (- (Z.log2 (Z.abs c) - 52)) with k by lia.
    assert (Hk : 0 < 2 ^ k) by (apply Z.pow_pos_nonneg; lia).
    rewrite Z.shiftr_div_pow2 by lia. rewrite Z.div_mul by lia.
    rewrite (Z.shiftl_mul_pow2 (Z.abs c)) by lia. rewrite Z.sub_diag.
    rewrite Z.shiftl_mul_pow2 by lia.
    assert (Hh : 0 < 1 * 2 ^ (k - 1)) by (rewrite Z.mul_1_l; apply Z.pow_pos_nonneg; lia).
    apply Z.compare_lt_iff in Hh. rewrite Hh. reflexivity.
Qed.

Lemma string_of_Z_sign (c : Z) :
  c <> 0 ->
  (if c <? 0 then "-" else "") +:+ string_of_Z (Z.abs c) = string_of_Z c.
Proof. destruct c; [congruence| |]; reflexivity. Qed.

(** [%.0f] prints an exactly held integer as [%d] does. *)
Lemma format_f0_of_int (c : Z) : exactInt c -> format_f0 (F64.of_int c) = string_of_Z c.
Proof.
  intros He. rewrite of_int_exact by exact He. unfold format_f0.
  rewrite round_half_even_mant by exact He.
  apply string_of_Z_sign. destruct He; assumption.
Qed.

Lemma to_int_of_int (n : Z) : Z.abs n < 2 ^ 53 -> F64.to_int (F64.of_int n) = n.
Proof.
  intros Hlt. destruct (Z.eq_dec n 0) as [->|Hn]; [reflexivity|].
  assert (He : exactInt n) by (split; assumption).
  pose proof (exactInt_log2 n He) as Hl. destruct (mant_spec n He) as [Hm _].
  rewrite of_int_exact by exact He. unfold F64.to_int, F64.floor_mag, expo.
  rewrite Hm.
  set (k := 52 - Z.log2 (Z.abs n)) in *.
  assert (Hk : 0 < 2 ^ k) by (apply Z.pow_pos_nonneg; lia).
  assert (Hs : Z.shiftl (Z.abs n * 2 ^ k) (Z.log2 (Z.abs n) - 52) = Z.abs n).
  { replace (Z.log2 (Z.abs n) - 52) with (- k) by lia.
    rewrite Z.shiftl_opp_r, Z.shiftr_div_pow2 by lia. apply Z.div_mul. lia. }
  rewrite Hs.
  assert (Hv : (if n <? 0 then - Z.abs n else Z.abs n) = n)
    by (destruct (Z.ltb_spec n 0); lia).
  rewrite Hv.
  replace (MinInt64 <=? n) with true
    by (symmetry; apply Z.leb_le; unfold MinInt64; lia).
  replace (n <=? MaxInt64) with true
    by (symmetry; apply Z.leb_le; unfold MaxInt64; lia).
  reflexivity.
Qed.

Lemma shl_align_fst (m : positive) (e ez : Z) :
  ez <= e -> Z.pos (fst (shl_align m e ez)) = Z.pos m * 2 ^ (e - ez).
Proof.
  intros Hle. unfold shl_align.
  destruct (ez - e) as [|d|d] eqn:Hd; cbn [fst]; try lia.
  - replace (e - ez) with 0 by lia. rewrite Z.pow_0_r. lia.
  - rewrite iter_xO_pow2. f_equal. f_equal. lia.
Qed.

Lemma cond_Zopp_mant (n j : Z) :
  exactInt n -> 0 <= expo n + j ->
  cond_Zopp (n <? 0) (Z.pos (mant n) * 2 ^ (expo n + j)) = n * 2 ^ j.
Proof.
  intros He Hj. pose proof (exactInt_log2 n He) as Hl.
  destruct (mant_spec n He) as [Hm _]. rewrite Hm. unfold expo in *.
  rewrite <- Z.mul_assoc, <- Z.pow_add_r by lia.
  replace (52 - Z.log2 (Z.abs n) + (Z.log2 (Z.abs n) - 52 + j)) with j by lia.
  unfold cond_Zopp. destruct (Z.ltb_spec n 0); [|rewrite Z.abs_eq by lia; reflexivity].
  rewrite Z.abs_neq by lia. ring.
Qed.

(** The sum of two exactly held integers is exact when it fits 53 bits. *)
Lemma add_of_int (a b : Z) :
  exactInt a -> exactInt b -> Z.abs (a + b) < 2 ^ 53 ->
  F64.add (F64.of_int a) (F64.of_int b) = F64.of_int (a + b).
Proof.
  intros Ha Hb Hsum.
  pose proof (exactInt_log2 a Ha) as Hla. pose proof (exactInt_log2 b Hb) as Hlb.
  rewrite (of_int_exact a Ha), (of_int_exact b Hb).
  unfold F64.add, SFadd.
  set (ez := Z.min (expo a) (expo b)).
  assert (Hez : ez <= expo a /\ ez <= expo b /\ ez <= 0) by (unfold ez, expo; lia).
  rewrite !shl_align_fst by lia.
  replace (expo a - ez) with (expo a + - ez) by lia.
  replace (expo b - ez) with (expo b + - ez) by lia.
  rewrite !cond_Zopp_mant by (assumption || lia).
  rewrite <- Z.mul_add_distr_r.
  destruct (Z.eq_dec (a + b) 0) as [H0|H0].
  - rewrite H0. reflexivity.
  - replace ez with (- - ez) at 2 by lia.
    rewrite binary_normalize_scaled by (try split; assumption || lia).
    symmetry. apply of_int_exact. split; assumption.
Qed.

Lemma ParseFloat_string_of_Z (c : Z) : ParseFloat (string_of_Z c) = Some (F64.of_int c).
Proof.
  pose proof (parse_signed_string_of_Z c) as Hp. unfold ParseFloat.
  destruct (decide (string_of_Z c = "NaN")) as [H|_]; [rewrite H in Hp; discriminate|].
  destruct (decide (string_of_Z c = "+Inf")) as [H|_]; [rewrite H in Hp; discriminate|].
  destruct (decide (string_of_Z c = "-Inf")) as [H|_]; [rewrite H in Hp; discriminate|].
  rewrite Hp. f_equal.
  assert (Hv : (if c <? 0 then - Z.abs c else Z.abs c) = c)
    by (destruct (Z.ltb_spec c 0); lia).
  rewrite Hv. destruct c; reflexivity.
Qed.

(** [calculateStorageSize] on a printed integer adds the 50 GiB. *)
Lemma storageSizeOf_integer (c : Z) :
  Z.abs c < 2 ^ 52 ->
  storageSizeOf (string_of_Z c +:+ "Gi") = string_of_Z (c + 50) +:+ "Gi".
Proof.
  intros Hc. unfold storageSizeOf. rewrite TrimSuffix_append, ParseFloat_string_of_Z.
  cbn [from_option]. unfold id. change SystemFileDiskSizeGiB with 50. f_equal. f_equal.
  assert (H50 : exactInt 50) by (split; [discriminate|reflexivity]).
  destruct (Z.eq_dec c 0) as [->|Hc0].
  - reflexivity.
  - rewrite add_of_int; [apply to_int_of_int; lia|split; lia|exact H50|lia].
Qed.

Lemma storageSizeOf_negative_zero : storageSizeOf "-0Gi" = "50Gi".
Proof. reflexivity. Qed.

(** [ModelFileSize] for a total the [float64] holds exactly. *)
Lemma modelFileSizeOf_exact (B : Z) :
  0 <= B <= 2 ^ 53 ->
  modelFileSizeOf B = string_of_Z (ceilDiv B (2 ^ 30)) +:+ "Gi".
Proof.
  intros HB.
  destruct (Z.eq_dec B 0) as [->|H0]; [reflexivity|].
  destruct (Z.eq_dec B (2 ^ 53)) as [->|H53]; [vm_compute; reflexivity|].
  assert (Hpos : 0 < B < 2 ^ 53) by lia.
  assert (He : exactInt B) by (split; [|rewrite Z.abs_eq]; lia).
  destruct (mant_spec B He) as [_ Hlog]. pose proof (exactInt_log2 B He) as Hl.
  unfold modelFileSizeOf. f_equal.
  rewrite (of_int_exact B He).
  rewrite div_GiB by (try exact Hlog; unfold expo; lia).
  replace (B <? 0) with false by (symmetry; apply Z.ltb_ge; lia).
  unfold F64.Ceil. rewrite ceil_mag_quotient by exact Hpos.
  pose proof (ceilDiv_pos B ltac:(lia)) as Hcp.
  pose proof (ceilDiv_le B ltac:(lia)) as Hcl.
  replace (ceilDiv B (2 ^ 30) =? 0) with false by (symmetry; apply Z.eqb_neq; lia).
  apply format_f0_of_int. split; [|rewrite Z.abs_eq]; lia.
Qed.

(** ** The sizes *)

Lemma ceilDiv_spec (B : Z) :
  2 ^ 30 * (ceilDiv B (2 ^ 30) - 1) < B <= 2 ^ 30 * ceilDiv B (2 ^ 30).
Proof.
  unfold ceilDiv.
  pose proof (Z.div_mod (- B) (2 ^ 30) ltac:(lia)) as Hdm.
  pose proof (Z.mod_pos_bound (- B) (2 ^ 30) ltac:(lia)) as Hb.
  lia.
Qed.

Lemma FinalizeParams_fields (g : Generator) :
  let m := Metadata_ (Param g) in
  let m' := Metadata_ (Param (FinalizeParams g)) in
  ModelFileSize m' = ModelFileSize m /\
  DiskStorageRequirement m' = storageSizeOf (ModelFileSize m) /\
  BytesPerToken m' = tokenSize (kvCacheLocals (ModelConfig g)) /\
  AttnType (Param (FinalizeParams g)) = attnType (kvCacheLocals (ModelConfig g)).
Proof. cbv zeta. repeat split; reflexivity. Qed.

Lemma ParseModelMetadata_fields (w : World) (g : Generator) :
  ModelFileSize (Metadata_ (Param (ParseModelMetadata w g)))
    = ModelFileSize (Metadata_ (Param g)) /\
  ModelConfig (ParseModelMetadata w g) = ModelConfig g.
Proof. split; reflexivity. Qed.

(** C2, amended.  For a total of selected bytes [B] between 0 and [2^53],
    [ModelFileSize] is the text of [ceil(B / 2^30)] followed by [Gi], and
    [DiskStorageRequirement] the text of [ceil(B / 2^30) + 50] followed by
    [Gi]; [B = 8 * 2^30 + 1] gives ["9Gi"] and ["59Gi"]. *)
Theorem sizes_for_exact_totals (B : Z) :
  0 <= B <= 2 ^ 53 ->
  let N := ceilDiv B (2 ^ 30) in
  2 ^ 30 * (N - 1) < B <= 2 ^ 30 * N /\
  modelFileSizeOf B = string_of_Z N +:+ "Gi" /\
  storageSizeOf (modelFileSizeOf B) = string_of_Z (N + 50) +:+ "Gi" /\
  (forall g,
     ModelFileSize (Metadata_ (Param g)) = modelFileSizeOf B ->
     DiskStorageRequirement (Metadata_ (Param (FinalizeParams g)))
       = string_of_Z (N + 50) +:+ "Gi") /\
  modelFileSizeOf (8 * 2 ^ 30 + 1) = "9Gi" /\
  storageSizeOf (modelFileSizeOf (8 * 2 ^ 30 + 1)) = "59Gi".
Proof.
  intros HB. cbv zeta.
  pose proof (ceilDiv_spec B) as Hspec.
  assert (Hsize : modelFileSizeOf B = string_of_Z (ceilDiv B (2 ^ 30)) +:+ "Gi")
    by (apply modelFileSizeOf_exact; exact HB).
  assert (Hstore : storageSizeOf (modelFileSizeOf B)
                   = string_of_Z (ceilDiv B (2 ^ 30) + 50) +:+ "Gi").
  { rewrite Hsize. apply storageSizeOf_integer. lia. }
  split; [exact Hspec|]. split; [exact Hsize|]. split; [exact Hstore|].
  split; [|split; vm_compute; reflexivity].
  intros g Hg.
  destruct (FinalizeParams_fields g) as (_ & -> & _). rewrite Hg. exact Hstore.
Qed.

Lemma sizes_for_exact_totals_witness :
  modelFileSizeOf (3 * 2 ^ 30) = "3Gi" /\
  storageSizeOf (modelFileSizeOf (3 * 2 ^ 30)) = "53Gi".
Proof.
  destruct (sizes_for_exact_totals (3 * 2 ^ 30)) as (_ & Hsize & Hstore & _).
  - vm_compute. split; discriminate.
  - split; [rewrite Hsize|rewrite Hstore]; vm_compute; reflexivity.
Defined.

(** C2 as stated fails at [2^53 + 1] bytes: [float64] rounds the total to
    [2^53], and the size printed is 8388608 where the ceiling is
    8388609. *)
Lemma size_rounded_down : ~ sizes_for_every_total.
Proof.
  intros H. destruct (H roundedTotal) as [Hsize _].
  - vm_compute. split; discriminate.
  - vm_compute in Hsize. discriminate Hsize.
Qed.

(** ** Well-formed quantities *)

Lemma allDigits_string_of_uint (d : uint) : allDigits (NilEmpty.string_of_uint d) = true.
Proof. induction d; simpl; try rewrite IHd; reflexivity. Qed.

Lemma isNatural_string_of_uint (d : uint) :
  isNatural (NilZero.string_of_uint d) = true.
Proof.
  destruct d; try reflexivity;
    unfold NilZero.string_of_uint, isNatural;
    rewrite allDigits_string_of_uint; reflexivity.
Qed.

Lemma isNatural_string_of_Z (c : Z) : 0 <= c -> isNatural (string_of_Z c) = true.
Proof.
  intros Hc. unfold string_of_Z. destruct c as [|p|p]; [reflexivity| |lia].
  apply isNatural_string_of_uint.
Qed.

Lemma isNatural_isInteger (s : string) : isNatural s = true -> isInteger s = true.
Proof.
  intros H. unfold isInteger. destruct s as [|c s]; [exact H|].
  destruct (Ascii.eqb_spec c "-") as [->|Hne]; [discriminate H|].
  destruct c as [[] [] [] [] [] [] [] []]; try exact H. congruence.
Qed.

Lemma isInteger_string_of_Z (c : Z) : isInteger (string_of_Z c) = true.
Proof.
  destruct c as [|p|p].
  - reflexivity.
  - apply isNatural_isInteger, isNatural_string_of_Z. lia.
  - unfold string_of_Z. simpl Z.to_int. unfold NilZero.string_of_int.
    unfold isInteger. apply isNatural_string_of_uint.
Qed.

Lemma isIntegerGi_append (s : string) : isInteger s = true -> isIntegerGi (s +:+ "Gi") = true.
Proof.
  intros H. unfold isIntegerGi. rewrite TrimSuffix_append, H.
  replace (HasSuffix (s +:+ "Gi") "Gi") with true; [reflexivity|].
  symmetry. apply HasSuffix_spec. exists s. reflexivity.
Qed.

Lemma isNaturalGi_append (s : string) : isNatural s = true -> isNaturalGi (s +:+ "Gi") = true.
Proof.
  intros H. unfold isNaturalGi. rewrite TrimSuffix_append, H.
  replace (HasSuffix (s +:+ "Gi") "Gi") with true; [reflexivity|].
  symmetry. apply HasSuffix_spec. exists s. reflexivity.
Qed.

(** ** The sizes of every total *)

Lemma floor_mag_bounds (M : positive) (e : Z) :
  e <= -2 -> Z.pos M < 2 ^ 53 -> 0 <= F64.floor_mag M e <= 2 ^ 51.
Proof.
  intros He HM. rewrite floor_mag_neg_exp by lia.
  assert (Hp : 2 ^ 2 <= 2 ^ (- e)) by (apply Z.pow_le_mono_r; lia).
  pose proof (Z.div_mod (Z.pos M) (2 ^ (- e)) ltac:(lia)) as Hdm.
  pose proof (Z.mod_pos_bound (Z.pos M) (2 ^ (- e)) ltac:(lia)) as Hb.
  split; [apply Z.div_pos; lia|]. nia.
Qed.

Lemma ceil_mag_bounds (M : positive) (e : Z) :
  e <= -2 -> Z.pos M < 2 ^ 53 -> 0 < F64.ceil_mag M e <= 2 ^ 51.
Proof.
  intros He HM. unfold F64.ceil_mag. rewrite shiftl_neg_exp by lia.
  assert (Hp : 2 ^ 2 <= 2 ^ (- e)) by (apply Z.pow_le_mono_r; lia).
  change (Z.neg M) with (- Z.pos M).
  pose proof (Z.div_mod (- Z.pos M) (2 ^ (- e)) ltac:(lia)) as Hdm.
  pose proof (Z.mod_pos_bound (- Z.pos M) (2 ^ (- e)) ltac:(lia)) as Hb.
  split; nia.
Qed.

(** Whatever the [int64] total, [ModelFileSize] is a printed integer
    followed by [Gi]; the integer is ["-0"] for a total between [-2^30]
    and 0, and it has no sign for a total that is not negative. *)
Lemma modelFileSizeOf_shape (T : Z) :
  in_int64 T ->
  exists body,
    modelFileSizeOf T = body +:+ "Gi" /\
    ((exists c, Z.abs c < 2 ^ 52 /\ body = string_of_Z c /\ (0 <= T -> 0 <= c))
     \/ (body = "-0" /\ T < 0)).
Proof.
  intros HT. unfold modelFileSizeOf.
  destruct (Z.eq_dec T 0) as [->|H0].
  { exists "0". split; [reflexivity|]. left. exists 0. repeat split; lia. }
  destruct (of_int_shape T H0) as (M & E & -> & Hlog & HE).
  { unfold in_int64, MinInt64, MaxInt64 in HT. lia. }
  rewrite div_GiB by (try exact Hlog; lia).
  assert (HM : Z.pos M < 2 ^ 53).
  { apply Z.log2_lt_pow2; lia. }
  unfold F64.Ceil.
  set (c := if T <? 0 then - F64.floor_mag M (E - 30) else F64.ceil_mag M (E - 30)).
  assert (Hc : Z.abs c < 2 ^ 52 /\ (0 <= T -> 0 < c) /\ (T < 0 -> c <= 0)).
  { unfold c. pose proof (floor_mag_bounds M (E - 30) ltac:(lia) HM).
    pose proof (ceil_mag_bounds M (E - 30) ltac:(lia) HM).
    destruct (Z.ltb_spec T 0); lia. }
  destruct (Z.eqb_spec c 0) as [Hc0|Hc0].
  - assert (HTneg : T < 0) by lia.
    replace (T <? 0) with true by (symmetry; apply Z.ltb_lt; exact HTneg).
    exists "-0". split; [reflexivity|]. right. split; [reflexivity|exact HTneg].
  - exists (string_of_Z c). split.
    + f_equal. apply format_f0_of_int. split; [exact Hc0|lia].
    + left. exists c. split; [apply Hc|]. split; [reflexivity|]. intros. lia.
Qed.

Lemma totalBytes_in_range (selectedFiles : list FileInfo) : in_int64 (totalBytes selectedFiles).
Proof.
  unfold totalBytes.
  assert (H : forall init, in_int64 init ->
            in_int64 (fold_left (fun total f => wrap64 (total + Size f)) selectedFiles init)).
  { induction selectedFiles as [|f l IH]; intros init Hi; [exact Hi|].
    simpl. apply IH. apply wrap64_in_range. }
  apply H. unfold in_int64, MinInt64, MaxInt64. lia.
Qed.

(** Both sizes are well-formed, whatever the total. *)
Lemma sizes_well_formed (T : Z) :
  in_int64 T ->
  isIntegerGi (modelFileSizeOf T) = true /\
  isIntegerGi (storageSizeOf (modelFileSizeOf T)) = true /\
  (0 <= T ->
     isNaturalGi (modelFileSizeOf T) = true /\
     isNaturalGi (storageSizeOf (modelFileSizeOf T)) = true).
Proof.
  intros HT.
  destruct (modelFileSizeOf_shape T HT) as (body & -> & [(c & Hc & -> & Hpos)|[-> Hneg]]).
  - rewrite storageSizeOf_integer by exact Hc.
    split; [apply isIntegerGi_append, isInteger_string_of_Z|].
    split; [apply isIntegerGi_append, isInteger_string_of_Z|].
    intros H0. split; apply isNaturalGi_append, isNatural_string_of_Z; lia.
  - split; [reflexivity|]. split; [reflexivity|]. lia.
Qed.

(** ** A successful run, step by step *)

Lemma fetchURL_ok_iff (w : World) (url : string) (st st' : GenState) (body : string) :
  fetchURL w url st = (Ok body, st') <->
  newRequestError w url = None /\
  roundTrip w url (getAuthHeader w (gen st)) = Response 200 (Ok body) /\
  st' = {| gen := gen st; requests := (requests st ++ [url])%list |}.
Proof.
  unfold fetchURL. split.
  - destruct (newRequestError w url); [discriminate|].
    destruct (roundTrip w url (getAuthHeader w (gen st))) as [err|sc b];
      [discriminate|].
    cbn [gen requests].
    destruct (Z.eqb_spec sc 200) as [->|Hne].
    + cbn [isAuthStatus Z.eqb orb andb negb Pos.eqb].
      intros [= -> <-]. repeat split; reflexivity.
    + simpl negb. cbv iota.
      destruct (isAuthStatus sc && String.eqb (getAuthHeader w (gen st)) "");
        discriminate.
  - intros (-> & -> & ->). reflexivity.
Qed.

Lemma getAuthHeader_Token (w : World) (g g' : Generator) :
  Token g' = Token g -> getAuthHeader w g' = getAuthHeader w g.
Proof. unfold getAuthHeader. intros ->. reflexivity. Qed.

(** A successful [FetchModelMetadata], step by step. *)
Lemma FetchModelMetadata_run (w : World) (modelRepo token : string) (st' : GenState) :
  FetchModelMetadata w (freshState w modelRepo token) = (None, st') ->
  exists files d config,
    served w modelRepo token files d config /\
    st' = {| gen := fetched w modelRepo token d config;
             requests := [listingURL modelRepo;
                          configURL modelRepo (dConfigFile d)] |}.
Proof.
  unfold FetchModelMetadata.
  destruct (fetchURL w _ (freshState w modelRepo token)) as [[body|err] st1] eqn:H1;
    [|discriminate].
  apply fetchURL_ok_iff in H1 as (Hreq1 & Hrt1 & ->).
  cbn [gen requests freshState] in *.
  destruct (unmarshalFiles w body) as [files|err] eqn:Hfiles; [|discriminate].
  cbn [NewGenerator LoadFormat ConfigFormat TokenizerMode].
  destruct (detectFormat "auto" "auto" "auto" files) as [d|] eqn:Hd; [|discriminate].
  match goal with |- context [fetchURL w ?u ?s] =>
    destruct (fetchURL w u s) as [[configBody|err] st2] eqn:H2
  end; [|discriminate].
  apply fetchURL_ok_iff in H2 as (Hreq2 & Hrt2 & ->).
  cbn [gen requests] in *.
  destruct (unmarshalConfig w configBody) as [config|err] eqn:Hconfig; [|discriminate].
  intros [= <-]. exists files, d, config. split; [|reflexivity].
  exists body, configBody. repeat split; assumption.
Qed.

(** The preset of a successful run and the requests it made. *)
Lemma FetchModelMetadata_served (w : World) (modelRepo token : string)
    (files : list FileInfo) (d : Detected) (config : gmap string value) :
  served w modelRepo token files d config ->
  FetchModelMetadata w (freshState w modelRepo token) =
  (None, {| gen := fetched w modelRepo token d config;
            requests := [listingURL modelRepo;
                         configURL modelRepo (dConfigFile d)] |}).
Proof.
  intros (body & configBody & Hreq1 & Hrt1 & Hfiles & Hd & Hreq2 & Hrt2 & Hconfig).
  assert (H1 : fetchURL w (listingURL modelRepo) (freshState w modelRepo token) =
               (Ok body, {| gen := NewGenerator w modelRepo token;
                            requests := [listingURL modelRepo] |})).
  { apply fetchURL_ok_iff. repeat split; assumption. }
  unfold FetchModelMetadata.
  change (ModelRepo (gen (freshState w modelRepo token))) with modelRepo.
  rewrite H1, Hfiles. cbn [gen requests].
  change (LoadFormat (NewGenerator w modelRepo token)) with "auto".
  change (ConfigFormat (NewGenerator w modelRepo token)) with "auto".
  change (TokenizerMode (NewGenerator w modelRepo token)) with "auto".
  rewrite Hd.
  match goal with |- context [fetchURL w ?u ?s] =>
    assert (H2 : fetchURL w u s =
                 (Ok configBody,
                  {| gen := gen s; requests := (requests s ++ [u])%list |}))
      by (apply fetchURL_ok_iff; repeat split; [exact Hreq2|exact Hrt2]);
    rewrite H2
  end.
  rewrite Hconfig. reflexivity.
Qed.

(** The preset of a successful run and the requests it made. *)
Lemma GeneratePreset_run (w : World) (modelRepo token : string)
    (p : PresetParam) (reqs : list string) :
  GeneratePreset w modelRepo token = (Ok p, reqs) ->
  modelRepo <> "" /\
  exists files d config,
    served w modelRepo token files d config /\
    p = Param (FinalizeParams (ParseModelMetadata w (fetched w modelRepo token d config))) /\
    reqs = [listingURL modelRepo; configURL modelRepo (dConfigFile d)].
Proof.
  unfold GeneratePreset.
  destruct (String.eqb_spec modelRepo "") as [->|Hne]; [discriminate|].
  intros H. split; [exact Hne|]. revert H. unfold Generate.
  change {| gen := NewGenerator w modelRepo token; requests := [] |}
    with (freshState w modelRepo token).
  destruct (FetchModelMetadata w (freshState w modelRepo token)) as [[err|] st'] eqn:HF;
    [discriminate|].
  destruct (FetchModelMetadata_run w modelRepo token st' HF)
    as (files & d & config & Hserved & ->).
  cbn [gen requests]. intros [= <- <-].
  exists files, d, config. split; [exact Hserved|]. split; reflexivity.
Qed.

Lemma GeneratePreset_served (w : World) (modelRepo token : string)
    (files : list FileInfo) (d : Detected) (config : gmap string value) :
  modelRepo <> "" ->
  served w modelRepo token files d config ->
  GeneratePreset w modelRepo token =
  (Ok (Param (FinalizeParams (ParseModelMetadata w (fetched w modelRepo token d config)))),
   [listingURL modelRepo; configURL modelRepo (dConfigFile d)]).
Proof.
  intros Hne Hserved.
  unfold GeneratePreset. apply String.eqb_neq in Hne. rewrite Hne.
  unfold Generate.
  change {| gen := NewGenerator w modelRepo token; requests := [] |}
    with (freshState w modelRepo token).
  rewrite (FetchModelMetadata_served w modelRepo token files d config Hserved).
  reflexivity.
Qed.

(** ** A successful run *)

(** The preset of a successful run: the sizes come from the selected
    files of the listing the hub served, the cache figures from the
    configuration document it served. *)
Lemma GeneratePreset_ok (w : World) (modelRepo token : string)
    (p : PresetParam) (reqs : list string) :
  GeneratePreset w modelRepo token = (Ok p, reqs) ->
  exists files d config,
    served w modelRepo token files d config /\
    ModelFileSize (Metadata_ p) = modelFileSizeOf (totalBytes (dSelectedFiles d)) /\
    DiskStorageRequirement (Metadata_ p) = storageSizeOf (ModelFileSize (Metadata_ p)) /\
    BytesPerToken (Metadata_ p) = tokenSize (kvCacheLocals config) /\
    AttnType p = attnType (kvCacheLocals config).
Proof.
  intros Hrun.
  destruct (GeneratePreset_run w modelRepo token p reqs Hrun)
    as (_ & files & d & config & Hserved & -> & _).
  exists files, d, config. split; [exact Hserved|].
  split; [reflexivity|]. split; [reflexivity|]. split; reflexivity.
Qed.

(** Without a latent rank, and with a head count or a head dimension
    that is not positive, the type is Unknown and nothing is cached. *)
Lemma attnType_unknown_locals (config : gmap string value) :
  let l := kvCacheLocals config in
  kvLoraRank l = -1 ->
  ~ (0 < attentionHeads l /\ 0 < kvHeads l /\ 0 < headDim l) ->
  attnType l = "Unknown" /\ tokenSize l = 0.
Proof.
  cbv zeta. intros Hrank Hno.
  destruct (kvCacheLocals_cases config)
    as [Hsize [(Hne & _)|[(_ & Hpos & _)|(_ & _ & Ht & He)]]]; try contradiction.
  split; [exact Ht|]. rewrite Hsize, He. reflexivity.
Qed.

(** In particular without the fields of the latent rank and of the
    attention heads. *)
Lemma attnType_unknown (config : gmap string value) :
  config !! "kv_lora_rank" = None ->
  config !! "num_attention_heads" = None ->
  config !! "n_head" = None ->
  config !! "n_heads" = None ->
  attnType (kvCacheLocals config) = "Unknown" /\ tokenSize (kvCacheLocals config) = 0.
Proof.
  intros Hrank H1 H2 H3.
  destruct (kvCacheLocals_reads config) as (_ & _ & Hah & Hr & _).
  apply attnType_unknown_locals.
  - rewrite Hr. apply getInt_no_yield.
    repeat constructor; unfold yields; rewrite Hrank; reflexivity.
  - intros (Hpos & _). rewrite Hah in Hpos.
    rewrite getInt_no_yield in Hpos; [lia|].
    repeat constructor; unfold yields; rewrite ?H1, ?H2, ?H3; reflexivity.
Qed.

(** The values the analyzer works with, read off the document. *)
Lemma kvCacheLocals_values (config : gmap string value) :
  let l := kvCacheLocals config in
  let hidden := getInt config ["hidden_size"; "n_embd"; "d_model"] 0 in
  let heads := getInt config ["num_attention_heads"; "n_head"; "n_heads"] 0 in
  let explicitKV := getInt config ["num_key_value_heads"; "n_head_kv"; "n_kv_heads"] 0 in
  let explicitDim := getInt config ["head_dim"] 0 in
  hiddenLayers l = getInt config ["num_hidden_layers"; "n_layer"; "n_layers"] 0 /\
  attentionHeads l = heads /\
  kvLoraRank l = getInt config ["kv_lora_rank"] (-1) /\
  qkRopeHeadDim l = getInt config ["qk_rope_head_dim"] 0 /\
  headDim l =
    (if (explicitDim =? 0) && (0 <? heads) then int_quo hidden heads else explicitDim) /\
  kvHeads l =
    (if (explicitKV =? 0) && (0 <? heads)
     then (if multiQuery config then 1 else heads) else explicitKV).
Proof.
  cbv zeta.
  destruct (kvCacheLocals_reads config) as (Hhs & Hl & Hah & Hr & Hrope).
  destruct (kvCacheLocals_fallbacks config) as (Hhd & Hkv).
  rewrite Hhs, Hah in Hhd. rewrite Hah in Hkv.
  repeat split; assumption.
Qed.

(** C9, amended.  The preset of every successful run has well-formed
    ["<integer>Gi"] sizes, without a sign when the total of the selected
    sizes is not negative; its [BytesPerToken] and [AttnType] are what the
    analyzer computes from the configuration document the hub served to
    the run, [BytesPerToken] being not negative when the values read from
    that document lie between 0 and [2^20]; and [AttnType] is
    ["Unknown"], with 0 bytes per token, when there is no latent rank and
    a head count or the head dimension is not positive, as when the
    document has neither a latent rank nor an attention head count. *)
Theorem preset_invariants (w : World) (modelRepo token : string)
    (p : PresetParam) (reqs : list string) :
  GeneratePreset w modelRepo token = (Ok p, reqs) ->
  isIntegerGi (ModelFileSize (Metadata_ p)) = true /\
  isIntegerGi (DiskStorageRequirement (Metadata_ p)) = true /\
  exists files d config,
    served w modelRepo token files d config /\
    (0 <= totalBytes (dSelectedFiles d) ->
       isNaturalGi (ModelFileSize (Metadata_ p)) = true /\
       isNaturalGi (DiskStorageRequirement (Metadata_ p)) = true) /\
    (BytesPerToken (Metadata_ p), AttnType p) = calculateKVCacheTokenSize config /\
    (let hiddenSize := getInt config ["hidden_size"; "n_embd"; "d_model"] 0 in
     let hiddenLayers := getInt config ["num_hidden_layers"; "n_layer"; "n_layers"] 0 in
     let attentionHeads := getInt config ["num_attention_heads"; "n_head"; "n_heads"] 0 in
     let explicitKV :=
       getInt config ["num_key_value_heads"; "n_head_kv"; "n_kv_heads"] 0 in
     let explicitDim := getInt config ["head_dim"] 0 in
     let kvLoraRank := getInt config ["kv_lora_rank"] (-1) in
     let qkRopeHeadDim := getInt config ["qk_rope_head_dim"] 0 in
     let headDim :=
       if (explicitDim =? 0) && (0 <? attentionHeads)
       then int_quo hiddenSize attentionHeads else explicitDim in
     let kvHeads :=
       if (explicitKV =? 0) && (0 <? attentionHeads)
       then (if multiQuery config then 1 else attentionHeads) else explicitKV in
     (0 <= hiddenLayers <= 2 ^ 20 ->
      (kvLoraRank <> -1 ->
         0 <= kvLoraRank <= 2 ^ 20 /\ 0 <= qkRopeHeadDim <= 2 ^ 20) ->
      kvHeads <= 2 ^ 20 -> headDim <= 2 ^ 20 ->
      0 <= BytesPerToken (Metadata_ p)) /\
     (kvLoraRank = -1 ->
      ~ (0 < attentionHeads /\ 0 < kvHeads /\ 0 < headDim) ->
      AttnType p = "Unknown" /\ BytesPerToken (Metadata_ p) = 0)) /\
    (config !! "kv_lora_rank" = None ->
     config !! "num_attention_heads" = None ->
     config !! "n_head" = None ->
     config !! "n_heads" = None ->
     AttnType p = "Unknown" /\ BytesPerToken (Metadata_ p) = 0).
Proof.
  intros Hrun.
  destruct (GeneratePreset_ok w modelRepo token p reqs Hrun)
    as (files & d & config & Hserved & Hsize & Hdisk & Hbpt & Hattn).
  destruct (sizes_well_formed (totalBytes (dSelectedFiles d))
              (totalBytes_in_range _)) as (Hw1 & Hw2 & Hnat).
  rewrite Hdisk, Hsize.
  split; [exact Hw1|]. split; [exact Hw2|].
  exists files, d, config.
  split; [exact Hserved|]. split; [exact Hnat|].
  rewrite Hbpt, Hattn. split; [reflexivity|]. split.
  - cbv zeta.
    destruct (kvCacheLocals_values config) as (Hl & Hah & Hr & Hrope & Hhd & Hkv).
    rewrite <- Hhd, <- Hkv, <- Hl, <- Hah, <- Hr, <- Hrope. split.
    + intros H1 H2 H3 H4. apply (kvCacheLocals_exact config H1 H2 H3 H4).
    + apply attnType_unknown_locals.
  - apply attnType_unknown.
Qed.

Lemma preset_invariants_witness :
  exists p reqs,
    GeneratePreset (servingWorld mixedTree gqaConfig) "org/model" "" = (Ok p, reqs) /\
    isIntegerGi (ModelFileSize (Metadata_ p)) = true /\
    isIntegerGi (DiskStorageRequirement (Metadata_ p)) = true /\
    0 <= BytesPerToken (Metadata_ p).
Proof.
  destruct (GeneratePreset (servingWorld mixedTree gqaConfig) "org/model" "")
    as [[p|err] reqs] eqn:Hrun; [|vm_compute in Hrun; discriminate].
  exists p, reqs. split; [reflexivity|].
  destruct (preset_invariants _ _ _ p reqs Hrun)
    as (H1 & H2 & files & d & config & Hserved & _ & _ & [Hbpt _] & _).
  split; [exact H1|]. split; [exact H2|].
  destruct Hserved as (body & configBody & _ & _ & _ & _ & _ & _ & Hc).
  unfold servingWorld in Hc. cbn [unmarshalConfig] in Hc. injection Hc as <-.
  apply Hbpt.
  - vm_compute. split; discriminate.
  - intros Hne. exfalso. apply Hne. vm_compute. reflexivity.
  - vm_compute. discriminate.
  - vm_compute. discriminate.
Defined.

(** C9 as stated fails for [BytesPerToken]: the document
    [{"kv_lora_rank": -2, "num_hidden_layers": 4}] is accepted and gives
    -16 bytes per token. *)
Lemma negative_bytes_per_token : ~ bytes_per_token_never_negative.
Proof.
  intros H.
  destruct (GeneratePreset (servingWorld mixedTree negativeRankConfig) "org/model" "")
    as [[p|err] reqs] eqn:Hrun; [|vm_compute in Hrun; discriminate].
  specialize (H _ _ _ _ _ Hrun).
  assert (Hp : BytesPerToken (Metadata_ p) = -16).
  { vm_compute in Hrun. injection Hrun as <- _. reflexivity. }
  lia.
Qed.

(** ** [NewGenerator] *)

Lemma lowerByte_slash (c : ascii) :
  Ascii.eqb (lowerByte c) "/" = Ascii.eqb c "/".
Proof. destruct c as [[] [] [] [] [] [] [] []]; reflexivity. Qed.

Lemma lowerByte_not_upper (c : ascii) :
  ((65 <=? N_of_ascii (lowerByte c)) && (N_of_ascii (lowerByte c) <=? 90))%N = false.
Proof. destruct c as [[] [] [] [] [] [] [] []]; reflexivity. Qed.

Lemma lowerByte_ASCII (c : ascii) :
  (N_of_ascii (lowerByte c) <? 128)%N = (N_of_ascii c <? 128)%N.
Proof. destruct c as [[] [] [] [] [] [] [] []]; reflexivity. Qed.

Lemma noSlash_lowerASCII (s : string) : noSlash (lowerASCII s) = noSlash s.
Proof.
  induction s as [|c s IH]; [reflexivity|]. simpl.
  rewrite lowerByte_slash, IH. reflexivity.
Qed.

Lemma noUpper_lowerASCII (s : string) : noUpper (lowerASCII s) = true.
Proof.
  induction s as [|c s IH]; [reflexivity|]. simpl.
  rewrite lowerByte_not_upper, IH. reflexivity.
Qed.

Lemma isASCII_lowerASCII (s : string) : isASCII (lowerASCII s) = isASCII s.
Proof.
  induction s as [|c s IH]; [reflexivity|]. simpl.
  rewrite lowerByte_ASCII, IH. reflexivity.
Qed.

Lemma length_lowerASCII (s : string) : String.length (lowerASCII s) = String.length s.
Proof. induction s as [|c s IH]; [reflexivity|]. simpl. rewrite IH. reflexivity. Qed.

(** On a string that is all ASCII, [strings.ToLower] is the byte loop. *)
Lemma ToLower_ASCII (w : World) (s : string) :
  isASCII s = true -> ToLower w s = lowerASCII s.
Proof. unfold ToLower. intros ->. reflexivity. Qed.

(** X1.  The name [NewGenerator] gives the preset is [strings.ToLower] of
    the last segment of the repository path: of the whole path when it
    holds no ["/"], of the text after the last ["/"] otherwise.  When
    that segment is all ASCII, the name is the segment with the bytes
    ['A'] to ['Z'] lowered: it has the length of the segment, it is all
    ASCII, and it holds no ["/"] and no upper-case ASCII letter.  The
    version is the page of the repository on the hub. *)
Theorem NewGenerator_name (w : World) (modelRepo token : string) :
  let meta := Metadata_ (Param (NewGenerator w modelRepo token)) in
  let segment := List.last (SplitSlash modelRepo) "" in
  Name meta = ToLower w segment /\
  noSlash segment = true /\
  (noSlash modelRepo = true -> segment = modelRepo) /\
  (forall dir base,
     modelRepo = dir +:+ "/" +:+ base -> noSlash base = true -> segment = base) /\
  (isASCII segment = true ->
     Name meta = lowerASCII segment /\
     String.length (Name meta) = String.length segment /\
     isASCII (Name meta) = true /\
     noSlash (Name meta) = true /\
     noUpper (Name meta) = true) /\
  Version meta = "https://huggingface.co/" +:+ modelRepo.
Proof.
  cbv zeta. cbn [NewGenerator Param Metadata_ Name Version].
  split; [reflexivity|]. split; [apply noSlash_last_SplitSlash|].
  split; [|split; [|split]].
  - intros H. rewrite (SplitSlash_noSlash _ H). reflexivity.
  - intros dir base -> Hb. apply (last_SplitSlash_path dir base Hb).
  - intros Hascii. rewrite (ToLower_ASCII w _ Hascii).
    split; [reflexivity|]. split; [apply length_lowerASCII|].
    split; [rewrite isASCII_lowerASCII; exact Hascii|].
    split; [rewrite noSlash_lowerASCII; apply noSlash_last_SplitSlash|].
    apply noUpper_lowerASCII.
  - reflexivity.
Qed.

Lemma NewGenerator_name_witness :
  Name (Metadata_ (Param (NewGenerator (statusWorld 200)
                            "Qwen/Qwen2.5-Coder-7B-Instruct" ""))) =
  "qwen2.5-coder-7b-instruct".
Proof.
  destruct (NewGenerator_name (statusWorld 200) "Qwen/Qwen2.5-Coder-7B-Instruct" "")
    as (_ & _ & _ & _ & H & _).
  destruct H as [-> _]; reflexivity.
Defined.

(** ** The token and the environment *)

Lemma fetchURL_Token (w : World) (url : string) (st : GenState) :
  Token (gen (fetchURL w url st).2) = Token (gen st).
Proof.
  destruct (fetchURL_gen w url st) as [-> | ->]; reflexivity.
Qed.

Ltac sim_done :=
  cbn [fst snd gen requests];
  split; [reflexivity | split; [assumption | first [assumption | reflexivity]]].

Lemma fetchURL_sim (w1 w2 : World) (url : string) (st1 st2 : GenState) :
  sameHub w1 w2 ->
  getAuthHeader w1 (gen st1) = getAuthHeader w2 (gen st2) ->
  sameButToken (gen st1) (gen st2) -> requests st1 = requests st2 ->
  (fetchURL w1 url st1).1 = (fetchURL w2 url st2).1 /\
  sameButToken (gen (fetchURL w1 url st1).2) (gen (fetchURL w2 url st2).2) /\
  requests (fetchURL w1 url st1).2 = requests (fetchURL w2 url st2).2.
Proof.
  intros (Hreq & Hrt & _) Hauth Hsame Hreqs.
  assert (Hflag : sameButToken (setMetadata (withDownloadAuthRequired true) (gen st1))
                               (setMetadata (withDownloadAuthRequired true) (gen st2))).
  { destruct Hsame as (H1 & H2 & H3 & H4 & H5 & H6).
    unfold sameButToken, setMetadata. cbn. rewrite H1, H2, H3, H4, H5, H6.
    repeat split; reflexivity. }
  unfold fetchURL. rewrite Hreq, Hrt, Hauth, Hreqs.
  destruct (newRequestError w2 url); [sim_done|].
  destruct (roundTrip w2 url (getAuthHeader w2 (gen st2))) as [err|sc body];
    [sim_done|].
  cbn [gen requests].
  destruct (isAuthStatus sc); cbn [andb].
  - destruct (String.eqb (getAuthHeader w2 (gen st2)) "");
      [|destruct (negb (sc =? 200))];
      sim_done.
  - destruct (negb (sc =? 200));
      sim_done.
Qed.

Lemma FetchModelMetadata_sim (w1 w2 : World) (st1 st2 : GenState) :
  sameHub w1 w2 ->
  getAuthHeader w1 (gen st1) = getAuthHeader w2 (gen st2) ->
  sameButToken (gen st1) (gen st2) -> requests st1 = requests st2 ->
  (FetchModelMetadata w1 st1).1 = (FetchModelMetadata w2 st2).1 /\
  sameButToken (gen (FetchModelMetadata w1 st1).2) (gen (FetchModelMetadata w2 st2).2) /\
  requests (FetchModelMetadata w1 st1).2 = requests (FetchModelMetadata w2 st2).2.
Proof.
  intros Hhub Hauth Hsame Hreqs.
  pose proof Hhub as (_ & _ & Hfiles & Hconfig & _).
  unfold FetchModelMetadata.
  assert (Hrepo : ModelRepo (gen st1) = ModelRepo (gen st2)) by apply Hsame.
  rewrite Hrepo.
  pose proof (fetchURL_sim w1 w2 (listingURL (ModelRepo (gen st2))) st1 st2
                Hhub Hauth Hsame Hreqs) as (Hr & Hg & Hq).
  pose proof (fetchURL_Token w1 (listingURL (ModelRepo (gen st2))) st1) as Ht1.
  pose proof (fetchURL_Token w2 (listingURL (ModelRepo (gen st2))) st2) as Ht2.
  destruct (fetchURL w1 (listingURL (ModelRepo (gen st2))) st1) as [r1 s1].
  destruct (fetchURL w2 (listingURL (ModelRepo (gen st2))) st2) as [r2 s2].
  cbn [fst snd] in *. subst r2.
  destruct r1 as [body|err]; [|sim_done].
  rewrite Hfiles.
  destruct (unmarshalFiles w2 body) as [files|err]; [|sim_done].
  pose proof Hg as (G1 & G2 & G3 & G4 & G5 & G6).
  rewrite G3, G4, G5.
  destruct (detectFormat _ _ _ files) as [d|]; [|sim_done].
  match goal with
  | |- context [fetchURL w1 ?u1 ?a1] =>
    match goal with
    | |- context [fetchURL w2 ?u2 ?a2] =>
      assert (Hu : u1 = u2) by (cbn; rewrite G1; reflexivity);
      rewrite Hu;
      pose proof (fetchURL_sim w1 w2 u2 a1 a2 Hhub) as Hsim;
      destruct (fetchURL w1 u2 a1) as [r1 t1];
      destruct (fetchURL w2 u2 a2) as [r2 t2]
    end
  end.
  cbn [fst snd gen requests] in Hsim.
  destruct Hsim as (Hr' & Hg' & Hq').
  - rewrite (getAuthHeader_Token w1 (gen st1)) by (cbn; exact Ht1).
    rewrite (getAuthHeader_Token w2 (gen st2)) by (cbn; exact Ht2). exact Hauth.
  - unfold sameButToken. cbn. rewrite G1, G2, G6. repeat split; reflexivity.
  - exact Hq.
  - subst r2. destruct r1 as [configBody|err]; [|sim_done].
    rewrite Hconfig.
    destruct (unmarshalConfig w2 configBody) as [config|err];
      [|sim_done].
    cbn [fst snd gen requests]. split; [reflexivity|]. split; [|exact Hq'].
    destruct Hg' as (K1 & K2 & K3 & K4 & K5 & K6).
    unfold sameButToken. cbn. rewrite K1, K2, K3, K4, K5. repeat split; reflexivity.
Qed.

Lemma ParseModelMetadata_sim (w1 w2 : World) (g1 g2 : Generator) :
  sameHub w1 w2 -> sameButToken g1 g2 ->
  Param (FinalizeParams (ParseModelMetadata w1 g1)) =
  Param (FinalizeParams (ParseModelMetadata w2 g2)).
Proof.
  intros (_ & _ & _ & _ & Hr & Ht) Hsame.
  unfold ParseModelMetadata. rewrite Hr, Ht.
  destruct g1, g2. unfold sameButToken in Hsame. cbn in Hsame.
  destruct Hsame as (-> & -> & -> & -> & -> & ->). reflexivity.
Qed.

Lemma GeneratePreset_sim (w1 w2 : World) (modelRepo t1 t2 : string) :
  sameHub w1 w2 ->
  ToLower w1 (List.last (SplitSlash modelRepo) "") =
  ToLower w2 (List.last (SplitSlash modelRepo) "") ->
  getAuthHeader w1 (NewGenerator w1 modelRepo t1) =
  getAuthHeader w2 (NewGenerator w2 modelRepo t2) ->
  GeneratePreset w1 modelRepo t1 = GeneratePreset w2 modelRepo t2.
Proof.
  intros Hhub Hname Hauth. unfold GeneratePreset.
  destruct (String.eqb modelRepo ""); [reflexivity|].
  unfold Generate.
  pose proof (FetchModelMetadata_sim w1 w2
                {| gen := NewGenerator w1 modelRepo t1; requests := [] |}
                {| gen := NewGenerator w2 modelRepo t2; requests := [] |}
                Hhub Hauth) as Hsim.
  destruct Hsim as (He & Hg & Hq); [|reflexivity|].
  { unfold sameButToken, NewGenerator. cbn [gen ModelRepo Param LoadFormat
      ConfigFormat TokenizerMode ModelConfig]. rewrite Hname. repeat split; reflexivity. }
  destruct (FetchModelMetadata w1 _) as [e1 s1].
  destruct (FetchModelMetadata w2 _) as [e2 s2].
  cbn [fst snd] in *. subst e2.
  destruct e1 as [err|]; [rewrite Hq; reflexivity|].
  cbn [requests]. rewrite Hq.
  rewrite (ParseModelMetadata_sim w1 w2 (gen s1) (gen s2) Hhub Hg). reflexivity.
Qed.

Lemma sameHub_withEnvToken (t : string) (w : World) : sameHub (withEnvToken t w) w.
Proof. repeat split; reflexivity. Qed.

Lemma sameHub_refl (w : World) : sameHub w w.
Proof. repeat split; reflexivity. Qed.

(** For a repository whose last segment is all ASCII, a run does not
    consult the case tables: it is the same run with any other tables. *)
Lemma GeneratePreset_tables (w1 w2 : World) (modelRepo token : string) :
  sameHub w1 w2 -> HF_TOKEN w1 = HF_TOKEN w2 ->
  isASCII (List.last (SplitSlash modelRepo) "") = true ->
  GeneratePreset w1 modelRepo token = GeneratePreset w2 modelRepo token.
Proof.
  intros Hhub Henv Hascii. apply GeneratePreset_sim; [exact Hhub| |].
  - rewrite !ToLower_ASCII by exact Hascii. reflexivity.
  - unfold getAuthHeader. cbn [NewGenerator Token]. rewrite Henv. reflexivity.
Qed.

(** X2.  A token given to the generator takes precedence over [HF_TOKEN]:
    with a token that is not empty, a run is the same whatever the
    environment holds, and giving the token of the environment is the
    same as giving none.  The header is ["Bearer "] and the token, and it
    is empty exactly when neither the token nor [HF_TOKEN] is set. *)
Theorem explicit_token_precedence (w : World) (modelRepo token envToken : string) :
  (token <> "" ->
   GeneratePreset (withEnvToken envToken w) modelRepo token =
   GeneratePreset w modelRepo token) /\
  GeneratePreset w modelRepo (HF_TOKEN w) = GeneratePreset w modelRepo "" /\
  (token <> "" ->
   getAuthHeader w (NewGenerator w modelRepo token) = "Bearer " +:+ token) /\
  (getAuthHeader w (NewGenerator w modelRepo token) = "" <->
   token = "" /\ HF_TOKEN w = "").
Proof.
  split; [|split; [|split]].
  - intros Hne. apply GeneratePreset_sim; [apply sameHub_withEnvToken|reflexivity|].
    unfold getAuthHeader. cbn [NewGenerator Token].
    apply String.eqb_neq in Hne. rewrite Hne. reflexivity.
  - apply GeneratePreset_sim; [apply sameHub_refl|reflexivity|].
    unfold getAuthHeader. cbn [NewGenerator Token].
    destruct (String.eqb (HF_TOKEN w) ""); reflexivity.
  - intros Hne. unfold getAuthHeader. cbn [NewGenerator Token].
    apply String.eqb_neq in Hne. rewrite Hne. reflexivity.
  - unfold getAuthHeader. cbn [NewGenerator Token].
    destruct (String.eqb_spec token "") as [->|Ht]; cbn [negb].
    + destruct (String.eqb_spec (HF_TOKEN w) "") as [->|Hw]; cbn [negb].
      * split; [intros _; split; reflexivity|reflexivity].
      * split; [discriminate|]. intros [_ H]. contradiction.
    + split; [discriminate|]. intros [H _]. contradiction.
Qed.

Lemma explicit_token_precedence_witness :
  GeneratePreset (withEnvToken "hf_env" (servingWorld mixedTree gqaConfig))
    "org/model" "hf_flag" =
  GeneratePreset (servingWorld mixedTree gqaConfig) "org/model" "hf_flag" /\
  getAuthHeader (withEnvToken "hf_env" (servingWorld mixedTree gqaConfig))
    (NewGenerator (withEnvToken "hf_env" (servingWorld mixedTree gqaConfig))
       "org/model" "hf_flag") = "Bearer hf_flag".
Proof.
  destruct (explicit_token_precedence (servingWorld mixedTree gqaConfig)
              "org/model" "hf_flag" "hf_env") as (H1 & _ & _ & _).
  destruct (explicit_token_precedence
              (withEnvToken "hf_env" (servingWorld mixedTree gqaConfig))
              "org/model" "hf_flag" "") as (_ & _ & H3 & _).
  split; [apply H1; discriminate|apply H3; discriminate].
Defined.

(** X3.  [GeneratePreset] returns a preset exactly when the repository
    name is not empty, both requests can be built, the hub answers the
    listing and the configuration file with status 200, both documents
    parse and the listing holds a weight file.  The run then made these
    two requests and no other, and the preset is the one parsed and
    finalized from the two documents. *)
Theorem GeneratePreset_succeeds_iff (w : World) (modelRepo token : string)
    (p : PresetParam) (reqs : list string) :
  GeneratePreset w modelRepo token = (Ok p, reqs) <->
  modelRepo <> "" /\
  exists files d config,
    served w modelRepo token files d config /\
    p = Param (FinalizeParams (ParseModelMetadata w (fetched w modelRepo token d config))) /\
    reqs = [listingURL modelRepo; configURL modelRepo (dConfigFile d)].
Proof.
  split.
  - apply GeneratePreset_run.
  - intros (Hne & files & d & config & Hserved & -> & ->).
    apply (GeneratePreset_served w modelRepo token files d config Hne Hserved).
Qed.

Lemma isAuthStatus_not_200 (sc : Z) : isAuthStatus sc = true -> (sc =? 200) = false.
Proof.
  unfold isAuthStatus. intros H. apply Z.eqb_neq. intros ->. discriminate.
Qed.

Lemma fetchURL_auth_fails (w : World) (url : string) (st : GenState) (sc : Z)
    (b : result string) :
  newRequestError w url = None ->
  roundTrip w url (getAuthHeader w (gen st)) = Response sc b ->
  isAuthStatus sc = true ->
  exists err, (fetchURL w url st).1 = Err err /\
              requests (fetchURL w url st).2 = (requests st ++ [url])%list.
Proof.
  intros Hreq Hrt Hauth. unfold fetchURL. rewrite Hreq, Hrt, Hauth.
  rewrite (isAuthStatus_not_200 sc Hauth). cbn [andb negb gen requests].
  destruct (String.eqb (getAuthHeader w (gen st)) ""); eexists; split; reflexivity.
Qed.

(** X4.  A preset that is returned never has [DownloadAuthRequired] set.
    [fetchURL] sets the flag on a 401 or a 403 only, and such an answer
    to the listing request makes the run fail, with a token or without,
    after that one request. *)
Theorem returned_preset_never_flags_auth (w : World) (modelRepo token : string) :
  (forall p reqs,
     GeneratePreset w modelRepo token = (Ok p, reqs) ->
     DownloadAuthRequired (Metadata_ p) = false) /\
  (forall sc b,
     modelRepo <> "" ->
     newRequestError w (listingURL modelRepo) = None ->
     roundTrip w (listingURL modelRepo) (getAuthHeader w (NewGenerator w modelRepo token))
       = Response sc b ->
     isAuthStatus sc = true ->
     exists err, GeneratePreset w modelRepo token = (Err err, [listingURL modelRepo])).
Proof.
  split.
  - intros p reqs Hrun.
    destruct (GeneratePreset_run w modelRepo token p reqs Hrun)
      as (_ & files & d & config & _ & -> & _).
    reflexivity.
  - intros sc b Hne Hreq Hrt Hauth.
    unfold GeneratePreset. apply String.eqb_neq in Hne. rewrite Hne.
    unfold Generate, FetchModelMetadata. cbn [gen ModelRepo NewGenerator].
    destruct (fetchURL_auth_fails w (listingURL modelRepo)
                {| gen := NewGenerator w modelRepo token; requests := [] |} sc b
                Hreq Hrt Hauth) as (err & Herr & Hreqs).
    unfold NewGenerator in Herr, Hreqs.
    destruct (fetchURL w (listingURL modelRepo) _) as [r st1].
    cbn [fst snd] in Herr, Hreqs. subst r. rewrite Hreqs.
    eexists. reflexivity.
Qed.

Lemma returned_preset_never_flags_auth_witness :
  exists err,
    GeneratePreset (statusWorld 403) "org/model" "hf_secret" =
    (Err err, ["https://huggingface.co/api/models/org/model/tree/main?recursive=true"]).
Proof.
  destruct (returned_preset_never_flags_auth (statusWorld 403) "org/model" "hf_secret")
    as [_ H].
  apply (H 403 (Ok "")); [discriminate|reflexivity|reflexivity|reflexivity].
Defined.

(** X5.  The fields a run leaves as [NewGenerator] set them: in a returned
    preset the name is [strings.ToLower] of the last segment of the
    repository path (for a segment that is all ASCII: the segment with
    the bytes ['A'] to ['Z'] lowered, which holds no ["/"]), the model
    name of the vLLM section is that name, the type is ["tfs"], the
    version is the page of the repository and the model is downloaded at
    run time. *)
Theorem returned_preset_identity (w : World) (modelRepo token : string)
    (p : PresetParam) (reqs : list string) :
  GeneratePreset w modelRepo token = (Ok p, reqs) ->
  let segment := List.last (SplitSlash modelRepo) "" in
  Name (Metadata_ p) = ToLower w segment /\
  (isASCII segment = true ->
     Name (Metadata_ p) = lowerASCII segment /\
     noSlash (Name (Metadata_ p)) = true /\
     noUpper (Name (Metadata_ p)) = true) /\
  ModelName (VLLM p) = Name (Metadata_ p) /\
  ModelType (Metadata_ p) = "tfs" /\
  Version (Metadata_ p) = "https://huggingface.co/" +:+ modelRepo /\
  DownloadAtRuntime (Metadata_ p) = true.
Proof.
  intros Hrun. cbv zeta.
  destruct (GeneratePreset_run w modelRepo token p reqs Hrun)
    as (_ & files & d & config & _ & -> & _).
  split; [reflexivity|]. split; [|repeat split; reflexivity].
  change (Name _) with (ToLower w (List.last (SplitSlash modelRepo) "")).
  intros Hascii. rewrite (ToLower_ASCII w _ Hascii).
  split; [reflexivity|].
  split; [rewrite noSlash_lowerASCII; apply noSlash_last_SplitSlash|].
  apply noUpper_lowerASCII.
Qed.

Lemma returned_preset_identity_witness :
  exists p reqs,
    GeneratePreset (servingWorld mixedTree gqaConfig) "Org/Model-7B" "" = (Ok p, reqs) /\
    Name (Metadata_ p) = "model-7b" /\
    Version (Metadata_ p) = "https://huggingface.co/Org/Model-7B".
Proof.
  destruct (GeneratePreset (servingWorld mixedTree gqaConfig) "Org/Model-7B" "")
    as [[p|err] reqs] eqn:Hrun; [|vm_compute in Hrun; discriminate].
  exists p, reqs. split; [reflexivity|].
  destruct (returned_preset_identity _ _ _ p reqs Hrun) as (_ & H1 & _ & _ & H2 & _).
  destruct H1 as (H1 & _); [reflexivity|].
  split; [rewrite H1; reflexivity|exact H2].
Defined.

(** ** The format classifier, continued *)

Lemma isVendor_isWeight (f : FileInfo) : isVendor f = true -> isWeight f = true.
Proof.
  unfold isVendor, isWeight. intros H.
  apply mistralRegex_spec in H as (a & b & c & -> & _).
  assert (Hs : MatchString safetensorRegex
                 (a +:+ "consolidated" +:+ b +:+ ".safetensors" +:+ c) = true).
  { apply safetensorRegex_spec. exists (a +:+ "consolidated" +:+ b), c.
    rewrite !append_assoc. reflexivity. }
  rewrite Hs. reflexivity.
Qed.

Lemma isWeight_spec (f : FileInfo) : isWeight f = false <-> noWeightPath (Path f).
Proof.
  unfold isWeight, noWeightPath. rewrite orb_false_iff. split.
  - intros [Hs Hb] a c. split; intros Heq.
    + assert (H : MatchString safetensorRegex (Path f) = true)
        by (apply safetensorRegex_spec; eauto).
      congruence.
    + assert (H : MatchString binRegex (Path f) = true)
        by (apply binRegex_spec; eauto).
      congruence.
  - intros H. split.
    + destruct (MatchString safetensorRegex (Path f)) eqn:E; [|reflexivity].
      apply safetensorRegex_spec in E as (a & c & E). destruct (H a c). contradiction.
    + destruct (MatchString binRegex (Path f)) eqn:E; [|reflexivity].
      apply binRegex_spec in E as (a & c & E). destruct (H a c). contradiction.
Qed.

Lemma filter_length_zero {A : Type} (p : A -> bool) (l : list A) :
  (0 <? length (List.filter p l))%nat = false <-> forall x, x ∈ l -> p x = false.
Proof.
  split.
  - intros H x Hx. destruct (p x) eqn:Hp; [|reflexivity].
    rewrite (filter_nonempty p l x Hx Hp) in H. discriminate.
  - intros H. rewrite (filter_empty p l H). reflexivity.
Qed.

Lemma detectFormat_None (lf cf tm : string) (files : list FileInfo) :
  detectFormat lf cf tm files = None <-> forall f, f ∈ files -> isWeight f = false.
Proof.
  unfold detectFormat. rewrite filterFiles_spec. split.
  - destruct (0 <? length (List.filter isVendor files))%nat; [discriminate|].
    destruct (0 <? length (List.filter isWeight files))%nat eqn:Hw; [discriminate|].
    intros _. apply filter_length_zero. exact Hw.
  - intros H.
    rewrite (proj2 (filter_length_zero isWeight files) H).
    assert (Hv : forall f, f ∈ files -> isVendor f = false).
    { intros f Hf. destruct (isVendor f) eqn:E; [|reflexivity].
      rewrite <- (H f Hf). symmetry. apply isVendor_isWeight. exact E. }
    rewrite (proj2 (filter_length_zero isVendor files) Hv). reflexivity.
Qed.

(** X6.  The classifier finds no format exactly when no path of the
    listing holds [.safetensors] or [.bin], whatever formats the
    generator starts from.  A run whose listing is of that kind fails
    with ["no .safetensors or .bin files found"] after the listing
    request: the configuration file is never asked for. *)
Theorem no_weight_files_error (files : list FileInfo) :
  (forall lf cf tm,
     detectFormat lf cf tm files = None <->
     forall f, f ∈ files -> noWeightPath (Path f)) /\
  (forall w modelRepo token body,
     modelRepo <> "" ->
     newRequestError w (listingURL modelRepo) = None ->
     roundTrip w (listingURL modelRepo) (getAuthHeader w (NewGenerator w modelRepo token))
       = Response 200 (Ok body) ->
     unmarshalFiles w body = Ok files ->
     (forall f, f ∈ files -> noWeightPath (Path f)) ->
     GeneratePreset w modelRepo token =
     (Err "no .safetensors or .bin files found", [listingURL modelRepo])).
Proof.
  split.
  - intros lf cf tm. rewrite detectFormat_None.
    split; intros H f Hf; apply isWeight_spec, H, Hf.
  - intros w modelRepo token body Hne Hreq Hrt Hfiles Hno.
    assert (Hd : forall lf cf tm, detectFormat lf cf tm files = None).
    { intros lf cf tm. apply detectFormat_None.
      intros f Hf. apply isWeight_spec, Hno, Hf. }
    unfold GeneratePreset. apply String.eqb_neq in Hne. rewrite Hne.
    unfold Generate, FetchModelMetadata.
    assert (H1 : fetchURL w (listingURL modelRepo)
                   {| gen := NewGenerator w modelRepo token; requests := [] |} =
                 (Ok body, {| gen := NewGenerator w modelRepo token;
                              requests := [listingURL modelRepo] |})).
    { apply fetchURL_ok_iff. repeat split; assumption. }
    change (ModelRepo (gen {| gen := NewGenerator w modelRepo token; requests := [] |}))
      with modelRepo.
    rewrite H1, Hfiles, Hd. reflexivity.
Qed.

Lemma no_weight_files_error_witness :
  GeneratePreset (servingWorld docsOnlyTree gqaConfig) "org/model" "" =
  (Err "no .safetensors or .bin files found",
   ["https://huggingface.co/api/models/org/model/tree/main?recursive=true"]).
Proof.
  destruct (no_weight_files_error docsOnlyTree) as [Hdetect Hrun].
  apply (Hrun (servingWorld docsOnlyTree gqaConfig) "org/model" "" "");
    [discriminate|reflexivity|reflexivity|reflexivity|].
  apply Hdetect with (lf := "auto") (cf := "auto") (tm := "auto").
  reflexivity.
Defined.

Lemma detectFormat_formats (files : list FileInfo) (d : Detected) :
  detectFormat "auto" "auto" "auto" files = Some d ->
  dLoadFormat d = formatOf files /\
  dConfigFormat d = formatOf files /\
  dTokenizerMode d = formatOf files /\
  dConfigFile d = (if existsb isVendor files then "params.json" else "config.json").
Proof.
  unfold detectFormat, formatOf. rewrite filterFiles_spec.
  destruct (existsb isVendor files) eqn:Hv.
  - apply existsb_exists in Hv as (f & Hin & Hf).
    rewrite (filter_nonempty isVendor files f (proj2 (list_elem_of_In _ _) Hin) Hf).
    intros [= <-]. repeat split; reflexivity.
  - assert (Hnone : forall f, f ∈ files -> isVendor f = false).
    { intros f Hf. destruct (isVendor f) eqn:E; [|reflexivity].
      rewrite <- Hv. symmetry. apply existsb_exists. exists f.
      split; [apply list_elem_of_In; exact Hf|exact E]. }
    rewrite (filter_empty isVendor files Hnone).
    change (0 <? length (@nil FileInfo))%nat with false. cbv iota.
    destruct (0 <? length (List.filter isWeight files))%nat; [|discriminate].
    intros [= <-]. repeat split; reflexivity.
Qed.

(** X7.  The run parameters of a returned preset are exactly the three
    entries [load_format], [config_format] and [tokenizer_mode], all
    three with the same value: ["mistral"] when a file of the listing
    matches the vendor pattern, ["auto"] otherwise.  The second request
    is for [params.json] in the first case and for [config.json] in the
    second. *)
Theorem run_params_follow_format (w : World) (modelRepo token : string)
    (p : PresetParam) (reqs : list string) :
  GeneratePreset w modelRepo token = (Ok p, reqs) ->
  exists body files,
    roundTrip w (listingURL modelRepo) (getAuthHeader w (NewGenerator w modelRepo token))
      = Response 200 (Ok body) /\
    unmarshalFiles w body = Ok files /\
    ModelRunParams (VLLM p) = Some (runParamsOf (formatOf files)) /\
    (forall key, is_Some (runParamsOf (formatOf files) !! key) <->
                 key = "load_format" \/ key = "config_format" \/ key = "tokenizer_mode") /\
    (formatOf files = "mistral" <->
     exists f, f ∈ files /\ MatchString mistralRegex (Path f) = true) /\
    (formatOf files = "auto" \/ formatOf files = "mistral") /\
    reqs = [listingURL modelRepo;
            configURL modelRepo
              (if existsb isVendor files then "params.json" else "config.json")].
Proof.
  intros Hrun.
  destruct (GeneratePreset_run w modelRepo token p reqs Hrun)
    as (_ & files & d & config & Hserved & -> & ->).
  destruct Hserved as (body & configBody & _ & Hrt & Hfiles & Hd & _).
  destruct (detectFormat_formats files d Hd) as (H1 & H2 & H3 & H4).
  exists body, files.
  split; [exact Hrt|]. split; [exact Hfiles|]. split; [|split; [|split; [|split]]].
  - cbn. rewrite H1, H2, H3. reflexivity.
  - intros key. unfold runParamsOf. rewrite !lookup_insert_is_Some, lookup_empty.
    split.
    + intros [<- | (_ & [<- | (_ & [<- | (_ & H)])])]; auto. destruct H; discriminate.
    + intros [-> | [-> | ->]].
      * right. split; [discriminate|]. right. split; [discriminate|]. left. reflexivity.
      * right. split; [discriminate|]. left. reflexivity.
      * left. reflexivity.
  - unfold formatOf. destruct (existsb isVendor files) eqn:Hv.
    + split; [intros _|reflexivity].
      apply existsb_exists in Hv as (f & Hin & Hf).
      exists f. split; [apply list_elem_of_In; exact Hin|exact Hf].
    + split; [discriminate|]. intros (f & Hin & Hf). exfalso.
      assert (existsb isVendor files = true); [|congruence].
      apply existsb_exists. exists f. split; [apply list_elem_of_In; exact Hin|exact Hf].
  - unfold formatOf. destruct (existsb isVendor files); auto.
  - rewrite H4. reflexivity.
Qed.

Lemma run_params_follow_format_witness :
  exists p reqs,
    GeneratePreset (servingWorld mixedVendorTree gqaConfig) "org/model" "" = (Ok p, reqs) /\
    ModelRunParams (VLLM p) = Some (runParamsOf "mistral") /\
    reqs = ["https://huggingface.co/api/models/org/model/tree/main?recursive=true";
            "https://huggingface.co/org/model/resolve/main/params.json"].
Proof.
  destruct (GeneratePreset (servingWorld mixedVendorTree gqaConfig) "org/model" "")
    as [[p|err] reqs] eqn:Hrun; [|vm_compute in Hrun; discriminate].
  exists p, reqs. split; [reflexivity|].
  destruct (run_params_follow_format _ _ _ p reqs Hrun)
    as (body & files & _ & Hfiles & Hparams & _ & _ & _ & Hreqs).
  unfold servingWorld in Hfiles. cbn [unmarshalFiles] in Hfiles.
  injection Hfiles as <-. split; [exact Hparams|exact Hreqs].
Defined.

(** ** The errors of a run *)

Lemma detectFormat_configFile (lf cf tm : string) (files : list FileInfo) (d : Detected) :
  detectFormat lf cf tm files = Some d ->
  dConfigFile d = "config.json" \/ dConfigFile d = "params.json".
Proof.
  unfold detectFormat. destruct (filterFiles files) as [selected vendor].
  destruct (0 <? length vendor)%nat; [intros [= <-]; right; reflexivity|].
  destruct (0 <? length selected)%nat; [intros [= <-]; left; reflexivity|discriminate].
Qed.

(** X8.  The errors of a run.  An empty repository name fails before any
    request.  Otherwise a failed run reports one of five messages:
    ["error listing files: ..."] after no or one request,
    ["error parsing file list: ..."] and
    ["no .safetensors or .bin files found"] after the listing request,
    ["error fetching config: ..."] after one or two requests, and
    ["error parsing config: ..."] after both; the configuration file is
    [config.json] or [params.json]. *)
Theorem GeneratePreset_error_catalogue (w : World) (modelRepo token : string)
    (e : string) (reqs : list string) :
  GeneratePreset w modelRepo token = (Err e, reqs) ->
  let listing := listingURL modelRepo in
  (modelRepo = "" /\ e = "model repo is required" /\ reqs = []) \/
  (modelRepo <> "" /\
   ((exists cause, e = "error listing files: " +:+ cause /\
                   (reqs = [] \/ reqs = [listing])) \/
    (exists cause, e = "error parsing file list: " +:+ cause /\ reqs = [listing]) \/
    (e = "no .safetensors or .bin files found" /\ reqs = [listing]) \/
    (exists cause configFile,
        e = "error fetching config: " +:+ cause /\
        (configFile = "config.json" \/ configFile = "params.json") /\
        (reqs = [listing] \/ reqs = [listing; configURL modelRepo configFile])) \/
    (exists cause configFile,
        e = "error parsing config: " +:+ cause /\
        (configFile = "config.json" \/ configFile = "params.json") /\
        reqs = [listing; configURL modelRepo configFile]))).
Proof.
  cbv zeta. unfold GeneratePreset.
  destruct (String.eqb_spec modelRepo "") as [->|Hne].
  { intros [= <- <-]. left. repeat split; reflexivity. }
  intros Hrun. right. split; [exact Hne|]. revert Hrun.
  unfold Generate, FetchModelMetadata.
  change (ModelRepo (gen {| gen := NewGenerator w modelRepo token; requests := [] |}))
    with modelRepo.
  pose proof (fetchURL_requests w (listingURL modelRepo)
                {| gen := NewGenerator w modelRepo token; requests := [] |}) as Hq1.
  destruct (fetchURL w (listingURL modelRepo) _) as [[body|err] st1] eqn:H1.
  2: { intros [= <- <-]. left. exists err. split; [reflexivity|].
       cbn [snd requests] in Hq1. rewrite Hq1.
       destruct (newRequestError w (listingURL modelRepo)); [left|right]; reflexivity. }
  clear Hq1. apply fetchURL_ok_iff in H1 as (_ & _ & ->). cbn [gen requests app].
  destruct (unmarshalFiles w body) as [files|err].
  2: { intros [= <- <-]. right. left. exists err. split; reflexivity. }
  destruct (detectFormat _ _ _ files) as [d|] eqn:Hd.
  2: { intros [= <- <-]. right. right. left. split; reflexivity. }
  pose proof (detectFormat_configFile _ _ _ files d Hd) as Hfile.
  match goal with |- context [fetchURL w ?u ?s] =>
    pose proof (fetchURL_requests w u s) as Hq2;
    destruct (fetchURL w u s) as [[configBody|err] st2] eqn:H2
  end.
  2: { intros [= <- <-]. right. right. right. left.
       exists err, (dConfigFile d). split; [reflexivity|]. split; [exact Hfile|].
       cbn [snd requests gen ModelRepo setParam setMetadata setFormats NewGenerator] in Hq2.
       rewrite Hq2.
       destruct (newRequestError w (configURL modelRepo (dConfigFile d)));
         [left|right]; reflexivity. }
  apply fetchURL_ok_iff in H2 as (_ & _ & ->). cbn [gen requests app].
  destruct (unmarshalConfig w configBody) as [config|err]; [discriminate|].
  intros [= <- <-]. right. right. right. right.
  exists err, (dConfigFile d). split; [reflexivity|]. split; [exact Hfile|reflexivity].
Qed.

Lemma GeneratePreset_error_catalogue_witness :
  GeneratePreset (statusWorld 404) "org/model" "" =
  (Err ("error listing files: " +:+
        "failed to fetch https://huggingface.co/api/models/org/model/tree/main?recursive=true: status 404"),
   ["https://huggingface.co/api/models/org/model/tree/main?recursive=true"]).
Proof.
  destruct (GeneratePreset (statusWorld 404) "org/model" "") as [[p|e] reqs] eqn:Hrun;
    [vm_compute in Hrun; discriminate|].
  destruct (GeneratePreset_error_catalogue _ _ _ e reqs Hrun)
    as [(Hrepo & _)|(_ & _)]; [discriminate Hrepo|].
  vm_compute in Hrun. injection Hrun as <- <-. reflexivity.
Defined.

(** ** The architectures *)

Lemma archStrings_omap (arch : list value) : archStrings arch = omap asString arch.
Proof.
  induction arch as [|v arch IH]; [reflexivity|].
  destruct v; cbn [archStrings omap list_omap asString]; rewrite ?IH; reflexivity.
Qed.

Lemma parseArchitectures_declared (config : gmap string value) (name : string) :
  parseArchitectures config name =
  match declaredArchitectures config with
  | [] =>
      if HasPrefix name "mistral-large-3" then ["MistralLarge3ForCausalLM"]
      else if HasPrefix name "ministral-3" then ["Mistral3ForConditionalGeneration"]
      else []
  | archs => archs
  end.
Proof.
  unfold parseArchitectures, declaredArchitectures.
  destruct (config !! "architectures") as [[| | | | |arch|]|];
    try (cbn [length Nat.eqb];
         destruct (HasPrefix name "mistral-large-3"); [reflexivity|];
         destruct (HasPrefix name "ministral-3"); reflexivity).
  rewrite archStrings_omap. destruct (omap asString arch) as [|a l]; cbn [length Nat.eqb].
  - destruct (HasPrefix name "mistral-large-3"); [reflexivity|].
    destruct (HasPrefix name "ministral-3"); reflexivity.
  - reflexivity.
Qed.

(** X9.  The architectures of a returned preset are the strings of the
    array [architectures] of the configuration document the hub served
    to the run (the body answered for the configuration file, parsed),
    in their order, entries that are no strings being skipped.  Only
    when there is none does the name decide: [mistral-large-3...] and
    [ministral-3...] get their architecture, every other name gets none.
    The token limit is the value [getInt] reads from the five keys of
    that document, 2048 when it has none of them. *)
Theorem preset_architectures (w : World) (modelRepo token : string)
    (p : PresetParam) (reqs : list string) :
  GeneratePreset w modelRepo token = (Ok p, reqs) ->
  exists files d config,
    served w modelRepo token files d config /\
    let declared := declaredArchitectures config in
    let name := Name (Metadata_ p) in
    (declared <> [] -> Architectures (Metadata_ p) = declared) /\
    (declared = [] ->
     Architectures (Metadata_ p) =
       if HasPrefix name "mistral-large-3" then ["MistralLarge3ForCausalLM"]
       else if HasPrefix name "ministral-3" then ["Mistral3ForConditionalGeneration"]
       else []) /\
    (forall arch, arch ∈ declared <->
       exists arr, config !! "architectures" = Some (VArray arr) /\ VString arch ∈ arr) /\
    ModelTokenLimit (Metadata_ p) = getInt config ModelTokenLimitKeys 2048 /\
    ((forall key, key ∈ ModelTokenLimitKeys -> config !! key = None) ->
     ModelTokenLimit (Metadata_ p) = 2048).
Proof.
  intros Hrun.
  destruct (GeneratePreset_run w modelRepo token p reqs Hrun)
    as (_ & files & d & config & Hserved & -> & _).
  exists files, d, config. split; [exact Hserved|]. cbv zeta.
  change (Architectures _) with
    (parseArchitectures config (ToLower w (List.last (SplitSlash modelRepo) ""))).
  change (Name _) with (ToLower w (List.last (SplitSlash modelRepo) "")).
  change (ModelTokenLimit _) with (getInt config ModelTokenLimitKeys 2048).
  rewrite parseArchitectures_declared.
  split; [|split; [|split; [|split]]].
  - intros Hne. destruct (declaredArchitectures config); [contradiction|reflexivity].
  - intros ->. reflexivity.
  - intros arch. unfold declaredArchitectures.
    destruct (config !! "architectures") as [v|].
    2: { split; [intros H; inversion H|intros (arr' & [=] & _)]. }
    destruct v as [| | | | |arr|].
    6: { rewrite list_elem_of_omap. split.
         - intros (v & Hin & Hv). exists arr. split; [reflexivity|].
           destruct v; try discriminate. injection Hv as <-. exact Hin.
         - intros (arr' & [= <-] & Hin). exists (VString arch).
           split; [exact Hin|reflexivity]. }
    all: split; [intros H; inversion H|intros (arr' & [=] & _)].
  - reflexivity.
  - intros Hnone. apply getInt_no_yield. apply Forall_forall.
    intros key Hkey. unfold yields. rewrite (Hnone key Hkey). reflexivity.
Qed.

Lemma preset_architectures_witness :
  exists p reqs,
    GeneratePreset (servingWorld mixedTree mixedArchConfig) "mistralai/Ministral-3-8B" ""
      = (Ok p, reqs) /\
    Architectures (Metadata_ p) = ["LlamaForCausalLM"] /\
    ModelTokenLimit (Metadata_ p) = 2048.
Proof.
  destruct (GeneratePreset (servingWorld mixedTree mixedArchConfig)
              "mistralai/Ministral-3-8B" "") as [[p|e] reqs] eqn:Hrun;
    [|vm_compute in Hrun; discriminate].
  exists p, reqs. split; [reflexivity|].
  destruct (preset_architectures _ _ _ p reqs Hrun)
    as (files & d & config & Hserved & Hdecl & _ & _ & _ & Hlimit).
  destruct Hserved as (body & configBody & _ & _ & _ & _ & _ & _ & Hc).
  unfold servingWorld in Hc. cbn [unmarshalConfig] in Hc. injection Hc as <-.
  split.
  - rewrite Hdecl; [reflexivity|discriminate].
  - apply Hlimit. intros key Hkey.
    assert (HF : Forall (fun key => mixedArchConfig !! key = None) ModelTokenLimitKeys)
      by (apply (bool_decide_unpack _); vm_compute; exact I).
    rewrite Forall_forall in HF. exact (HF key Hkey).
Defined.


(** ** The parser selector, continued *)

Lemma String_prefix_cons (a b : ascii) (s1 s2 : string) :
  String.prefix (String a s1) (String b s2) = true <-> a = b /\ String.prefix s1 s2 = true.
Proof.
  simpl. destruct (ascii_dec a b) as [->|Hne]; split; intros H.
  - split; [reflexivity|exact H].
  - apply H.
  - discriminate H.
  - destruct H as [H _]. contradiction.
Qed.

Lemma HasPrefix_shorter (name q p : string) :
  HasPrefix name q = true -> HasPrefix name p = true ->
  (String.length q <= String.length p)%nat ->
  HasPrefix p q = true.
Proof.
  unfold HasPrefix. revert name p.
  induction q as [|a q IH]; intros name p Hq Hp Hlen; [destruct p; reflexivity|].
  destruct name as [|b name]; [discriminate|].
  apply String_prefix_cons in Hq as [-> Hq].
  destruct p as [|c p]; [simpl in Hlen; lia|].
  apply String_prefix_cons in Hp as [-> Hp].
  apply String_prefix_cons. split; [reflexivity|].
  apply (IH name p Hq Hp). simpl in Hlen. lia.
Qed.

Lemma String_prefix_le (q p : string) : String.prefix q p = true -> String.le q p.
Proof.
  unfold String.le, String.leb. revert p.
  induction q as [|a q IH]; intros p H.
  - destruct p; exact I.
  - destruct p as [|b p]; [discriminate|].
    apply String_prefix_cons in H as [-> H]. simpl.
    unfold Ascii.compare. rewrite N.compare_refl. apply IH. exact H.
Qed.

(** Two prefixes of a name: one is a prefix of the other. *)
Lemma HasPrefix_comparable (name a b : string) :
  HasPrefix name a = true -> HasPrefix name b = true ->
  HasPrefix a b = true \/ HasPrefix b a = true.
Proof.
  intros Ha Hb.
  destruct (Nat.le_ge_cases (String.length a) (String.length b)) as [H|H].
  - right. apply (HasPrefix_shorter name a b Ha Hb H).
  - left. apply (HasPrefix_shorter name b a Hb Ha H).
Qed.

Lemma selectReasoningParser_unique (m : gmap string string) (order : list string)
    (name current k : string) :
  k ∈ order -> HasPrefix name k = true ->
  (forall q, q ∈ order -> HasPrefix name q = true -> q = k) ->
  selectReasoningParser m order name current = mapIndex m k.
Proof.
  induction order as [|x order IH]; intros Hin Hk Huniq; [inversion Hin|].
  simpl. destruct (HasPrefix name x) eqn:Hx.
  - rewrite (Huniq x) by (try left; assumption). reflexivity.
  - apply elem_of_cons in Hin as [->|Hin]; [congruence|].
    apply IH; [exact Hin|exact Hk|].
    intros q Hq. apply Huniq. right. exact Hq.
Qed.

Lemma selectReasoningParser_no_match (m : gmap string string) (order : list string)
    (name current : string) :
  (forall q, q ∈ order -> HasPrefix name q = false) ->
  selectReasoningParser m order name current = current.
Proof.
  induction order as [|x order IH]; intros Hno; [reflexivity|].
  simpl. rewrite (Hno x) by left. apply IH. intros q Hq. apply Hno. right. exact Hq.
Qed.

(** No key of [reasoningParserMap] is a prefix of another. *)
Lemma reasoningParserTable_prefix_free (a b : string) :
  a ∈ reasoningParserTable.*1 -> b ∈ reasoningParserTable.*1 ->
  HasPrefix a b = true -> a = b.
Proof.
  assert (HF : Forall (fun a => Forall (fun b => HasPrefix a b = true -> a = b)
                                  (reasoningParserTable.*1))
                      (reasoningParserTable.*1))
    by (apply (bool_decide_unpack _); vm_compute; exact I).
  rewrite Forall_forall in HF. intros Ha Hb.
  specialize (HF a Ha). rewrite Forall_forall in HF. exact (HF b Hb).
Qed.

Lemma reasoning_match_unique (name k1 k2 : string) :
  k1 ∈ reasoningParserTable.*1 -> k2 ∈ reasoningParserTable.*1 ->
  HasPrefix name k1 = true -> HasPrefix name k2 = true -> k1 = k2.
Proof.
  intros H1 H2 Hp1 Hp2.
  destruct (HasPrefix_comparable name k1 k2 Hp1 Hp2) as [H|H].
  - apply reasoningParserTable_prefix_free; assumption.
  - symmetry. apply reasoningParserTable_prefix_free; assumption.
Qed.

(** X10.  The reasoning parser does not depend on the order in which the
    [range] yields the keys of [reasoningParserMap], although the loop
    stops at the first match: no key is a prefix of another, so at most
    one key is a prefix of a name.  The parser is the entry of that key,
    and stays as it was when there is none. *)
Theorem reasoningParser_order_independent (order : list string) (name current : string) :
  order ≡ₚ reasoningParserTable.*1 ->
  (forall k1 k2, k1 ∈ order -> k2 ∈ order ->
     HasPrefix name k1 = true -> HasPrefix name k2 = true -> k1 = k2) /\
  (forall k, k ∈ order -> HasPrefix name k = true ->
     selectReasoningParser reasoningParserMap order name current =
     mapIndex reasoningParserMap k) /\
  ((forall k, k ∈ order -> HasPrefix name k = false) ->
     selectReasoningParser reasoningParserMap order name current = current) /\
  selectReasoningParser reasoningParserMap order name current =
  selectReasoningParser reasoningParserMap (reasoningParserTable.*1) name current /\
  (forall w g,
     reasoningOrder w = order -> Name (Metadata_ (Param g)) = name ->
     ReasoningParser (Metadata_ (Param g)) = current ->
     ReasoningParser (Metadata_ (Param (ParseModelMetadata w g))) =
     selectReasoningParser reasoningParserMap (reasoningParserTable.*1) name current).
Proof.
  intros Hperm.
  assert (Huniq : forall k1 k2, k1 ∈ order -> k2 ∈ order ->
            HasPrefix name k1 = true -> HasPrefix name k2 = true -> k1 = k2).
  { intros k1 k2 H1 H2. rewrite Hperm in H1, H2. apply reasoning_match_unique; assumption. }
  assert (Hsel : forall k, k ∈ order -> HasPrefix name k = true ->
            selectReasoningParser reasoningParserMap order name current =
            mapIndex reasoningParserMap k).
  { intros k Hk Hp. apply selectReasoningParser_unique; [exact Hk|exact Hp|].
    intros q Hq Hpq. apply Huniq; assumption. }
  assert (Hsame : selectReasoningParser reasoningParserMap order name current =
                  selectReasoningParser reasoningParserMap (reasoningParserTable.*1)
                    name current).
  { destruct (decide (Exists (fun k => HasPrefix name k = true) order)) as [Hex|Hno].
    - apply Exists_exists in Hex as (k & Hk & Hp).
      rewrite (Hsel k Hk Hp). symmetry.
      apply selectReasoningParser_unique; [rewrite <- Hperm; exact Hk|exact Hp|].
      intros q Hq Hpq. apply reasoning_match_unique with name; try assumption.
      rewrite <- Hperm. exact Hk.
    - assert (Hnone : forall q, q ∈ order -> HasPrefix name q = false).
      { intros q Hq. destruct (HasPrefix name q) eqn:E; [|reflexivity].
        exfalso. apply Hno. apply Exists_exists. exists q. split; assumption. }
      rewrite !selectReasoningParser_no_match; [reflexivity| |exact Hnone].
      intros q Hq. apply Hnone. rewrite Hperm. exact Hq. }
  split; [exact Huniq|]. split; [exact Hsel|].
  split; [apply selectReasoningParser_no_match|].
  split; [exact Hsame|].
  intros w g <- <- <-. exact Hsame.
Qed.

Lemma reasoningParser_order_independent_witness :
  selectReasoningParser reasoningParserMap (rev (reasoningParserTable.*1)) "qwen3-8b" ""
  = "qwen3".
Proof.
  destruct (reasoningParser_order_independent (rev (reasoningParserTable.*1))
              "qwen3-8b" "") as (_ & Hsel & _).
  { symmetry. apply Permutation_rev. }
  rewrite (Hsel "qwen3"); [reflexivity| |reflexivity].
  apply (bool_decide_unpack _). vm_compute. exact I.
Defined.

(** X11.  The tool-call parser is the entry of the longest key the name
    starts with: when [p] is a key that matches and no matching key is
    longer, the selection gives the entry of [p], whatever the order of
    the [range], and every other matching key is a prefix of [p]. *)
Theorem toolCallParser_longest_prefix (m : gmap string string) (order : list string)
    (name current p : string) :
  p ∈ order -> HasPrefix name p = true ->
  (forall q, q ∈ order -> HasPrefix name q = true ->
     (String.length q <= String.length p)%nat) ->
  selectToolCallParser m order name current = mapIndex m p /\
  (forall q, q ∈ order -> HasPrefix name q = true -> HasPrefix p q = true) /\
  (forall w g,
     m = toolCallParserMap -> toolCallOrder w = order ->
     Name (Metadata_ (Param g)) = name -> ToolCallParser (Metadata_ (Param g)) = current ->
     ToolCallParser (Metadata_ (Param (ParseModelMetadata w g))) =
     mapIndex toolCallParserMap p).
Proof.
  intros Hin Hp Hlong.
  assert (Hpre : forall q, q ∈ order -> HasPrefix name q = true -> HasPrefix p q = true).
  { intros q Hq Hpq. apply (HasPrefix_shorter name q p Hpq Hp). apply Hlong; assumption. }
  assert (Hsel : selectToolCallParser m order name current = mapIndex m p).
  { apply selectToolCallParser_last_match. split; [exact Hin|]. split; [exact Hp|].
    intros q Hq Hpq. apply String_prefix_le. apply (Hpre q Hq Hpq). }
  split; [exact Hsel|]. split; [exact Hpre|].
  intros w g -> <- <- <-. exact Hsel.
Qed.

Lemma toolCallParser_longest_prefix_witness :
  selectToolCallParser toolCallParserMap (rev (toolCallParserTable.*1))
    "deepseek-v3.1-base" "" = "deepseek_v31".
Proof.
  destruct (toolCallParser_longest_prefix toolCallParserMap (rev (toolCallParserTable.*1))
              "deepseek-v3.1-base" "" "deepseek-v3.1") as (Hsel & _).
  - apply (bool_decide_unpack _). vm_compute. exact I.
  - reflexivity.
  - assert (HF : Forall (fun q => HasPrefix "deepseek-v3.1-base" q = true ->
                           (String.length q <= String.length "deepseek-v3.1")%nat)
                        (rev (toolCallParserTable.*1)))
      by (apply (bool_decide_unpack _); vm_compute; exact I).
    rewrite Forall_forall in HF. exact HF.
  - rewrite Hsel. reflexivity.
Defined.

(** ** The attention analyzer, continued *)

Lemma wrap64_double_even (z : Z) : Z.even (wrap64 (z * 2)) = true.
Proof.
  unfold wrap64.
  replace (z * 2 + 2 ^ 63) with (2 * (z + 2 ^ 62)) by (change (2 ^ 63) with (2 * 2 ^ 62); lia).
  change (2 ^ 64) with (2 * 2 ^ 63).
  rewrite Z.mul_mod_distr_l by lia.
  replace (2 * ((z + 2 ^ 62) mod 2 ^ 63) - 2 ^ 63)
    with (2 * ((z + 2 ^ 62) mod 2 ^ 63 - 2 ^ 62)) by (change (2 ^ 63) with (2 * 2 ^ 62); lia).
  apply Z.even_mul.
Qed.

(** X12.  The attention type is one of ["MLA"], ["MHA"], ["MQA"], ["GQA"]
    and ["Unknown"]; it is ["MLA"] exactly when the document gives a
    [kv_lora_rank] other than -1; ["Unknown"] comes with 0 bytes per
    token; and the bytes per token are an even 64-bit integer for every
    document. *)
Theorem attention_type_labels (config : gmap string value) :
  let bytes := (calculateKVCacheTokenSize config).1 in
  let type := (calculateKVCacheTokenSize config).2 in
  type ∈ ["MLA"; "MHA"; "MQA"; "GQA"; "Unknown"] /\
  (type = "MLA" <-> getInt config ["kv_lora_rank"] (-1) <> -1) /\
  (type = "Unknown" -> bytes = 0) /\
  Z.even bytes = true /\
  in_int64 bytes.
Proof.
  cbv zeta. unfold calculateKVCacheTokenSize. cbn [fst snd].
  destruct (kvCacheLocals_reads config) as (_ & _ & _ & Hrank & _).
  destruct (kvCacheLocals_cases config) as [Hsize Hcases].
  rewrite <- Hrank.
  split; [|split; [|split; [|split]]].
  - destruct Hcases as [(_ & -> & _)|[(_ & _ & -> & _)|(_ & _ & -> & _)]].
    + set_solver.
    + destruct (_ =? _); [set_solver|]. destruct (_ =? _); set_solver.
    + set_solver.
  - destruct Hcases as [(Hr & -> & _)|[(Hr & _ & -> & _)|(Hr & _ & -> & _)]].
    + split; [intros _; exact Hr|reflexivity].
    + split; [|intros; contradiction].
      destruct (_ =? _); [discriminate|]. destruct (_ =? _); discriminate.
    + split; [discriminate|intros; contradiction].
  - intros Hu. rewrite Hsize.
    destruct Hcases as [(_ & Ht & _)|[(_ & _ & Ht & _)|(_ & _ & _ & ->)]].
    + rewrite Ht in Hu. discriminate.
    + rewrite Ht in Hu. destruct (_ =? _); [discriminate|].
      destruct (_ =? _); discriminate.
    + reflexivity.
  - rewrite Hsize. unfold int_mul at 1. apply wrap64_double_even.
  - rewrite Hsize. apply wrap64_in_range.
Qed.

Lemma multiQuery_spec (config : gmap string value) :
  multiQuery config = true <-> config !! "multi_query" = Some (VBool true).
Proof.
  unfold multiQuery. destruct (config !! "multi_query") as [[| [] | | | | |]|];
    split; congruence.
Qed.

(** X13.  The fall-backs of the analyzer.  A document without latent
    rank, without key/value heads and without [head_dim], whose hidden
    size is at least the number of attention heads (at most 2^20, like
    the number of layers): the head dimension is the hidden size divided
    by the number of heads; with [multi_query] true there is one
    key/value head and the type is ["MQA"] (["MHA"] for a single
    attention head), otherwise there are as many key/value heads as
    attention heads and the type is ["MHA"].  Only the boolean [true]
    counts for [multi_query]. *)
Theorem multi_query_fallback (config : gmap string value) :
  let heads := getInt config ["num_attention_heads"; "n_head"; "n_heads"] 0 in
  let hidden := getInt config ["hidden_size"; "n_embd"; "d_model"] 0 in
  let layers := getInt config ["num_hidden_layers"; "n_layer"; "n_layers"] 0 in
  getInt config ["kv_lora_rank"] (-1) = -1 ->
  getInt config ["num_key_value_heads"; "n_head_kv"; "n_kv_heads"] 0 = 0 ->
  getInt config ["head_dim"] 0 = 0 ->
  0 < heads -> heads <= hidden <= 2 ^ 20 -> 0 <= layers <= 2 ^ 20 ->
  calculateKVCacheTokenSize config =
    (if multiQuery config
     then (2 * 1 * (hidden / heads) * layers * 2, if heads =? 1 then "MHA" else "MQA")
     else (2 * heads * (hidden / heads) * layers * 2, "MHA")) /\
  (multiQuery config = true <-> config !! "multi_query" = Some (VBool true)).
Proof.
  cbv zeta. intros Hrank Hkv Hdim Hheads Hhidden Hlayers.
  split; [|apply multiQuery_spec].
  unfold calculateKVCacheTokenSize, kvCacheLocals. cbv zeta.
  rewrite Hrank, Hkv, Hdim.
  set (heads := getInt config ["num_attention_heads"; "n_head"; "n_heads"] 0) in *.
  set (hidden := getInt config ["hidden_size"; "n_embd"; "d_model"] 0) in *.
  set (layers := getInt config ["num_hidden_layers"; "n_layer"; "n_layers"] 0) in *.
  assert (Hpos : (0 <? heads) = true) by (apply Z.ltb_lt; exact Hheads).
  rewrite Hpos. change (-1 =? -1) with true. change (0 =? 0) with true.
  cbn [andb negb].
  assert (Hq : int_quo hidden heads = hidden / heads).
  { unfold int_quo. rewrite Z.quot_div_nonneg by lia.
    apply wrap64_exact. unfold in_int64, MinInt64, MaxInt64.
    pose proof (Z.div_pos hidden heads ltac:(lia) Hheads).
    pose proof (Z.div_le_upper_bound hidden heads (2 ^ 20) Hheads ltac:(nia)). lia. }
  rewrite Hq.
  assert (Hd : 1 <= hidden / heads <= 2 ^ 20).
  { split.
    - apply Z.div_le_lower_bound; lia.
    - apply Z.div_le_upper_bound; [lia|nia]. }
  assert (Hdpos : (0 <? hidden / heads) = true) by (apply Z.ltb_lt; lia).
  destruct (multiQuery config).
  - change (0 <? 1) with true. rewrite Hdpos. cbn [andb]. cbv beta iota.
    cbn [tokenSize attnType]. change (1 =? 1) with true. cbv iota.
    rewrite (int_mul_exact 2 1) by (unfold in_int64, MinInt64, MaxInt64; lia).
    rewrite (int_mul_exact (2 * 1)) by (unfold in_int64, MinInt64, MaxInt64; lia).
    rewrite (int_mul_exact (2 * 1 * _)) by (unfold in_int64, MinInt64, MaxInt64; nia).
    rewrite int_mul_exact by (unfold in_int64, MinInt64, MaxInt64; nia).
    reflexivity.
  - rewrite Hpos, Hdpos. cbn [andb]. rewrite Z.eqb_refl. cbv beta iota.
    cbn [tokenSize attnType].
    assert (Hprod : 1 <= heads * (hidden / heads) <= 2 ^ 20).
    { pose proof (Z.mul_div_le hidden heads Hheads). nia. }
    rewrite (int_mul_exact 2 heads) by (unfold in_int64, MinInt64, MaxInt64; lia).
    rewrite (int_mul_exact (2 * heads)) by (unfold in_int64, MinInt64, MaxInt64; lia).
    replace (2 * heads * (hidden / heads)) with (2 * (heads * (hidden / heads))) by lia.
    set (e := heads * (hidden / heads)) in *.
    rewrite (int_mul_exact (2 * e)) by (unfold in_int64, MinInt64, MaxInt64; nia).
    rewrite int_mul_exact by (unfold in_int64, MinInt64, MaxInt64; nia).
    reflexivity.
Qed.

Lemma multi_query_fallback_witness :
  calculateKVCacheTokenSize falconConfig = (8192, "MQA").
Proof.
  destruct (multi_query_fallback falconConfig) as [H _];
    [reflexivity|reflexivity|reflexivity|reflexivity|vm_compute; split; discriminate
    |vm_compute; split; discriminate|].
  rewrite H. reflexivity.
Defined.

(** ** The size of the selected files *)

Lemma wrap64_add_l (a b : Z) : wrap64 (wrap64 a + b) = wrap64 (a + b).
Proof.
  unfold wrap64. f_equal.
  replace ((a + 2 ^ 63) mod 2 ^ 64 - 2 ^ 63 + b + 2 ^ 63)
    with ((a + 2 ^ 63) mod 2 ^ 64 + b) by lia.
  rewrite Z.add_mod_idemp_l by lia. f_equal. lia.
Qed.

Lemma totalBytes_from (files : list FileInfo) (init : Z) :
  wrap64 (fold_left (fun total f => wrap64 (total + Size f)) files (wrap64 init)) =
  wrap64 (init + sumSizes files).
Proof.
  revert init. induction files as [|f files IH]; intros init.
  - simpl. rewrite Z.add_0_r. apply wrap64_exact, wrap64_in_range.
  - simpl. rewrite wrap64_add_l, IH. f_equal. lia.
Qed.

Lemma sumSizes_Permutation (l l' : list FileInfo) :
  l ≡ₚ l' -> sumSizes l = sumSizes l'.
Proof.
  induction 1 as [|x l l' _ IH|x y l|l l' l'' _ IH1 _ IH2]; simpl; lia.
Qed.

(** X14.  The total size of the files is the sum of their sizes reduced
    to 64 bits: the sum itself when it is in range, the same in whatever
    order the files are listed, and 0 for no file. *)
Theorem totalBytes_sum (files : list FileInfo) :
  totalBytes files = wrap64 (sumSizes files) /\
  (in_int64 (sumSizes files) -> totalBytes files = sumSizes files) /\
  (forall files', files ≡ₚ files' -> totalBytes files = totalBytes files') /\
  (Forall (fun f => 0 <= Size f) files -> 0 <= sumSizes files) /\
  totalBytes [] = 0.
Proof.
  assert (H : forall l, totalBytes l = wrap64 (sumSizes l)).
  { intros l. rewrite <- (wrap64_exact _ (totalBytes_in_range l)).
    exact (totalBytes_from l 0). }
  split; [apply H|]. split; [|split; [|split]].
  - intros Hin. rewrite H. apply wrap64_exact. exact Hin.
  - intros files' Hperm. rewrite !H, (sumSizes_Permutation _ _ Hperm). reflexivity.
  - induction 1 as [|f l Hf _ IH]; simpl; lia.
  - reflexivity.
Qed.

Lemma totalBytes_sum_witness :
  totalBytes mixedTree = 18 * 2 ^ 30 + 24576 /\ totalBytes (rev mixedTree) = totalBytes mixedTree.
Proof.
  destruct (totalBytes_sum mixedTree) as (_ & Hsum & Hperm & _).
  split.
  - rewrite Hsum; [reflexivity|]. vm_compute. split; discriminate.
  - symmetry. apply Hperm. apply Permutation_rev.
Defined.

(** ** The command [preset-generator] *)

Lemma Ceil_of_int (c : Z) : Z.abs c < 2 ^ 53 -> F64.Ceil (F64.of_int c) = F64.of_int c.
Proof.
  intros Hlt. destruct (Z.eq_dec c 0) as [->|Hc0]; [reflexivity|].
  assert (He : exactInt c) by (split; assumption).
  pose proof (exactInt_log2 c He) as Hl. destruct (mant_spec c He) as [Hm _].
  rewrite (of_int_exact c He) at 1. unfold F64.Ceil, F64.floor_mag, F64.ceil_mag, expo.
  change (Z.neg (mant c)) with (- Z.pos (mant c)). rewrite Hm.
  set (k := 52 - Z.log2 (Z.abs c)) in *.
  assert (Hk : 0 < 2 ^ k) by (apply Z.pow_pos_nonneg; lia).
  replace (Z.log2 (Z.abs c) - 52) with (- k) by lia.
  rewrite !Z.shiftl_opp_r, !Z.shiftr_div_pow2 by lia.
  rewrite <- Z.mul_opp_l, !Z.div_mul by lia.
  replace (if c <? 0 then - Z.abs c else - - Z.abs c) with c
    by (destruct (Z.ltb_spec c 0); lia).
  destruct (Z.eqb_spec c 0) as [H0|_]; [contradiction|reflexivity].
Qed.

(** X15.  The sizes in the document [main] writes for a returned preset:
    [model_file_size_gb] is a whole number [n] of GiB below 2^52 (the
    float [main] parses back from [ModelFileSize] is the one that was
    printed there), and [disk_storage_requirement] is [n + 50] followed
    by ["Gi"]. *)
Theorem main_document_sizes (w : World) (modelRepo token : string)
    (p : PresetParam) (reqs : list string) :
  GeneratePreset w modelRepo token = (Ok p, reqs) ->
  exists (szVal : spec_float) (n : Z),
    entry "model_file_size_gb" (out p) = Some (YFloat szVal) /\
    entry "disk_storage_requirement" (out p) =
      Some (YString (string_of_Z (n + 50) +:+ "Gi")) /\
    F64.to_int szVal = n /\ Z.abs n < 2 ^ 52 /\
    format_f0 szVal +:+ "Gi" = ModelFileSize (Metadata_ p) /\
    F64.Ceil szVal = szVal.
Proof.
  intros Hrun.
  destruct (GeneratePreset_ok w modelRepo token p reqs Hrun)
    as (files & d & config & _ & Hsize & Hdisk & _).
  destruct (modelFileSizeOf_shape (totalBytes (dSelectedFiles d)) (totalBytes_in_range _))
    as (body & Hbody & Hshape).
  rewrite Hbody in Hsize.
  assert (Hentry : entry "model_file_size_gb" (out p) =
                   Some (YFloat (default (S754_zero false) (ParseFloat body)))).
  { unfold out. cbv zeta. cbn [entry String.eqb Ascii.eqb Bool.eqb].
    rewrite Hsize, TrimSuffix_append. reflexivity. }
  assert (Hentry' : entry "disk_storage_requirement" (out p) =
                    Some (YString (storageSizeOf (body +:+ "Gi")))).
  { unfold out. cbv zeta. cbn [entry String.eqb Ascii.eqb Bool.eqb].
    rewrite Hdisk, Hsize. reflexivity. }
  rewrite Hentry, Hentry', Hsize.
  destruct Hshape as [(c & Hc & -> & _)|[-> _]].
  - exists (F64.of_int c), c.
    rewrite ParseFloat_string_of_Z. cbn [from_option]. unfold id.
    split; [reflexivity|]. split; [rewrite storageSizeOf_integer by exact Hc; reflexivity|].
    split; [apply to_int_of_int; lia|]. split; [exact Hc|].
    destruct (Z.eq_dec c 0) as [->|Hc0]; [split; reflexivity|].
    assert (He : exactInt c) by (split; [exact Hc0|lia]).
    split; [rewrite (format_f0_of_int c He); reflexivity|].
    apply Ceil_of_int. lia.
  - exists (S754_zero true), 0. repeat split; reflexivity.
Qed.

Lemma main_document_sizes_witness :
  exists p reqs,
    GeneratePreset (servingWorld mixedTree gqaConfig) "org/model" "" = (Ok p, reqs) /\
    entry "model_file_size_gb" (out p) = Some (YFloat (F64.of_int 9)) /\
    entry "disk_storage_requirement" (out p) = Some (YString "59Gi").
Proof.
  destruct (GeneratePreset (servingWorld mixedTree gqaConfig) "org/model" "")
    as [[p|err] reqs] eqn:Hrun; [|vm_compute in Hrun; discriminate].
  exists p, reqs. split; [reflexivity|].
  destruct (main_document_sizes _ _ _ p reqs Hrun)
    as (szVal & n & H1 & H2 & Hn & _ & _ & _).
  assert (Hsz : szVal = F64.of_int 9).
  { vm_compute in Hrun. injection Hrun as <- _.
    vm_compute in H1. injection H1 as <-. reflexivity. }
  subst szVal. split; [exact H1|].
  rewrite H2, <- Hn. reflexivity.
Defined.

(** X16.  What [main] does once the flags are parsed.  Without argument
    it prints the usage line to the standard output and exits with
    status 1, without any request.  When [GeneratePreset] fails for the
    first argument it prints ["Error: "] and the error to the standard
    error and exits with status 1 (an empty argument is refused so,
    before any request); when the document does not marshal it prints
    ["Error marshaling YAML: "] and the error and exits with status 1;
    in both cases nothing goes to the standard output.  Otherwise it
    prints the marshalled document and a line feed to the standard
    output, nothing to the standard error, and exits with status 0,
    after the two requests of the run.  So the status is 0 exactly when
    there is an argument, the preset is generated and the document
    marshals, and it is 1 otherwise. *)
Theorem main_exit_status (w : World) (Marshal : MapSlice -> result string)
    (token : string) (args : list string) :
  let r := main w Marshal token args in
  (args = [] ->
     r = {| exitCode := 1; stdout := "Usage: preset-generator <model_repo>" +:+ lineFeed;
            stderr := ""; requested := [] |}) /\
  (forall modelRepo rest err reqs,
     args = modelRepo :: rest ->
     GeneratePreset w modelRepo token = (Err err, reqs) ->
     r = {| exitCode := 1; stdout := ""; stderr := "Error: " +:+ err +:+ lineFeed;
            requested := reqs |}) /\
  (forall modelRepo rest p reqs err,
     args = modelRepo :: rest ->
     GeneratePreset w modelRepo token = (Ok p, reqs) ->
     Marshal (out p) = Err err ->
     r = {| exitCode := 1; stdout := "";
            stderr := "Error marshaling YAML: " +:+ err +:+ lineFeed;
            requested := reqs |}) /\
  (forall modelRepo rest p reqs output,
     args = modelRepo :: rest ->
     GeneratePreset w modelRepo token = (Ok p, reqs) ->
     Marshal (out p) = Ok output ->
     r = {| exitCode := 0; stdout := output +:+ lineFeed; stderr := "";
            requested := reqs |} /\
     reqs = [listingURL modelRepo;
             configURL modelRepo
               (if String.eqb (mapIndex (default ∅ (ModelRunParams (VLLM p)))
                                 "load_format") "mistral"
                then "params.json" else "config.json")]) /\
  (forall rest, args = "" :: rest ->
     r = {| exitCode := 1; stdout := "";
            stderr := "Error: model repo is required" +:+ lineFeed; requested := [] |}) /\
  (exitCode r = 0 <->
   exists modelRepo rest p reqs output,
     args = modelRepo :: rest /\
     GeneratePreset w modelRepo token = (Ok p, reqs) /\
     Marshal (out p) = Ok output) /\
  (exitCode r <> 0 -> exitCode r = 1) /\
  (stdout r = "" \/ stderr r = "").
Proof.
  cbv zeta. unfold main.
  destruct args as [|modelRepo rest].
  { split; [reflexivity|]. split; [discriminate|]. split; [discriminate|].
    split; [discriminate|]. split; [discriminate|]. cbn [exitCode stdout stderr].
    split.
    { split; [discriminate|]. intros (? & ? & ? & ? & ? & H & _). discriminate H. }
    split; [reflexivity|]. right. reflexivity. }
  split; [discriminate|].
  destruct (GeneratePreset w modelRepo token) as [[p|err] reqs] eqn:Hrun.
  - split; [intros m' rest' err' reqs' [= <- <-]; rewrite Hrun; discriminate|].
    destruct (GeneratePreset_run w modelRepo token p reqs Hrun)
      as (Hne & files & d & config & Hserved & Hp & Hreqs).
    destruct Hserved as (body & configBody & _ & _ & _ & Hd & _).
    destruct (detectFormat_formats files d Hd) as (H1 & _ & _ & H4).
    assert (Hfile : (if String.eqb (mapIndex (default ∅ (ModelRunParams (VLLM p)))
                                      "load_format") "mistral"
                     then "params.json" else "config.json") = dConfigFile d).
    { rewrite Hp, H4. cbn. rewrite H1. unfold formatOf.
      destruct (existsb isVendor files); reflexivity. }
    destruct (Marshal (out p)) as [output|err] eqn:Hm.
    + split.
      { intros m' rest' p' reqs' err' [= <- <-]. rewrite Hrun. intros [= <- <-].
        rewrite Hm. discriminate. }
      split.
      { intros m' rest' p' reqs' output' [= <- <-]. rewrite Hrun. intros [= <- <-].
        rewrite Hm. intros [= <-]. split; [reflexivity|].
        rewrite Hfile. exact Hreqs. }
      split; [intros rest' [= -> _]; contradiction|].
      cbn [exitCode stdout stderr]. split.
      { split; [intros _|reflexivity]. exists modelRepo, rest, p, reqs, output.
        repeat split; assumption. }
      split; [intros H; contradiction|]. right. reflexivity.
    + split.
      { intros m' rest' p' reqs' err' [= <- <-]. rewrite Hrun. intros [= <- <-].
        rewrite Hm. intros [= <-]. reflexivity. }
      split.
      { intros m' rest' p' reqs' output' [= <- <-]. rewrite Hrun. intros [= <- <-].
        rewrite Hm. discriminate. }
      split; [intros rest' [= -> _]; contradiction|].
      cbn [exitCode stdout stderr]. split.
      { split; [discriminate|].
        intros (m' & rest' & p' & reqs' & output' & [= <- <-] & Hrun' & Hm').
        rewrite Hrun in Hrun'. injection Hrun' as <- <-. congruence. }
      split; [reflexivity|]. left. reflexivity.
  - split; [intros m' rest' err' reqs' [= <- <-]; rewrite Hrun; intros [= <- <-];
            reflexivity|].
    split; [intros m' rest' p' reqs' err' [= <- <-]; rewrite Hrun; discriminate|].
    split; [intros m' rest' p' reqs' output' [= <- <-]; rewrite Hrun; discriminate|].
    split.
    { intros rest' [= -> _]. unfold GeneratePreset in Hrun. cbn in Hrun.
      injection Hrun as <- <-. reflexivity. }
    cbn [exitCode stdout stderr]. split.
    { split; [discriminate|].
      intros (m' & rest' & p' & reqs' & output' & [= <- <-] & Hrun' & _).
      rewrite Hrun in Hrun'. discriminate Hrun'. }
    split; [reflexivity|]. left. reflexivity.
Qed.

Lemma main_exit_status_witness :
  exitCode (main (servingWorld mixedTree gqaConfig) keysMarshal "" []) = 1 /\
  exitCode (main (servingWorld mixedTree gqaConfig) keysMarshal "" ["org/model"]) = 0 /\
  stderr (main (servingWorld mixedTree gqaConfig) keysMarshal "" [""]) =
    "Error: model repo is required" +:+ lineFeed.
Proof.
  split; [|split].
  - destruct (main_exit_status (servingWorld mixedTree gqaConfig) keysMarshal "" [])
      as (H & _).
    rewrite (H eq_refl). reflexivity.
  - destruct (main_exit_status (servingWorld mixedTree gqaConfig) keysMarshal ""
                ["org/model"]) as (_ & _ & _ & _ & _ & Hzero & _).
    apply Hzero.
    destruct (GeneratePreset (servingWorld mixedTree gqaConfig) "org/model" "")
      as [[p|e] reqs] eqn:Hrun; [|vm_compute in Hrun; discriminate].
    exists "org/model", [], p, reqs. eexists.
    split; [reflexivity|]. split; [exact Hrun|reflexivity].
  - destruct (main_exit_status (servingWorld mixedTree gqaConfig) keysMarshal "" [""])
      as (_ & _ & _ & _ & H & _).
    rewrite (H [] eq_refl). reflexivity.
Defined.

(** ** The model register *)

Section RegisterLemmas.
Context {M : Type}.
Implicit Types (reg : plugin.ModelRegister M) (r : plugin.Registration M).

Lemma Register_entries reg r reg' :
  plugin.Register reg r = Returns reg' ->
  plugin.Name r <> "" /\
  plugin.entries reg' = <[plugin.Name r := r]> (plugin.entries reg).
Proof.
  unfold plugin.Register, plugin.entries.
  destruct (String.eqb_spec (plugin.Name r) "") as [|Hne]; [discriminate|].
  intros [= <-]. split; [exact Hne|]. cbn.
  destruct (plugin.models reg); reflexivity.
Qed.

Lemma Register_returns reg r :
  plugin.Name r <> "" -> exists reg', plugin.Register reg r = Returns reg'.
Proof.
  intros Hne. unfold plugin.Register. apply String.eqb_neq in Hne. rewrite Hne.
  eexists. reflexivity.
Qed.

Lemma Has_ListModelNames reg name :
  plugin.Has reg name = true <-> name ∈ plugin.ListModelNames reg.
Proof.
  unfold plugin.Has, plugin.ListModelNames. rewrite list_elem_of_fmap. split.
  - destruct (plugin.entries reg !! name) as [r|] eqn:E; [|discriminate].
    intros _. exists (name, r). split; [reflexivity|].
    apply elem_of_map_to_list. exact E.
  - intros ([k r] & -> & Hin). apply elem_of_map_to_list in Hin.
    cbn. rewrite Hin. reflexivity.
Qed.

End RegisterLemmas.

(** X17.  The register.  [Register] panics on an empty name and on
    nothing else.  After registering under a name, [MustGet] gives the
    instance that was registered and [Has] is true for that name, every
    other name is looked up as before, and the names listed are the old
    ones and the new one, each once.  A name [MustGet] finds an instance
    for is one [Has] knows, and [Has] is true exactly for the names
    [ListModelNames] lists. *)
Theorem Register_MustGet {M : Type} (reg : plugin.ModelRegister M)
    (r : plugin.Registration M) :
  (plugin.Name r = "" -> plugin.Register reg r = Panics "model name is not specified") /\
  (plugin.Name r <> "" ->
   exists reg',
     plugin.Register reg r = Returns reg' /\
     plugin.MustGet reg' (plugin.Name r) = plugin.Instance r /\
     plugin.Has reg' (plugin.Name r) = true /\
     (forall name, name <> plugin.Name r ->
        plugin.MustGet reg' name = plugin.MustGet reg name /\
        plugin.Has reg' name = plugin.Has reg name) /\
     (forall name, name ∈ plugin.ListModelNames reg' <->
        name = plugin.Name r \/ name ∈ plugin.ListModelNames reg) /\
     NoDup (plugin.ListModelNames reg')) /\
  (forall name m, plugin.MustGet reg name = Some m -> plugin.Has reg name = true) /\
  (forall name, plugin.Has reg name = true <-> name ∈ plugin.ListModelNames reg).
Proof.
  split; [|split; [|split]].
  - intros H. unfold plugin.Register. rewrite H. reflexivity.
  - intros Hne. destruct (Register_returns reg r Hne) as [reg' Hreg].
    exists reg'. split; [exact Hreg|].
    destruct (Register_entries reg r reg' Hreg) as [_ He].
    assert (Hget : forall name, name <> plugin.Name r ->
              plugin.entries reg' !! name = plugin.entries reg !! name).
    { intros name Hn. rewrite He. apply lookup_insert_ne. congruence. }
    split; [|split; [|split; [|split]]].
    + unfold plugin.MustGet. rewrite He, lookup_insert_eq. reflexivity.
    + unfold plugin.Has. rewrite He, lookup_insert_eq. reflexivity.
    + intros name Hn. unfold plugin.MustGet, plugin.Has.
      rewrite (Hget name Hn). split; reflexivity.
    + intros name. rewrite <- !Has_ListModelNames. unfold plugin.Has.
      destruct (decide (name = plugin.Name r)) as [->|Hn].
      * rewrite He, lookup_insert_eq. split; [left; reflexivity|reflexivity].
      * rewrite (Hget name Hn). split; [right; assumption|].
        intros [H|H]; [contradiction|exact H].
    + unfold plugin.ListModelNames. apply NoDup_fst_map_to_list.
  - intros name m. unfold plugin.MustGet, plugin.Has.
    destruct (plugin.entries reg !! name); [reflexivity|discriminate].
  - apply Has_ListModelNames.
Qed.

Lemma Register_MustGet_witness :
  exists reg',
    plugin.Register noModels
      {| plugin.Name := "org/model"; plugin.Instance := Some (otherModel "m") |}
    = Returns reg' /\
    plugin.MustGet reg' "org/model" = Some (otherModel "m") /\
    plugin.MustGet reg' "org/other" = None.
Proof.
  destruct (Register_MustGet noModels
              {| plugin.Name := "org/model"; plugin.Instance := Some (otherModel "m") |})
    as (_ & H & _).
  destruct H as (reg' & Hreg & Hget & _ & Hother & _); [discriminate|].
  exists reg'. split; [exact Hreg|]. split; [exact Hget|].
  destruct (Hother "org/other") as [-> _]; [discriminate|reflexivity].
Defined.

(** ** [IsValidPreset] *)

Lemma HasPrefix_slash (s : string) :
  HasPrefix s "/" = match s with String c _ => Ascii.eqb c "/" | "" => false end.
Proof.
  destruct s as [|c s]; [reflexivity|]. unfold HasPrefix.
  destruct (Ascii.eqb_spec c "/") as [->|Hne].
  - apply String_prefix_cons. split; [reflexivity|destruct s; reflexivity].
  - destruct (String.prefix "/" (String c s)) eqn:E; [|reflexivity].
    apply String_prefix_cons in E as [E _]. congruence.
Qed.

Lemma Contains_slash (s : string) : Contains s "/" = negb (noSlash s).
Proof.
  induction s as [|c s IH]; [reflexivity|].
  cbn [Contains noSlash]. rewrite HasPrefix_slash, IH.
  destruct (Ascii.eqb c "/"); reflexivity.
Qed.

Lemma cutSlash_None (s : string) : cutSlash s = None <-> noSlash s = true.
Proof.
  induction s as [|c s IH]; [split; reflexivity|].
  cbn [cutSlash noSlash]. destruct (Ascii.eqb c "/"); cbn [negb andb].
  - split; discriminate.
  - rewrite <- IH. destruct (cutSlash s) as [[a b]|]; split; congruence.
Qed.

Lemma cutSlash_Some (s before after : string) :
  cutSlash s = Some (before, after) <->
  s = before +:+ "/" +:+ after /\ noSlash before = true.
Proof.
  revert before. induction s as [|c s IH]; intros before.
  - split; [discriminate|]. intros [H _]. destruct before; discriminate.
  - cbn [cutSlash]. destruct (Ascii.eqb_spec c "/") as [->|Hne].
    + split.
      * intros [= <- <-]. split; reflexivity.
      * intros [H Hno]. destruct before as [|b before]; cbn in H.
        { injection H as ->. reflexivity. }
        injection H as <- _. discriminate Hno.
    + split.
      * destruct (cutSlash s) as [[a b]|] eqn:E; [|discriminate].
        intros [= <- <-]. destruct (proj1 (IH a) eq_refl) as [-> Ha].
        split; [reflexivity|]. cbn [noSlash].
        apply Ascii.eqb_neq in Hne. rewrite Hne. exact Ha.
      * intros [H Hno]. destruct before as [|b before]; cbn in H.
        { injection H as -> _. contradiction. }
        injection H as <- ->. cbn [noSlash] in Hno.
        apply andb_true_iff in Hno as [_ Hno].
        rewrite (proj2 (IH before) (conj eq_refl Hno)). reflexivity.
Qed.

(** X18.  [IsValidPreset] accepts exactly the registered names and the
    names with text before their first ["/"] and text after it: more
    ["/"] after the first are accepted, a name that starts or ends at
    its only ["/"] is not. *)
Theorem IsValidPreset_spec {M : Type} (reg : plugin.ModelRegister M) (preset : string) :
  plugin.IsValidPreset reg preset = true <->
  plugin.Has reg preset = true \/
  exists owner rest,
    preset = owner +:+ "/" +:+ rest /\ noSlash owner = true /\
    owner <> "" /\ rest <> "".
Proof.
  unfold plugin.IsValidPreset.
  destruct (plugin.Has reg preset); [split; auto|].
  rewrite Contains_slash. unfold SplitN2.
  destruct (cutSlash preset) as [[before after]|] eqn:Hcut.
  - apply cutSlash_Some in Hcut as [-> Hno].
    rewrite noSlash_path. cbn [negb length Nat.eqb nth andb].
    split.
    + intros H. right. exists before, after.
      destruct (String.eqb_spec before "") as [|Hb]; [discriminate|].
      destruct (String.eqb_spec after "") as [|Ha]; [discriminate|].
      repeat split; assumption.
    + intros [H|(owner & rest & Heq & Hown & Hb & Ha)]; [discriminate|].
      assert (Hc : cutSlash (before +:+ "/" +:+ after) = Some (owner, rest))
        by (apply cutSlash_Some; split; assumption).
      rewrite (proj2 (cutSlash_Some _ before after) (conj eq_refl Hno)) in Hc.
      injection Hc as -> ->.
      apply String.eqb_neq in Hb, Ha. rewrite Hb, Ha. reflexivity.
  - apply cutSlash_None in Hcut. rewrite Hcut. cbn [negb].
    split; [discriminate|].
    intros [H|(owner & rest & -> & _)]; [discriminate|]. exfalso.
    rewrite noSlash_path in Hcut. discriminate.
Qed.

Lemma IsValidPreset_spec_witness :
  plugin.IsValidPreset noModels "Qwen/Qwen2.5-Coder-7B-Instruct" = true /\
  plugin.IsValidPreset noModels "/model" = false /\
  plugin.IsValidPreset noModels "org/" = false /\
  plugin.IsValidPreset noModels "a/b/c" = true.
Proof.
  split; [|split; [|split]].
  - apply IsValidPreset_spec. right. exists "Qwen", "Qwen2.5-Coder-7B-Instruct".
    repeat split; discriminate.
  - destruct (plugin.IsValidPreset noModels "/model") eqn:E; [|reflexivity].
    apply IsValidPreset_spec in E as [E|(owner & rest & Heq & Hno & Hown & _)];
      [discriminate|].
    destruct owner as [|c owner]; [contradiction|].
    cbn in Heq. injection Heq as <- _. discriminate Hno.
  - reflexivity.
  - apply IsValidPreset_spec. right. exists "a", "b/c". repeat split; discriminate.
Defined.

(** ** [GetModelByName] *)

Lemma builtinVLLMModels_keys (w : World) (k v : string) :
  builtinVLLMModels !! k = Some v ->
  Contains k "/" = true /\ ToLower w k = k /\ ToLower w v = v /\ noSlash v = true.
Proof.
  intros H. apply elem_of_list_to_map_2 in H.
  assert (HF : Forall (fun kv => Contains kv.1 "/" = true /\ ToLower w kv.1 = kv.1 /\
                                 ToLower w kv.2 = kv.2 /\ noSlash kv.2 = true)
                      builtinVLLMTable)
    by (apply (bool_decide_unpack _); vm_compute; exact I).
  rewrite Forall_forall in HF. exact (HF (k, v) H).
Qed.

Lemma Contains_slash_nonempty (s : string) : Contains s "/" = true -> s <> "".
Proof. intros H ->. discriminate H. Qed.

Lemma registerModel_returns (reg : plugin.ModelRegister Model) (name : string)
    (param : PresetParam) :
  name <> "" ->
  exists reg',
    registerModel reg name (Some param) =
      Returns (Some (vLLMCompatibleModel (Metadata_ param)), reg') /\
    plugin.MustGet reg' name = Some (vLLMCompatibleModel (Metadata_ param)) /\
    (forall other, other <> name -> plugin.MustGet reg' other = plugin.MustGet reg other).
Proof.
  intros Hne. unfold registerModel.
  set (r := {| plugin.Name := name;
               plugin.Instance := Some (vLLMCompatibleModel (Metadata_ param)) |}).
  destruct (Register_returns reg r Hne) as [reg' Hreg]. rewrite Hreg.
  destruct (Register_entries reg r reg' Hreg) as [_ He].
  exists reg'. split; [reflexivity|]. unfold plugin.MustGet. rewrite He. split.
  - rewrite lookup_insert_eq. reflexivity.
  - intros other Hother. rewrite lookup_insert_ne by (cbn; congruence). reflexivity.
Qed.

Section ArchitectureGate.
Variable vLLMModelArchMap : gmap string bool.

Lemma anySupported_spec (archs : list string) :
  anySupported vLLMModelArchMap archs = true <->
  exists arch, arch ∈ archs /\ is_Some (vLLMModelArchMap !! arch).
Proof.
  induction archs as [|a archs IH].
  - split; [discriminate|]. intros (arch & Hin & _). inversion Hin.
  - cbn [anySupported]. destruct (vLLMModelArchMap !! a) as [b|] eqn:E.
    + split; [intros _|reflexivity]. exists a. split; [left|]. rewrite E. eauto.
    + rewrite IH. split.
      * intros (arch & Hin & Hs). exists arch. split; [right; exact Hin|exact Hs].
      * intros (arch & Hin & Hs). apply elem_of_cons in Hin as [->|Hin].
        -- rewrite E in Hs. destruct Hs as [? Hs]. discriminate Hs.
        -- exists arch. split; assumption.
Qed.

End ArchitectureGate.

(** Whatever the register and the hub, the call returns. *)
Lemma GetModelByName_returns (vLLMModelArchMap : gmap string bool) (w : World)
    (reg : plugin.ModelRegister Model) (modelName secretName secretNamespace : string)
    (kubeClient : option KubeClient) :
  exists l,
    GetModelByName vLLMModelArchMap w reg modelName secretName secretNamespace kubeClient
    = Returns l.
Proof.
  unfold GetModelByName.
  destruct (plugin.MustGet reg (ToLower w modelName)); [eexists; reflexivity|].
  destruct (Contains (ToLower w modelName) "/") eqn:Hslash; [|eexists; reflexivity].
  destruct (builtinVLLMModels !! ToLower w modelName); [eexists; reflexivity|].
  destruct (GetHFTokenFromSecret kubeClient secretName secretNamespace) as [token err].
  destruct (GeneratePreset w (ToLower w modelName) token) as [[p|e] reqs];
    [|eexists; reflexivity].
  cbv beta iota zeta.
  destruct (registerModel_returns reg (ToLower w modelName) p
              (Contains_slash_nonempty _ Hslash)) as (reg' & Hreg & _).
  rewrite Hreg.
  destruct (length (Architectures (Metadata_ p)) =? 0)%nat; [eexists; reflexivity|].
  destruct (anySupported vLLMModelArchMap (Architectures (Metadata_ p)));
    eexists; reflexivity.
Qed.

(** X19.  What a lookup never does.  [GetModelByName] returns for every
    input: the register's panic on an empty name cannot be reached.  It
    asks the hub only for a name (lower-cased by [strings.ToLower]) with
    a ["/"] that is neither registered nor a key of [builtinVLLMModels],
    and its requests are then those of [GeneratePreset] for that name
    and the token of the secret.  It changes the register only by
    registering the model of the preset [GeneratePreset] returned, under
    that name; every other name is looked up afterwards as before, and an
    error leaves the register as it was.  A registered name gives its
    instance, a name without ["/"] that is not registered gives
    ["model is not registered: ..."], and a key of [builtinVLLMModels]
    gives what the register holds under the built-in preset's name
    (nothing, without error, when it holds none). *)
Theorem GetModelByName_frame (vLLMModelArchMap : gmap string bool) (w : World)
    (reg : plugin.ModelRegister Model) (modelName secretName secretNamespace : string)
    (kubeClient : option KubeClient) :
  let name := ToLower w modelName in
  let token := (GetHFTokenFromSecret kubeClient secretName secretNamespace).1 in
  exists l,
    GetModelByName vLLMModelArchMap w reg modelName secretName secretNamespace kubeClient
      = Returns l /\
    (hubRequests l <> [] ->
       plugin.MustGet reg name = None /\ noSlash name = false /\
       builtinVLLMModels !! name = None /\
       hubRequests l = (GeneratePreset w name token).2) /\
    (register l <> reg ->
       exists p,
         GeneratePreset w name token = (Ok p, hubRequests l) /\
         found l = Ok (Some (vLLMCompatibleModel (Metadata_ p))) /\
         plugin.MustGet (register l) name = Some (vLLMCompatibleModel (Metadata_ p))) /\
    (forall other, other <> name ->
       plugin.MustGet (register l) other = plugin.MustGet reg other) /\
    (forall err, found l = Err err -> register l = reg) /\
    (forall m, plugin.MustGet reg name = Some m ->
       l = {| found := Ok (Some m); register := reg; hubRequests := [] |}) /\
    (plugin.MustGet reg name = None -> noSlash name = true ->
       l = {| found := Err ("model is not registered: " +:+ name);
              register := reg; hubRequests := [] |}) /\
    (forall builtin, plugin.MustGet reg name = None ->
       builtinVLLMModels !! name = Some builtin ->
       l = {| found := Ok (plugin.MustGet reg builtin); register := reg;
              hubRequests := [] |}).
Proof.
  cbv zeta. unfold GetModelByName.
  destruct (plugin.MustGet reg (ToLower w modelName)) as [m0|] eqn:Hget.
  { eexists. split; [reflexivity|]. cbn [found register hubRequests].
    split; [intros H; exfalso; apply H; reflexivity|].
    split; [intros H; exfalso; apply H; reflexivity|].
    split; [reflexivity|]. split; [reflexivity|].
    split; [intros m [= <-]; reflexivity|]. split; discriminate. }
  rewrite Contains_slash.
  destruct (noSlash (ToLower w modelName)) eqn:Hslash; cbn [negb].
  { eexists. split; [reflexivity|]. cbn [found register hubRequests].
    split; [intros H; exfalso; apply H; reflexivity|].
    split; [intros H; exfalso; apply H; reflexivity|].
    split; [reflexivity|]. split; [reflexivity|].
    split; [discriminate|]. split; [reflexivity|].
    intros builtin _ Hb. destruct (builtinVLLMModels_keys w _ _ Hb) as [Hc _].
    rewrite Contains_slash, Hslash in Hc. discriminate Hc. }
  destruct (builtinVLLMModels !! ToLower w modelName) as [builtin|] eqn:Hb.
  { eexists. split; [reflexivity|]. cbn [found register hubRequests].
    split; [intros H; exfalso; apply H; reflexivity|].
    split; [intros H; exfalso; apply H; reflexivity|].
    split; [reflexivity|]. split; [reflexivity|].
    split; [discriminate|]. split; [discriminate|].
    intros b _ [= <-]. reflexivity. }
  assert (Hne : ToLower w modelName <> "").
  { intros H. rewrite H in Hslash. discriminate Hslash. }
  destruct (GetHFTokenFromSecret kubeClient secretName secretNamespace) as [token err].
  cbn [fst].
  destruct (GeneratePreset w (ToLower w modelName) token) as [[p|e] reqs] eqn:Hrun.
  2: { eexists. split; [reflexivity|]. cbn [found register hubRequests snd].
       split; [intros _; repeat split; reflexivity|].
       split; [intros H; exfalso; apply H; reflexivity|].
       split; [reflexivity|]. split; [reflexivity|].
       split; [discriminate|]. split; discriminate. }
  cbv beta iota zeta.
  destruct (registerModel_returns reg (ToLower w modelName) p Hne)
    as (reg' & Hreg & Hnew & Hold).
  rewrite Hreg.
  assert (Hregistered : forall l,
    l = {| found := Ok (Some (vLLMCompatibleModel (Metadata_ p))); register := reg';
           hubRequests := reqs |} ->
    (hubRequests l <> [] ->
       @None Model = None /\ false = false /\ @None string = None /\
       hubRequests l = (Ok p, reqs).2) /\
    (register l <> reg ->
       exists p0,
         (Ok p, reqs) = (Ok p0, hubRequests l) /\
         found l = Ok (Some (vLLMCompatibleModel (Metadata_ p0))) /\
         plugin.MustGet (register l) (ToLower w modelName) =
           Some (vLLMCompatibleModel (Metadata_ p0))) /\
    (forall other, other <> ToLower w modelName ->
       plugin.MustGet (register l) other = plugin.MustGet reg other) /\
    (forall err0, found l = Err err0 -> register l = reg) /\
    (forall m, @None Model = Some m ->
       l = {| found := Ok (Some m); register := reg; hubRequests := [] |}) /\
    (@None Model = None -> false = true ->
       l = {| found := Err ("model is not registered: " +:+ ToLower w modelName);
              register := reg; hubRequests := [] |}) /\
    (forall builtin, @None Model = None -> @None string = Some builtin ->
       l = {| found := Ok (plugin.MustGet reg builtin); register := reg;
              hubRequests := [] |})).
  { intros l ->. cbn [found register hubRequests snd].
    split; [intros _; repeat split; reflexivity|].
    split; [intros _; exists p; split; [reflexivity|split; [reflexivity|exact Hnew]]|].
    split; [exact Hold|]. split; [discriminate|].
    split; [discriminate|]. split; discriminate. }
  assert (Hrefused : forall l msg,
    l = {| found := Err msg; register := reg; hubRequests := reqs |} ->
    (hubRequests l <> [] ->
       @None Model = None /\ false = false /\ @None string = None /\
       hubRequests l = (Ok p, reqs).2) /\
    (register l <> reg ->
       exists p0,
         (Ok p, reqs) = (Ok p0, hubRequests l) /\
         found l = Ok (Some (vLLMCompatibleModel (Metadata_ p0))) /\
         plugin.MustGet (register l) (ToLower w modelName) =
           Some (vLLMCompatibleModel (Metadata_ p0))) /\
    (forall other, other <> ToLower w modelName ->
       plugin.MustGet (register l) other = plugin.MustGet reg other) /\
    (forall err0, found l = Err err0 -> register l = reg) /\
    (forall m, @None Model = Some m ->
       l = {| found := Ok (Some m); register := reg; hubRequests := [] |}) /\
    (@None Model = None -> false = true ->
       l = {| found := Err ("model is not registered: " +:+ ToLower w modelName);
              register := reg; hubRequests := [] |}) /\
    (forall builtin, @None Model = None -> @None string = Some builtin ->
       l = {| found := Ok (plugin.MustGet reg builtin); register := reg;
              hubRequests := [] |})).
  { intros l msg ->. cbn [found register hubRequests snd].
    split; [intros _; repeat split; reflexivity|].
    split; [intros H; exfalso; apply H; reflexivity|].
    split; [reflexivity|]. split; [reflexivity|].
    split; [discriminate|]. split; discriminate. }
  destruct (length (Architectures (Metadata_ p)) =? 0)%nat.
  { eexists. split; [reflexivity|]. apply Hregistered. reflexivity. }
  destruct (anySupported vLLMModelArchMap (Architectures (Metadata_ p))).
  { eexists. split; [reflexivity|]. apply Hregistered. reflexivity. }
  eexists. split; [reflexivity|]. apply (Hrefused _ _ eq_refl).
Qed.

Lemma GetModelByName_frame_witness :
  GetModelByName ∅ (statusWorld 404) phi4Models "Microsoft/Phi-4" "" "" None =
    Returns {| found := Ok (Some (otherModel "phi-4")); register := phi4Models;
               hubRequests := [] |} /\
  GetModelByName ∅ (statusWorld 404) phi4Models "Phi-5" "" "" None =
    Returns {| found := Err "model is not registered: phi-5"; register := phi4Models;
               hubRequests := [] |}.
Proof.
  split.
  - destruct (GetModelByName_frame ∅ (statusWorld 404) phi4Models "Microsoft/Phi-4"
                "" "" None) as (l & -> & _ & _ & _ & _ & _ & _ & H).
    rewrite (H "phi-4"); reflexivity.
  - destruct (GetModelByName_frame ∅ (statusWorld 404) phi4Models "Phi-5" "" "" None)
      as (l & -> & _ & _ & _ & _ & _ & H & _).
    rewrite H; reflexivity.
Defined.

(** X20.  A name with a ["/"] that is neither registered nor built in is
    generated from the hub, with the token of the secret.  An error of
    the generator is returned as it is and nothing is registered.  A
    preset without architectures, or with one that is a key of
    [vLLMModelArchMap], is registered under the lower-case name and
    returned, the other registrations staying as they were.  A preset
    whose architectures are all unknown gives the error
    ["unsupported model architecture for ..."] with the architectures
    joined by [", "], and nothing is registered. *)
Theorem GetModelByName_generates (vLLMModelArchMap : gmap string bool) (w : World)
    (reg : plugin.ModelRegister Model) (modelName secretName secretNamespace : string)
    (kubeClient : option KubeClient) :
  let name := ToLower w modelName in
  let token := (GetHFTokenFromSecret kubeClient secretName secretNamespace).1 in
  let call := GetModelByName vLLMModelArchMap w reg modelName secretName
                secretNamespace kubeClient in
  plugin.MustGet reg name = None ->
  noSlash name = false ->
  builtinVLLMModels !! name = None ->
  (forall err reqs,
     GeneratePreset w name token = (Err err, reqs) ->
     call = Returns {| found := Err err; register := reg; hubRequests := reqs |}) /\
  (forall p reqs,
     GeneratePreset w name token = (Ok p, reqs) ->
     let archs := Architectures (Metadata_ p) in
     (archs = [] \/ (exists arch, arch ∈ archs /\ is_Some (vLLMModelArchMap !! arch)) ->
      exists reg',
        call = Returns {| found := Ok (Some (vLLMCompatibleModel (Metadata_ p)));
                          register := reg'; hubRequests := reqs |} /\
        plugin.MustGet reg' name = Some (vLLMCompatibleModel (Metadata_ p)) /\
        (forall other, other <> name ->
           plugin.MustGet reg' other = plugin.MustGet reg other)) /\
     (archs <> [] -> (forall arch, arch ∈ archs -> vLLMModelArchMap !! arch = None) ->
      call = Returns {| found := Err ("unsupported model architecture for " +:+ name
                                      +:+ ": " +:+ Join archs ", ");
                        register := reg; hubRequests := reqs |})).
Proof.
  cbv zeta. intros Hget Hslash Hbuiltin.
  assert (Hne : ToLower w modelName <> "").
  { intros H. rewrite H in Hslash. discriminate Hslash. }
  unfold GetModelByName. rewrite Hget, Contains_slash, Hslash, Hbuiltin. cbn [negb].
  destruct (GetHFTokenFromSecret kubeClient secretName secretNamespace) as [token err].
  cbn [fst].
  split.
  - intros e reqs ->. reflexivity.
  - intros p reqs ->. cbv beta iota zeta. split.
    + intros Hok.
      destruct (registerModel_returns reg (ToLower w modelName) p Hne)
        as (reg' & Hreg & Hnew & Hold).
      exists reg'. rewrite Hreg. split; [|split; assumption].
      destruct Hok as [Hnil|Hsup].
      * rewrite Hnil. reflexivity.
      * apply (anySupported_spec vLLMModelArchMap) in Hsup. rewrite Hsup.
        destruct (length (Architectures (Metadata_ p)) =? 0)%nat; reflexivity.
    + intros Hnil Hnone.
      assert (Hlen : (length (Architectures (Metadata_ p)) =? 0)%nat = false).
      { destruct (Architectures (Metadata_ p)); [contradiction|reflexivity]. }
      assert (Hany : anySupported vLLMModelArchMap (Architectures (Metadata_ p)) = false).
      { destruct (anySupported vLLMModelArchMap (Architectures (Metadata_ p))) eqn:E;
          [|reflexivity].
        apply anySupported_spec in E as (arch & Hin & [b Hs]).
        rewrite (Hnone arch Hin) in Hs. discriminate Hs. }
      rewrite Hlen, Hany. reflexivity.
Qed.

Lemma GetModelByName_generates_witness :
  exists p reqs reg',
    GeneratePreset (servingWorld mixedTree llamaConfig) "org/model" "" = (Ok p, reqs) /\
    GetModelByName (<["LlamaForCausalLM" := true]> ∅) (servingWorld mixedTree llamaConfig)
      noModels "Org/Model" "" "" None =
    Returns {| found := Ok (Some (vLLMCompatibleModel (Metadata_ p)));
               register := reg'; hubRequests := reqs |} /\
    GetModelByName ∅ (servingWorld mixedTree llamaConfig) noModels "Org/Model" "" "" None =
    Returns {| found := Err "unsupported model architecture for org/model: LlamaForCausalLM";
               register := noModels; hubRequests := reqs |}.
Proof.
  destruct (GeneratePreset (servingWorld mixedTree llamaConfig) "org/model" "")
    as [[p|e] reqs] eqn:Hrun; [|vm_compute in Hrun; discriminate].
  assert (Harch : Architectures (Metadata_ p) = ["LlamaForCausalLM"]).
  { destruct (GeneratePreset_run _ _ _ p reqs Hrun)
      as (_ & files & d & config & Hserved & -> & _).
    destruct Hserved as (body & configBody & _ & _ & _ & _ & _ & _ & Hc).
    unfold servingWorld in Hc. cbn [unmarshalConfig] in Hc. injection Hc as <-.
    reflexivity. }
  destruct (GetModelByName_generates (<["LlamaForCausalLM" := true]> ∅)
              (servingWorld mixedTree llamaConfig) noModels "Org/Model" "" "" None
              eq_refl eq_refl eq_refl) as [_ Hok].
  destruct (GetModelByName_generates ∅
              (servingWorld mixedTree llamaConfig) noModels "Org/Model" "" "" None
              eq_refl eq_refl eq_refl) as [_ Hbad].
  destruct (Hok p reqs Hrun) as [Hreg _].
  destruct (Hbad p reqs Hrun) as [_ Hgate].
  destruct Hreg as (reg' & Hcall & _).
  { right. exists "LlamaForCausalLM". rewrite Harch. split; [left|].
    exists true. reflexivity. }
  exists p, reqs, reg'. split; [reflexivity|]. split; [exact Hcall|].
  rewrite Hgate; [rewrite Harch; reflexivity|rewrite Harch; discriminate|].
  intros arch _. apply lookup_empty.
Defined.

(** X21.  A lookup that returned a model is repeated without the hub:
    on the register it left, a lookup of a name with the same lower case
    (the same name up to ASCII case, for one) returns the same model,
    makes no request and changes nothing, whatever the hub, the secret
    and the architecture map are by then. *)
Theorem GetModelByName_idempotent (vLLMModelArchMap : gmap string bool) (w : World)
    (reg reg' : plugin.ModelRegister Model)
    (modelName secretName secretNamespace : string) (kubeClient : option KubeClient)
    (m : Model) (reqs : list string) :
  GetModelByName vLLMModelArchMap w reg modelName secretName secretNamespace kubeClient
  = Returns {| found := Ok (Some m); register := reg'; hubRequests := reqs |} ->
  forall archMap' w' modelName' secretName' secretNamespace' kubeClient',
    ToLower w' modelName' = ToLower w modelName ->
    GetModelByName archMap' w' reg' modelName' secretName' secretNamespace' kubeClient'
    = Returns {| found := Ok (Some m); register := reg'; hubRequests := [] |}.
Proof.
  intros Hcall archMap' w' modelName' secretName' secretNamespace' kubeClient' Hname.
  revert Hcall. unfold GetModelByName. rewrite Hname.
  destruct (plugin.MustGet reg (ToLower w modelName)) as [m0|] eqn:Hget.
  { intros [= -> <- _]. rewrite Hget. reflexivity. }
  destruct (Contains (ToLower w modelName) "/") eqn:Hslash; [|discriminate].
  destruct (builtinVLLMModels !! ToLower w modelName) as [builtin|] eqn:Hb.
  { intros [= Hm <- _]. rewrite Hget, Hm. reflexivity. }
  destruct (GetHFTokenFromSecret kubeClient secretName secretNamespace) as [token err].
  destruct (GeneratePreset w (ToLower w modelName) token) as [[p|e] reqs0];
    [|discriminate].
  cbv beta iota zeta.
  destruct (registerModel_returns reg (ToLower w modelName) p
              (Contains_slash_nonempty _ Hslash)) as (reg1 & Hreg & Hnew & _).
  rewrite Hreg.
  destruct (length (Architectures (Metadata_ p)) =? 0)%nat.
  { intros [= <- <- _]. rewrite Hnew. reflexivity. }
  destruct (anySupported vLLMModelArchMap (Architectures (Metadata_ p)));
    [|discriminate].
  intros [= <- <- _]. rewrite Hnew. reflexivity.
Qed.

Lemma GetModelByName_idempotent_witness :
  exists m reg',
    GetModelByName ∅ (servingWorld mixedTree gqaConfig) noModels "Org/Model" "" "" None =
      Returns {| found := Ok (Some m); register := reg';
                 hubRequests :=
                   ["https://huggingface.co/api/models/org/model/tree/main?recursive=true";
                    "https://huggingface.co/org/model/resolve/main/config.json"] |} /\
    GetModelByName ∅ (statusWorld 404) reg' "org/model" "" "" None =
      Returns {| found := Ok (Some m); register := reg'; hubRequests := [] |}.
Proof.
  destruct (GetModelByName_returns ∅ (servingWorld mixedTree gqaConfig) noModels
              "Org/Model" "" "" None) as [[r reg' reqs] Hcall].
  assert (Hshape : exists m, r = Ok (Some m) /\
            reqs = ["https://huggingface.co/api/models/org/model/tree/main?recursive=true";
                    "https://huggingface.co/org/model/resolve/main/config.json"]).
  { vm_compute in Hcall. injection Hcall as <- _ <-. eexists. split; reflexivity. }
  destruct Hshape as (m & -> & ->).
  exists m, reg'. split; [exact Hcall|].
  apply (GetModelByName_idempotent _ _ _ _ _ _ _ _ _ _ Hcall). reflexivity.
Defined.

(** X22.  [GetHFTokenFromSecret] returns an empty token with every error.
    An empty secret name gives no token and no error; a missing client
    gives the error ["kubeClient is nil"]; an empty namespace stands for
    ["default"]; a secret with the key [HF_TOKEN] gives its value.
    [GetModelByName] drops the error: a lookup whose secret cannot be
    read is the lookup without a secret. *)
Theorem GetHFTokenFromSecret_spec (kubeClient : option KubeClient)
    (secretName secretNamespace : string) :
  let token := (GetHFTokenFromSecret kubeClient secretName secretNamespace).1 in
  let err := (GetHFTokenFromSecret kubeClient secretName secretNamespace).2 in
  (err <> None -> token = "") /\
  (secretName = "" -> token = "" /\ err = None) /\
  (secretName <> "" -> kubeClient = None -> err = Some "kubeClient is nil") /\
  GetHFTokenFromSecret kubeClient secretName "" =
    GetHFTokenFromSecret kubeClient secretName "default" /\
  (forall client data t,
     secretName <> "" -> kubeClient = Some client ->
     GetSecret client secretName
       (if String.eqb secretNamespace "" then "default" else secretNamespace) = Ok data ->
     data !! "HF_TOKEN" = Some t ->
     token = t /\ err = None) /\
  (forall vLLMModelArchMap w reg modelName,
     err <> None ->
     GetModelByName vLLMModelArchMap w reg modelName secretName secretNamespace kubeClient
     = GetModelByName vLLMModelArchMap w reg modelName "" "" None).
Proof.
  cbv zeta.
  assert (Htoken : (GetHFTokenFromSecret kubeClient secretName secretNamespace).2 <> None ->
                   (GetHFTokenFromSecret kubeClient secretName secretNamespace).1 = "").
  { unfold GetHFTokenFromSecret.
    destruct (String.eqb secretName ""); [reflexivity|].
    destruct kubeClient as [client|]; [|reflexivity].
    destruct (GetSecret client secretName _) as [data|e]; [|reflexivity].
    destruct (data !! "HF_TOKEN"); [|reflexivity].
    intros H. contradiction. }
  split; [exact Htoken|]. split; [|split; [|split; [|split]]].
  - intros ->. split; reflexivity.
  - intros Hne ->. unfold GetHFTokenFromSecret.
    apply String.eqb_neq in Hne. rewrite Hne. reflexivity.
  - reflexivity.
  - intros client data t Hne -> Hget Hdata. unfold GetHFTokenFromSecret.
    apply String.eqb_neq in Hne. rewrite Hne, Hget, Hdata. split; reflexivity.
  - intros archMap w reg modelName Herr. specialize (Htoken Herr).
    unfold GetModelByName.
    destruct (GetHFTokenFromSecret kubeClient secretName secretNamespace) as [token err].
    cbn [fst] in Htoken. subst token. reflexivity.
Qed.

Lemma GetHFTokenFromSecret_spec_witness :
  GetHFTokenFromSecret (Some secretClient) "hf-secret" "" = ("hf_secret", None) /\
  GetModelByName ∅ (statusWorld 404) noModels "org/model" "missing" "" (Some secretClient)
  = GetModelByName ∅ (statusWorld 404) noModels "org/model" "" "" None.
Proof.
  split.
  - destruct (GetHFTokenFromSecret_spec (Some secretClient) "hf-secret" "")
      as (_ & _ & _ & _ & H & _).
    destruct (H secretClient (<["HF_TOKEN" := "hf_secret"]> ∅) "hf_secret")
      as [Ht He]; [discriminate|reflexivity|reflexivity|reflexivity|].
    destruct (GetHFTokenFromSecret (Some secretClient) "hf-secret" "") as [t e].
    cbn [fst snd] in Ht, He. subst. reflexivity.
  - destruct (GetHFTokenFromSecret_spec (Some secretClient) "missing" "")
      as (_ & _ & _ & _ & _ & H).
    apply H. discriminate.
Defined.
